(** * cert-manager-notifier: a shallow embedding of the notifier and its proofs

    The development follows the three Go packages of the repository:
    - [config]  (internal/config):  [Load], [loadWebhooks];
    - [webhook] (internal/webhook): the delivery fan-out [sendNotification];
    - [monitor] (internal/monitor): classification, the notified-state
      table and [checkCertificate] / [checkCertificates].

    Go's standard library is modelled where the code relies on it:
    [time.Time] and [time.Duration] as integers of nanoseconds, the
    float64 arithmetic of [Duration.Hours] with primitive binary64 floats,
    [strings.Split] and [strings.TrimSpace] on byte strings.  What the
    program takes from its environment (the wall clock, the HTTP round
    trip, the JSON encoder, the cluster's certificate list) is an
    interface, [Platform], over an abstract world that is threaded through
    every effectful function.  Logging and the mutex are left out: the
    monitor runs on one goroutine and no property below reads a log line. *)

From Stdlib Require Import ZArith Lia List Ascii DecimalString.
From Stdlib Require Import PrimFloat FloatOps SpecFloat Uint63.
From Stdlib Require DecimalZ FloatAxioms.
From stdpp Require Import base gmap strings list.

Local Open Scope Z_scope.

(** ** Package time *)

Module time.

(** Instants are nanoseconds since the Unix epoch, on one time line for
    the wall clock and the monotonic clock; durations are the int64
    nanosecond counts of [time.Duration]. *)
Definition Time := Z.
Definition Duration := Z.

Definition Nanosecond : Duration := 1.
Definition Microsecond : Duration := 1000 * Nanosecond.
Definition Millisecond : Duration := 1000 * Microsecond.
Definition Second : Duration := 1000 * Millisecond.
Definition Minute : Duration := 60 * Second.
Definition Hour : Duration := 60 * Minute.

Definition minDuration : Duration := - 2 ^ 63.
Definition maxDuration : Duration := 2 ^ 63 - 1.

(** [t.After(u)] *)
Definition After (t u : Time) : bool := u <? t.

(** [t.Add(d)] *)
Definition Add (t : Time) (d : Duration) : Time := t + d.

(** [t.Sub(u)]: the difference, clamped to the range of [Duration]. *)
Definition Sub (t u : Time) : Duration :=
  let d := t - u in
  if d <? minDuration then minDuration
  else if maxDuration <? d then maxDuration
  else d.

(** float64(x) for an int64 [x]: [of_uint63] rounds to nearest, and
    rounding to nearest is symmetric around zero. *)
Definition float64 (x : Z) : float :=
  if x <? 0 then PrimFloat.opp (PrimFloat.of_uint63 (Uint63.of_Z (- x)))
  else PrimFloat.of_uint63 (Uint63.of_Z x).

(** int(f) for a float64 [f]: the fraction is discarded.  A finite
    float is [m * 2^e] with a sign; shifting the mantissa drops the
    bits below the unit. *)
Definition int (f : float) : Z :=
  match Prim2SF f with
  | S754_finite s m e =>
      if s then - Z.shiftl (Zpos m) e else Z.shiftl (Zpos m) e
  | _ => 0
  end.

(** [d.Hours()]:
    hour := d / Hour; nsec := d % Hour;
    return float64(hour) + float64(nsec)/(60*60*1e9) *)
Definition Hours (d : Duration) : float :=
  let hour := Z.quot d Hour in
  let nsec := Z.rem d Hour in
  PrimFloat.add (float64 hour)
                (PrimFloat.div (float64 nsec) (float64 (60 * 60 * 1000000000))).

(** [time.NewTicker(d)] panics unless [d] is positive; [None] stands
    for the panic, and the ticker is known by its period. *)
Definition NewTicker (d : Duration) : option Duration :=
  if d <=? 0 then None else Some d.

End time.

(** ** Package strings, and the two verbs of fmt.Sprintf the code uses *)

Module strings.

Definition bytes (s : string) : list ascii := String.list_ascii_of_string s.
Definition of_bytes (l : list ascii) : string := String.string_of_list_ascii l.

(** [strings.Split(s, sep)] for a one-byte separator: the fields between
    the separators, one more than there are separators. *)
Fixpoint splitBytes (sep : ascii) (s : list ascii) : list (list ascii) :=
  match s with
  | [] => [[]]
  | c :: s' =>
      if Ascii.eqb c sep then [] :: splitBytes sep s'
      else match splitBytes sep s' with
           | f :: fs => (c :: f) :: fs
           | [] => [[c]]
           end
  end.

Definition Split (s : string) (sep : ascii) : list string :=
  of_bytes <$> splitBytes sep (bytes s).

(** [strings.SplitN(s, sep, 2)]: cut at the first separator only. *)
Fixpoint cutBytes (sep : ascii) (s : list ascii) : list (list ascii) :=
  match s with
  | [] => [[]]
  | c :: s' =>
      if Ascii.eqb c sep then [[]; s']
      else match cutBytes sep s' with
           | f :: fs => (c :: f) :: fs
           | [] => [[c]]
           end
  end.

Definition SplitN2 (s : string) (sep : ascii) : list string :=
  of_bytes <$> cutBytes sep (bytes s).

(** The white space of [unicode.IsSpace], by its UTF-8 encoding:
    the six ASCII characters of [asciiSpace], *)
Definition asciiSpace (c : ascii) : bool :=
  let n := Ascii.N_of_ascii c in
  ((9 <=? n) && (n <=? 13) || (n =? 32))%N.

(** U+0085 and U+00A0, *)
Definition space2 (c1 c2 : ascii) : bool :=
  let n1 := Ascii.N_of_ascii c1 in
  let n2 := Ascii.N_of_ascii c2 in
  ((n1 =? 194) && ((n2 =? 133) || (n2 =? 160)))%N.

(** U+1680, U+2000..U+200A, U+2028, U+2029, U+202F, U+205F and U+3000. *)
Definition space3 (c1 c2 c3 : ascii) : bool :=
  let n1 := Ascii.N_of_ascii c1 in
  let n2 := Ascii.N_of_ascii c2 in
  let n3 := Ascii.N_of_ascii c3 in
  ((n1 =? 225) && (n2 =? 154) && (n3 =? 128)
   || (n1 =? 226) && (n2 =? 128)
      && ((128 <=? n3) && (n3 <=? 138) || (n3 =? 168) || (n3 =? 169) || (n3 =? 175))
   || (n1 =? 226) && (n2 =? 129) && (n3 =? 159)
   || (n1 =? 227) && (n2 =? 128) && (n3 =? 128))%N.

(** Drop the leading white-space runes.  The decoder accepts only the
    shortest encoding of a rune, so a leading rune is a space exactly
    when the string starts with one of the byte sequences above. *)
Fixpoint trimLeft (s : list ascii) : list ascii :=
  match s with
  | [] => []
  | c1 :: s1 =>
      if asciiSpace c1 then trimLeft s1
      else match s1 with
           | [] => s
           | c2 :: s2 =>
               if space2 c1 c2 then trimLeft s2
               else match s2 with
                    | [] => s
                    | c3 :: s3 => if space3 c1 c2 c3 then trimLeft s3 else s
                    end
           end
  end.

(** The same from the end, on the reversed string. *)
Fixpoint trimLeftRev (s : list ascii) : list ascii :=
  match s with
  | [] => []
  | c1 :: s1 =>
      if asciiSpace c1 then trimLeftRev s1
      else match s1 with
           | [] => s
           | c2 :: s2 =>
               if space2 c2 c1 then trimLeftRev s2
               else match s2 with
                    | [] => s
                    | c3 :: s3 => if space3 c3 c2 c1 then trimLeftRev s3 else s
                    end
           end
  end.

(** [strings.TrimSpace(s)] *)
Definition TrimSpace (s : string) : string :=
  of_bytes (rev (trimLeftRev (rev (trimLeft (bytes s))))).

(** The verb %d of fmt.Sprintf. *)
Definition itoa (n : Z) : string := NilEmpty.string_of_int (Z.to_int n).

End strings.

(** ** Packages os and strconv *)

Module os.

(** The process environment; [os.Getenv] yields the empty string for a
    variable that is not set. *)
Definition Getenv (env : gmap string string) (key : string) : string :=
  default "" (env !! key).

End os.

Module strconv.

Definition digit (c : ascii) : option Z :=
  let n := Z.of_N (Ascii.N_of_ascii c) in
  if (48 <=? n) && (n <=? 57) then Some (n - 48) else None.

Fixpoint digits (acc : Z) (s : list ascii) : option Z :=
  match s with
  | [] => Some acc
  | c :: s' =>
      match digit c with
      | Some d => digits (10 * acc + d) s'
      | None => None
      end
  end.

(** [strconv.Atoi(s)] on a 64-bit platform: an optional sign, at least
    one decimal digit, and a value that fits an int; [None] is the
    error return. *)
Definition Atoi (s : string) : option Z :=
  let '(neg, ds) :=
    match strings.bytes s with
    | c :: rest =>
        if Ascii.eqb c "-" then (true, rest)
        else if Ascii.eqb c "+" then (false, rest)
        else (false, c :: rest)
    | [] => (false, [])
    end in
  match ds with
  | [] => None
  | _ =>
      match digits 0 ds with
      | Some n =>
          let v := if neg then - n else n in
          if (- 2 ^ 63 <=? v) && (v <=? 2 ^ 63 - 1) then Some v else None
      | None => None
      end
  end.

End strconv.

(** A Go pair (value, error) in which exactly one side is meaningful. *)
Inductive result (A E : Type) : Type :=
| Ok (a : A)
| Err (e : E).
Arguments Ok {A E} a.
Arguments Err {A E} e.

(** ** Package config (internal/config) *)

Module config.

Record WebhookConfig := mkWebhookConfig {
  Name : string;
  URL : string;
  Headers : gmap string string;
  Timeout : time.Duration
}.

Record Config := mkConfig {
  Webhooks : list WebhookConfig;
  CheckInterval : time.Duration;
  ExpirationThreshold : time.Duration;
  Namespace : string;
  HealthPort : Z;
  LogLevel : string
}.

Inductive error :=
| WebhookURLsRequired          (* WEBHOOK_URLS environment variable is required *)
| NoValidWebhooks              (* no valid webhooks configured *)
| FailedToLoadWebhooks (e : error). (* failed to load webhooks: %w *)

Section Loading.

(** [time.ParseDuration]; [None] stands for its error return. *)
Variable ParseDuration : string -> option time.Duration.

Variable env : gmap string string.

(** The body of the loop over [headerPairs]. *)
Definition addHeader (headers : gmap string string) (pair : string)
  : gmap string string :=
  match strings.SplitN2 pair ":" with
  | [k; v] => <[strings.TrimSpace k := strings.TrimSpace v]> headers
  | _ => headers
  end.

(** One configured webhook, for the entry at index [i] of the list. *)
Definition loadWebhook (i : Z) (url : string) : WebhookConfig :=
  let headersKey := "WEBHOOK_" +:+ strings.itoa (i + 1) +:+ "_HEADERS" in
  let headers := os.Getenv env headersKey in
  let hs := if decide (headers = "") then ∅
            else foldl addHeader ∅ (strings.Split headers ",") in
  let timeoutKey := "WEBHOOK_" +:+ strings.itoa (i + 1) +:+ "_TIMEOUT" in
  let timeout := os.Getenv env timeoutKey in
  let t := if decide (timeout = "") then 30 * time.Second
           else match ParseDuration timeout with
                | Some duration => duration
                | None => 30 * time.Second
                end in
  {| Name := "webhook-" +:+ strings.itoa (i + 1);
     URL := url;
     Headers := hs;
     Timeout := t |}.

(** The loop [for i, url := range urlList], from index [i] on. *)
Fixpoint loadLoop (i : Z) (urlList : list string) (webhooks : list WebhookConfig)
  : list WebhookConfig :=
  match urlList with
  | [] => webhooks
  | url :: rest =>
      let url := strings.TrimSpace url in
      if decide (url = "") then loadLoop (i + 1) rest webhooks
      else loadLoop (i + 1) rest (webhooks ++ [loadWebhook i url])
  end.

Definition loadWebhooks : result (list WebhookConfig) error :=
  let urls := os.Getenv env "WEBHOOK_URLS" in
  if decide (urls = "") then Err WebhookURLsRequired
  else
    let urlList := strings.Split urls "," in
    let webhooks := loadLoop 0 urlList [] in
    if decide (length webhooks = 0%nat) then Err NoValidWebhooks
    else Ok webhooks.

(** The assignments [cfg.Field = value]. *)
Definition withWebhooks (cfg : Config) (v : list WebhookConfig) : Config :=
  mkConfig v (CheckInterval cfg) (ExpirationThreshold cfg) (Namespace cfg)
           (HealthPort cfg) (LogLevel cfg).
Definition withCheckInterval (cfg : Config) (v : time.Duration) : Config :=
  mkConfig (Webhooks cfg) v (ExpirationThreshold cfg) (Namespace cfg)
           (HealthPort cfg) (LogLevel cfg).
Definition withExpirationThreshold (cfg : Config) (v : time.Duration) : Config :=
  mkConfig (Webhooks cfg) (CheckInterval cfg) v (Namespace cfg)
           (HealthPort cfg) (LogLevel cfg).
Definition withNamespace (cfg : Config) (v : string) : Config :=
  mkConfig (Webhooks cfg) (CheckInterval cfg) (ExpirationThreshold cfg) v
           (HealthPort cfg) (LogLevel cfg).
Definition withHealthPort (cfg : Config) (v : Z) : Config :=
  mkConfig (Webhooks cfg) (CheckInterval cfg) (ExpirationThreshold cfg)
           (Namespace cfg) v (LogLevel cfg).
Definition withLogLevel (cfg : Config) (v : string) : Config :=
  mkConfig (Webhooks cfg) (CheckInterval cfg) (ExpirationThreshold cfg)
           (Namespace cfg) (HealthPort cfg) v.

(** The five blocks of [Load] that read an optional variable, in the
    order of the code. *)
Definition loadCheckInterval (cfg : Config) : Config :=
  let val := os.Getenv env "CHECK_INTERVAL" in
  if decide (val = "") then cfg
  else match ParseDuration val with
       | Some duration => withCheckInterval cfg duration
       | None => cfg
       end.

Definition loadExpirationThreshold (cfg : Config) : Config :=
  let val := os.Getenv env "EXPIRATION_THRESHOLD" in
  if decide (val = "") then cfg
  else match ParseDuration val with
       | Some duration => withExpirationThreshold cfg duration
       | None => cfg
       end.

Definition loadNamespace (cfg : Config) : Config :=
  let val := os.Getenv env "NAMESPACE" in
  if decide (val = "") then cfg else withNamespace cfg val.

Definition loadHealthPort (cfg : Config) : Config :=
  let val := os.Getenv env "HEALTH_PORT" in
  if decide (val = "") then cfg
  else match strconv.Atoi val with
       | Some port => withHealthPort cfg port
       | None => cfg
       end.

Definition loadLogLevel (cfg : Config) : Config :=
  let val := os.Getenv env "LOG_LEVEL" in
  if decide (val = "") then cfg else withLogLevel cfg val.

Definition Load : result Config error :=
  let cfg := {| Webhooks := [];
                CheckInterval := 24 * time.Hour;
                ExpirationThreshold := 30 * 24 * time.Hour;
                Namespace := "";
                HealthPort := 8080;
                LogLevel := "info" |} in
  match loadWebhooks with
  | Err err => Err (FailedToLoadWebhooks err)
  | Ok webhooks =>
      let cfg := withWebhooks cfg webhooks in
      let cfg := loadCheckInterval cfg in
      let cfg := loadExpirationThreshold cfg in
      let cfg := loadNamespace cfg in
      let cfg := loadHealthPort cfg in
      let cfg := loadLogLevel cfg in
      Ok cfg
  end.

End Loading.

End config.

(** ** Package webhook (internal/webhook) *)

Module webhook.

Record PayloadCertificate := mkPayloadCertificate {
  Name : string;
  Namespace : string;
  Issuer : string;
  DNSNames : list string;
  ExpiresAt : time.Time
}.

(** The field [Type] of the Go struct is [Type_] here. *)
Record NotificationPayload := mkNotificationPayload {
  Type_ : string;
  Message : string;
  Certificate : PayloadCertificate;
  Timestamp : time.Time
}.

Record Notifier := mkNotifier {
  webhooks : list config.WebhookConfig
}.

(** The errors of [sendToWebhook], one destination's failure, *)
Inductive sendError :=
| CreateRequestFailed (msg : string) (* failed to create request: %w *)
| SendRequestFailed (msg : string)   (* failed to send request: %w *)
| NonSuccessStatus (code : Z).       (* webhook returned non-success status: %d *)

(** and those of [sendNotification]; the second wraps [lastError],
    which is nil when the loop saw no failure. *)
Inductive error :=
| MarshalFailed (msg : string)       (* failed to marshal notification payload: %w *)
| NoWebhookSucceeded (lastError : option sendError).
                                     (* failed to send notification to any webhook: %w *)

(** What [http.NewRequestWithContext] followed by [client.Do] comes to
    for one destination: no request could be built, the transport
    failed (which covers the destination's timeout and a cancelled
    parent context), or a response with a status code arrived. *)
Inductive HttpOutcome :=
| RequestInvalid (msg : string)
| TransportFailed (msg : string)
| Responded (StatusCode : Z).

(** One pass through the body of the loop over the webhooks. *)
Record Attempt := mkAttempt {
  destination : config.WebhookConfig;
  body : string;
  outcome : option sendError
}.

(** The state that effectful code runs in: the world outside, and two
    logs kept for the statements only, of the notifications the notifier
    was asked to send and of the destinations it tried. *)
Record RunState (World : Type) := mkRunState {
  world : World;
  notifications : list NotificationPayload;
  attempts : list Attempt
}.
Arguments mkRunState {World} _ _ _.
Arguments world {World} _.
Arguments notifications {World} _.
Arguments attempts {World} _.

(** The interface to the outside: [time.Now], [json.Marshal] on a
    payload, and the HTTP exchange with one destination. *)
Class Platform (World : Type) := mkPlatform {
  Now : World -> time.Time * World;
  Marshal : NotificationPayload -> result string string;
  Do : config.WebhookConfig -> string -> World -> HttpOutcome * World
}.

(** Effectful code is a function from the state before to a value and
    the state after. *)
Definition M (World A : Type) : Type := RunState World -> A * RunState World.

Definition ret {World A} (a : A) : M World A := fun s => (a, s).
Definition bind {World A B} (m : M World A) (k : A -> M World B) : M World B :=
  fun s => let (a, s') := m s in k a s'.

Declare Scope go_scope.
Delimit Scope go_scope with go.
Notation "x <- m ;; k" := (bind m (fun x => k))
  (at level 100, m at next level, right associativity) : go_scope.

Definition NewNotifier (webhooks : list config.WebhookConfig) : Notifier :=
  {| webhooks := webhooks |}.

Section Notifier.

Context {World : Type} `{Platform World}.
Local Open Scope go_scope.

(** [time.Now()] *)
Definition timeNow : M World time.Time :=
  fun s => let (t, w) := Now (world s) in
           (t, mkRunState w (notifications s) (attempts s)).

(** [time.Until(t)], that is [t.Sub(time.Now())] *)
Definition timeUntil (t : time.Time) : M World time.Duration :=
  now <- timeNow ;; ret (time.Sub t now).

(** [int(d.Hours() / 24)] *)
Definition daysUntil (d : time.Duration) : Z :=
  time.int (PrimFloat.div (time.Hours d) (time.float64 24)).

Definition sendToWebhook (webhook : config.WebhookConfig) (payload : string)
  : M World (option sendError) :=
  fun s =>
    let (out, w) := Do webhook payload (world s) in
    let err :=
      match out with
      | RequestInvalid msg => Some (CreateRequestFailed msg)
      | TransportFailed msg => Some (SendRequestFailed msg)
      | Responded StatusCode =>
          if (StatusCode <? 200) || (300 <=? StatusCode)
          then Some (NonSuccessStatus StatusCode)
          else None
      end in
    (err, mkRunState w (notifications s)
                     (attempts s ++ [mkAttempt webhook payload err])).

(** The loop [for _, webhook := range n.webhooks] with its two
    variables [lastError] and [successCount]. *)
Fixpoint sendLoop (ws : list config.WebhookConfig) (jsonPayload : string)
    (lastError : option sendError) (successCount : Z)
  : M World (option sendError * Z) :=
  match ws with
  | [] => ret (lastError, successCount)
  | webhook :: rest =>
      r <- sendToWebhook webhook jsonPayload ;;
      match r with
      | Some err => sendLoop rest jsonPayload (Some err) successCount
      | None => sendLoop rest jsonPayload lastError (successCount + 1)
      end
  end.

(** Entering [sendNotification] with a payload, for the log. *)
Definition announce (payload : NotificationPayload) : M World unit :=
  fun s => (tt, mkRunState (world s) (notifications s ++ [payload]) (attempts s)).

Definition sendNotification (n : Notifier) (payload : NotificationPayload)
  : M World (option error) :=
  _ <- announce payload ;;
  match Marshal payload with
  | Err msg => ret (Some (MarshalFailed msg))
  | Ok jsonPayload =>
      r <- sendLoop (webhooks n) jsonPayload None 0 ;;
      let (lastError, successCount) := r in
      if successCount =? 0 then ret (Some (NoWebhookSucceeded lastError))
      else ret None
  end.

Definition SendExpiredNotification (n : Notifier) (certName namespace issuer : string)
    (dnsNames : list string) (expiresAt : time.Time) : M World (option error) :=
  now <- timeNow ;;
  let payload :=
    {| Type_ := "expired";
       Message := "Certificate " +:+ namespace +:+ "/" +:+ certName +:+ " has expired";
       Certificate := {| Name := certName; Namespace := namespace; Issuer := issuer;
                         DNSNames := dnsNames; ExpiresAt := expiresAt |};
       Timestamp := now |} in
  sendNotification n payload.

Definition expiringMessage (namespace certName : string) (daysUntilExpiry : Z) : string :=
  "Certificate " +:+ namespace +:+ "/" +:+ certName +:+ " expires in "
    +:+ strings.itoa daysUntilExpiry +:+ " days".

Definition SendExpiringNotification (n : Notifier) (certName namespace issuer : string)
    (dnsNames : list string) (expiresAt : time.Time) : M World (option error) :=
  remaining <- timeUntil expiresAt ;;
  let daysUntilExpiry := daysUntil remaining in
  now <- timeNow ;;
  let payload :=
    {| Type_ := "expiring";
       Message := expiringMessage namespace certName daysUntilExpiry;
       Certificate := {| Name := certName; Namespace := namespace; Issuer := issuer;
                         DNSNames := dnsNames; ExpiresAt := expiresAt |};
       Timestamp := now |} in
  sendNotification n payload.

End Notifier.

End webhook.

(** ** The cert-manager API types the monitor reads *)

Module certmanagerv1.

(** [Spec_IssuerRef_Name] is [cert.Spec.IssuerRef.Name], and so on;
    [Status_NotAfter] is a pointer in Go, nil before the certificate
    is issued. *)
Record Certificate := mkCertificate {
  Name : string;
  Namespace : string;
  Spec_IssuerRef_Name : string;
  Spec_DNSNames : list string;
  Status_NotAfter : option time.Time
}.

End certmanagerv1.

(** ** Package monitor (internal/monitor) *)

Module monitor.

Import webhook.
Local Open Scope go_scope.

Record CertificateMonitor := mkCertificateMonitor {
  config : config.Config;
  notifier : webhook.Notifier;
  notifiedCerts : gmap string time.Time
}.

Inductive error :=
| GetCertificatesFailed (msg : string)     (* failed to get certificates: %w *)
| SendExpiredFailed (err : webhook.error)  (* failed to send expired notification: %w *)
| SendExpiringFailed (err : webhook.error). (* failed to send expiring notification: %w *)

(** How [Run] ends: it returns nil once the context is cancelled, or
    the goroutine panics. *)
Inductive RunEnd :=
| Returned
| Panicked (msg : string).

(** The cert-manager clientset: list the certificates of a namespace,
    of all namespaces when the name is empty (metav1.NamespaceAll). *)
Class Client (World : Type) := mkClient {
  List : string -> World -> result (list certmanagerv1.Certificate) string * World
}.

Definition NewCertificateMonitor (cfg : config.Config) (notifier : webhook.Notifier)
  : CertificateMonitor :=
  {| config := cfg; notifier := notifier; notifiedCerts := ∅ |}.

Definition isCertificateExpired (m : CertificateMonitor)
    (cert : certmanagerv1.Certificate) (now : time.Time) : bool :=
  match certmanagerv1.Status_NotAfter cert with
  | None => false
  | Some NotAfter => time.After now NotAfter
  end.

Definition isCertificateExpiring (m : CertificateMonitor)
    (cert : certmanagerv1.Certificate) (now : time.Time) : bool :=
  match certmanagerv1.Status_NotAfter cert with
  | None => false
  | Some NotAfter =>
      time.After (time.Add now (config.ExpirationThreshold (config m))) NotAfter
  end.

Definition shouldNotifyExpired (m : CertificateMonitor) (certKey : string)
    (now : time.Time) : bool :=
  match notifiedCerts m !! certKey with
  | None => true
  | Some lastNotified => 24 * time.Hour <=? time.Sub now lastNotified
  end.

Definition shouldNotifyExpiring (m : CertificateMonitor) (certKey : string)
    (now : time.Time) : bool :=
  match notifiedCerts m !! certKey with
  | None => true
  | Some lastNotified => 24 * time.Hour <=? time.Sub now lastNotified
  end.

Definition markNotified (m : CertificateMonitor) (certKey : string) (now : time.Time)
  : CertificateMonitor :=
  {| config := config m; notifier := notifier m;
     notifiedCerts := <[certKey := now]> (notifiedCerts m) |}.

(** The receiver plays no part in [getIssuerName]. *)
Definition getIssuerName (cert : certmanagerv1.Certificate) : string :=
  if decide (certmanagerv1.Spec_IssuerRef_Name cert ≠ "")
  then certmanagerv1.Spec_IssuerRef_Name cert
  else "unknown".

(** [fmt.Sprintf("%s/%s", cert.Namespace, cert.Name)] *)
Definition certKeyOf (cert : certmanagerv1.Certificate) : string :=
  certmanagerv1.Namespace cert +:+ "/" +:+ certmanagerv1.Name cert.

Section Monitor.

Context {World : Type} `{Platform World} `{Client World}.

(** The monitor is a pointer receiver in Go; here the monitor after
    the call is returned next to the error. *)
Definition checkCertificate (m : CertificateMonitor)
    (cert : certmanagerv1.Certificate) (now : time.Time)
  : M World (CertificateMonitor * option error) :=
  match certmanagerv1.Status_NotAfter cert with
  | None => ret (m, None)
  | Some expirationTime =>
      let certKey := certKeyOf cert in
      if isCertificateExpired m cert now then
        if negb (shouldNotifyExpired m certKey now) then ret (m, None)
        else
          r <- SendExpiredNotification (notifier m)
                 (certmanagerv1.Name cert) (certmanagerv1.Namespace cert)
                 (getIssuerName cert) (certmanagerv1.Spec_DNSNames cert)
                 expirationTime ;;
          match r with
          | Some err => ret (m, Some (SendExpiredFailed err))
          | None => ret (markNotified m certKey now, None)
          end
      else if isCertificateExpiring m cert now then
        if negb (shouldNotifyExpiring m certKey now) then ret (m, None)
        else
          (* daysUntilExpiry, read off the clock for the log line only *)
          remaining <- timeUntil expirationTime ;;
          let daysUntilExpiry := daysUntil remaining in
          r <- SendExpiringNotification (notifier m)
                 (certmanagerv1.Name cert) (certmanagerv1.Namespace cert)
                 (getIssuerName cert) (certmanagerv1.Spec_DNSNames cert)
                 expirationTime ;;
          match r with
          | Some err => ret (m, Some (SendExpiringFailed err))
          | None => ret (markNotified m certKey now, None)
          end
      else ret (m, None)
  end.

Definition getCertificates (m : CertificateMonitor)
  : M World (result (list certmanagerv1.Certificate) string) :=
  fun s =>
    let ns := if decide (config.Namespace (config m) ≠ "")
              then config.Namespace (config m) else "" in
    let (r, w) := List ns (world s) in
    (r, mkRunState w (notifications s) (attempts s)).

(** The loop over [certificates.Items]; a failed check is logged and
    the loop goes on with the next certificate.  The two counters end
    up in a log line. *)
Fixpoint checkLoop (m : CertificateMonitor) (items : list certmanagerv1.Certificate)
    (now : time.Time) (expiredCount expiringCount : Z)
  : M World (CertificateMonitor * (Z * Z)) :=
  match items with
  | [] => ret (m, (expiredCount, expiringCount))
  | cert :: rest =>
      r <- checkCertificate m cert now ;;
      let (m', err) := r in
      match err with
      | Some _ => checkLoop m' rest now expiredCount expiringCount
      | None =>
          if isCertificateExpired m' cert now
          then checkLoop m' rest now (expiredCount + 1) expiringCount
          else if isCertificateExpiring m' cert now
          then checkLoop m' rest now expiredCount (expiringCount + 1)
          else checkLoop m' rest now expiredCount expiringCount
      end
  end.

(** One tick. *)
Definition checkCertificates (m : CertificateMonitor)
  : M World (CertificateMonitor * option error) :=
  certificates <- getCertificates m ;;
  match certificates with
  | Err msg => ret (m, Some (GetCertificatesFailed msg))
  | Ok items =>
      now <- timeNow ;;
      r <- checkLoop m items now 0 0 ;;
      ret (fst r, None)
  end.

(** The ticker fires [ticks] times before the context is cancelled. *)
Fixpoint tickLoop (ticks : nat) (m : CertificateMonitor) : M World CertificateMonitor :=
  match ticks with
  | O => ret m
  | S ticks' =>
      r <- checkCertificates m ;;
      tickLoop ticks' (fst r)
  end.

(** [Run]: the initial check, then the ticker of [CheckInterval], then
    one check per tick; an error of a check is logged and the loop goes
    on.  The monitor is returned as [Run] leaves it, next to the way
    [Run] ended: [time.NewTicker] panics on an interval that is not
    positive, after the initial check and before any tick. *)
Definition Run (m : CertificateMonitor) (ticks : nat)
  : M World (CertificateMonitor * RunEnd) :=
  r <- checkCertificates m ;;
  match time.NewTicker (config.CheckInterval (config m)) with
  | None => ret (fst r, Panicked "non-positive interval for NewTicker")
  | Some ticker =>
      m' <- tickLoop ticks (fst r) ;;
      ret (m', Returned)
  end.

End Monitor.

End monitor.

(** ** A simulated platform, to run the code on concrete inputs *)

Module sim.

(** The clock shows [clock] and moves on by [tick] at every reading;
    [replies] are the outcomes of the coming HTTP exchanges, in order
    (a refused connection once they run out); [cluster] is what the
    API server lists. *)
Record World := mkWorld {
  clock : time.Time;
  tick : time.Duration;
  replies : list webhook.HttpOutcome;
  cluster : list certmanagerv1.Certificate
}.

#[global] Instance platform : webhook.Platform World := {|
  webhook.Now w :=
    (clock w, mkWorld (clock w + tick w) (tick w) (replies w) (cluster w));
  webhook.Marshal p := Ok (webhook.Type_ p +:+ ": " +:+ webhook.Message p);
  webhook.Do _ _ w :=
    match replies w with
    | [] => (webhook.TransportFailed "connection refused", w)
    | r :: rs => (r, mkWorld (clock w) (tick w) rs (cluster w))
    end
|}.

#[global] Instance client : monitor.Client World := {|
  monitor.List ns w :=
    (Ok (filter (fun c => ns = "" \/ certmanagerv1.Namespace c = ns) (cluster w)), w)
|}.

Definition start (w : World) : webhook.RunState World :=
  webhook.mkRunState w [] [].

(** 2024-01-01T00:00:00Z *)
Definition newYear : time.Time := 1704067200 * time.Second.

Definition hook (n : Z) : config.WebhookConfig :=
  {| config.Name := "webhook-" +:+ strings.itoa n;
     config.URL := "https://hooks.example.com/" +:+ strings.itoa n;
     config.Headers := ∅;
     config.Timeout := 30 * time.Second |}.

Definition cfg (hooks : list config.WebhookConfig) : config.Config :=
  {| config.Webhooks := hooks;
     config.CheckInterval := 24 * time.Hour;
     config.ExpirationThreshold := 30 * 24 * time.Hour;
     config.Namespace := "";
     config.HealthPort := 8080;
     config.LogLevel := "info" |}.

Definition mon (hooks : list config.WebhookConfig) : monitor.CertificateMonitor :=
  monitor.NewCertificateMonitor (cfg hooks) (webhook.NewNotifier hooks).

(** A certificate of the namespace default that expires [d] after
    [newYear]. *)
Definition cert (name issuer : string) (d : time.Duration) : certmanagerv1.Certificate :=
  {| certmanagerv1.Name := name;
     certmanagerv1.Namespace := "default";
     certmanagerv1.Spec_IssuerRef_Name := issuer;
     certmanagerv1.Spec_DNSNames := ["example.com"];
     certmanagerv1.Status_NotAfter := Some (newYear + d) |}.

(** A parser for the durations of the examples: a whole number of
    hours, minutes or seconds, as in 168h; anything else is an error.
    It stands in for [time.ParseDuration] where an example needs one. *)
Definition ParseDuration (s : string) : option time.Duration :=
  match rev (strings.bytes s) with
  | u :: ds =>
      match strconv.digits 0 (rev ds), ds with
      | Some n, _ :: _ =>
          if Ascii.eqb u "h" then Some (n * time.Hour)
          else if Ascii.eqb u "m" then Some (n * time.Minute)
          else if Ascii.eqb u "s" then Some (n * time.Second)
          else None
      | _, _ => None
      end
  | [] => None
  end.

(** An environment with two destinations around a blank entry and
    nothing but malformed values in the optional variables. *)
Definition malformedEnv : gmap string string :=
  <["WEBHOOK_URLS" := "https://a.example.com/hook, ,https://b.example.com/hook"]>
    (<["CHECK_INTERVAL" := "soon"]>
       (<["EXPIRATION_THRESHOLD" := "30d"]>
          (<["HEALTH_PORT" := "http"]>
             (<["WEBHOOK_3_TIMEOUT" := "fast"]> ∅)))).

End sim.

(** ** Vocabulary of the statements *)

(** The last failure among the attempts [l], [init] when there is none:
    what the variable [lastError] holds after them. *)
Definition lastFailure (init : option webhook.sendError) (l : list webhook.Attempt)
  : option webhook.sendError :=
  foldl (fun acc a => match webhook.outcome a with Some e => Some e | None => acc end)
        init l.

(** The number of attempts of [l] that succeeded. *)
Definition successes (l : list webhook.Attempt) : Z :=
  Z.of_nat (length (filter (fun a => webhook.outcome a = None) l)).

(** The exchanges with the destinations [ws], one after the other from
    the world [w] on, each carrying the body [json]: the outcome of
    every one of them, and the world after the last. *)
Fixpoint exchanges {World : Type} `{webhook.Platform World}
    (ws : list config.WebhookConfig) (json : string) (w : World)
  : list webhook.HttpOutcome * World :=
  match ws with
  | [] => ([], w)
  | wh :: rest =>
      let (out, w1) := webhook.Do wh json w in
      let (outs, w2) := exchanges rest json w1 in
      (out :: outs, w2)
  end.

(** An exchange reached its destination: a response came back with a
    status from 200 to 299. *)
Definition reached (out : webhook.HttpOutcome) : Prop :=
  exists code, out = webhook.Responded code /\ 200 <= code < 300.

(** The error that reports an exchange that did not. *)
Definition failure (out : webhook.HttpOutcome) : webhook.sendError :=
  match out with
  | webhook.RequestInvalid msg => webhook.CreateRequestFailed msg
  | webhook.TransportFailed msg => webhook.SendRequestFailed msg
  | webhook.Responded code => webhook.NonSuccessStatus code
  end.

(** The kind of notification one check of a certificate calls for. *)
Definition decision (m : monitor.CertificateMonitor) (cert : certmanagerv1.Certificate)
    (now : time.Time) : option string :=
  if monitor.isCertificateExpired m cert now then
    if monitor.shouldNotifyExpired m (monitor.certKeyOf cert) now
    then Some "expired" else None
  else if monitor.isCertificateExpiring m cert now then
    if monitor.shouldNotifyExpiring m (monitor.certKeyOf cert) now
    then Some "expiring" else None
  else None.

(** The destination-list source is absent, empty or all blank. *)
Definition blankSource (env : gmap string string) : Prop :=
  env !! "WEBHOOK_URLS" = None
  \/ env !! "WEBHOOK_URLS" = Some ""
  \/ exists urls, env !! "WEBHOOK_URLS" = Some urls
                  /\ Forall (fun url => strings.TrimSpace url = "")
                            (strings.Split urls ",").

(** Keys recorded in the first monitor are recorded in the second. *)
Definition keeps (m m' : monitor.CertificateMonitor) : Prop :=
  dom (monitor.notifiedCerts m) ⊆ dom (monitor.notifiedCerts m').

(** The day count of [h] whole hours, as the float64 arithmetic has it,
    is the integer quotient of [h] by 24. *)
Definition hoursAgree (h : Z) : bool :=
  time.int (PrimFloat.div (PrimFloat.add (time.float64 h) PrimFloat.zero)
                          (time.float64 24))
  =? Z.quot h 24.

(** [hoursAgree] on every whole number of hours below [n], of either
    sign: a counter runs from 0 to [n - 1]. *)
Definition wholeHoursAgree (n : positive) : bool :=
  snd (Pos.iter
         (fun st : Z * bool =>
            (fst st + 1, snd st && hoursAgree (fst st) && hoursAgree (- fst st)))
         (0, true) n).

(** ** Package health (internal/health) *)

Module health.

(** The package variable [healthy], an int64 that starts at 1; it is the
    state that the three functions below read or write. *)
Definition healthy : Z := 1.

Record HealthServer := mkHealthServer {
  port : Z
}.

Definition NewHealthServer (port : Z) : HealthServer := {| port := port |}.

(** The [Addr] of the server that [Start] builds, [fmt.Sprintf(":%d", h.port)]. *)
Definition Addr (h : HealthServer) : string := ":" +:+ strings.itoa (port h).

(** What a handler writes: the status of [WriteHeader] and the body. *)
Record Response := mkResponse {
  StatusCode : Z;
  Body : string
}.

Definition StatusOK : Z := 200.
Definition StatusServiceUnavailable : Z := 503.

Definition healthHandler (flag : Z) : Response :=
  if flag =? 1 then {| StatusCode := StatusOK; Body := "OK" |}
  else {| StatusCode := StatusServiceUnavailable; Body := "Service Unavailable" |}.

Definition readyHandler (flag : Z) : Response :=
  if flag =? 1 then {| StatusCode := StatusOK; Body := "Ready" |}
  else {| StatusCode := StatusServiceUnavailable; Body := "Not Ready" |}.

Definition SetHealthy (status : bool) (flag : Z) : Z :=
  if status then 1 else 0.

(** What can happen to the flag during the life of the process: a call
    of [SetHealthy], or a request to one of the two paths of the mux. *)
Inductive Event :=
| CallSetHealthy (status : bool)
| GetHealth
| GetReady.

(** One event: the flag afterwards and the response, if one is written. *)
Definition step (flag : Z) (e : Event) : Z * option Response :=
  match e with
  | CallSetHealthy status => (SetHealthy status flag, None)
  | GetHealth => (flag, Some (healthHandler flag))
  | GetReady => (flag, Some (readyHandler flag))
  end.

(** A sequence of events from a given flag: the flag at the end and the
    responses written, in order. *)
Fixpoint serve (flag : Z) (events : list Event) : Z * list Response :=
  match events with
  | [] => (flag, [])
  | e :: rest =>
      let (flag', r) := step flag e in
      let (final, rs) := serve flag' rest in
      (final, match r with Some resp => resp :: rs | None => rs end)
  end.

End health.

(** ** A platform that can fail where the simulated one cannot *)

Module faulty.

(** The simulated world, an API server that answers [apiError] when
    that is set, and an encoder that refuses an instant outside the
    years 0 to 9999 as [Time.MarshalJSON] does. *)
Record World := mkWorld {
  inner : sim.World;
  apiError : option string
}.

(** 0000-01-01T00:00:00Z and 10000-01-01T00:00:00Z *)
Definition yearZero : time.Time := - 62167219200 * time.Second.
Definition yearTenThousand : time.Time := 253402300800 * time.Second.

Definition encodable (t : time.Time) : bool :=
  (yearZero <=? t) && (t <? yearTenThousand).

#[global] Instance platform : webhook.Platform World := {|
  webhook.Now w :=
    let (t, i) := webhook.Now (inner w) in (t, mkWorld i (apiError w));
  webhook.Marshal p :=
    if encodable (webhook.ExpiresAt (webhook.Certificate p))
       && encodable (webhook.Timestamp p)
    then webhook.Marshal (World := sim.World) p
    else Err "Time.MarshalJSON: year outside of range [0,9999]";
  webhook.Do wh body w :=
    let (out, i) := webhook.Do wh body (inner w) in (out, mkWorld i (apiError w))
|}.

#[global] Instance client : monitor.Client World := {|
  monitor.List ns w :=
    match apiError w with
    | Some msg => (Err msg, w)
    | None =>
        let (r, i) := monitor.List ns (inner w) in (r, mkWorld i (apiError w))
    end
|}.

Definition start (w : World) : webhook.RunState World :=
  webhook.mkRunState w [] [].

End faulty.

(** ** Inputs of the examples *)

Module examples.

(** A monitor with one destination that recorded default/web at the
    new year. *)
Definition notified : monitor.CertificateMonitor :=
  monitor.markNotified (sim.mon [sim.hook 1]) "default/web" sim.newYear.

(** A world whose destinations answer [replies], with an empty cluster. *)
Definition answering (replies : list webhook.HttpOutcome)
  : webhook.RunState sim.World :=
  sim.start (sim.mkWorld sim.newYear 0 replies []).

(** A cluster of two certificates, one expired for an hour and one with
    ten days left, and destinations that answer 200. *)
Definition cluster : webhook.RunState sim.World :=
  sim.start (sim.mkWorld sim.newYear 0
               [webhook.Responded 200; webhook.Responded 200]
               [sim.cert "web" "letsencrypt" (- time.Hour);
                sim.cert "api" "letsencrypt" (240 * time.Hour)]).

(** The same cluster behind an API server that refuses the listing. *)
Definition outage : webhook.RunState faulty.World :=
  faulty.start (faulty.mkWorld (webhook.world cluster) (Some "connection refused")).

(** An expired notification for a certificate of the year 10000. *)
Definition unencodable : webhook.NotificationPayload :=
  {| webhook.Type_ := "expired";
     webhook.Message := "Certificate default/web has expired";
     webhook.Certificate :=
       {| webhook.Name := "web"; webhook.Namespace := "default";
          webhook.Issuer := "letsencrypt"; webhook.DNSNames := ["example.com"];
          webhook.ExpiresAt := faulty.yearTenThousand |};
     webhook.Timestamp := sim.newYear |}.

(** An environment with two destinations around a blank entry, headers
    and a timeout for the third entry, and well-formed optional values. *)
Definition env : gmap string string :=
  <["WEBHOOK_URLS" := " https://a.example.com/hook ,, https://b.example.com/hook"]>
    (<["WEBHOOK_3_HEADERS" := "Authorization: Bearer a:b, X-Team : ops"]>
       (<["WEBHOOK_3_TIMEOUT" := "5s"]>
          (<["CHECK_INTERVAL" := "1h"]>
             (<["EXPIRATION_THRESHOLD" := "168h"]>
                (<["NAMESPACE" := "prod"]>
                   (<["HEALTH_PORT" := "9090"]>
                      (<["LOG_LEVEL" := "debug"]> ∅))))))).

(** What [Load] makes of it. *)
Definition loaded : config.Config :=
  match config.Load sim.ParseDuration env with
  | Ok cfg => cfg
  | Err _ => sim.cfg []
  end.

End examples.

(** ** Vocabulary of the further statements *)

(** The entries of the destination list with their indices, from [i] on. *)
Fixpoint entriesFrom (i : Z) (urlList : list string) : list (Z * string) :=
  match urlList with
  | [] => []
  | url :: rest => (i, url) :: entriesFrom (i + 1) rest
  end.

(** What one entry of the destination list loads: nothing when it is
    blank, else the webhook of its index and trimmed address. *)
Definition loadEntry (ParseDuration : string -> option time.Duration)
    (env : gmap string string) (entry : Z * string) : option config.WebhookConfig :=
  if decide (strings.TrimSpace (snd entry) = "") then None
  else Some (config.loadWebhook ParseDuration env (fst entry)
                                (strings.TrimSpace (snd entry))).

(** The name that [loadWebhooks] gives to the entry at index [i]. *)
Definition webhookName (i : Z) : string := "webhook-" +:+ strings.itoa (i + 1).

(** The status of the last [SetHealthy] among the events, [None]
    when there is none. *)
Definition lastStatus (events : list health.Event) : option bool :=
  foldl (fun acc e => match e with
                      | health.CallSetHealthy status => Some status
                      | _ => acc
                      end) None events.

(** * Proofs *)

(** ** The clock arithmetic *)

Lemma Sub_ge (t u : time.Time) (d : time.Duration) :
  time.minDuration < d <= time.maxDuration ->
  (d <=? time.Sub t u) = (d <=? t - u).
Proof.
  intros [Hlo Hhi]. unfold time.Sub.
  destruct (Z.ltb_spec (t - u) time.minDuration) as [Hmin | Hmin].
  - destruct (Z.leb_spec d time.minDuration), (Z.leb_spec d (t - u));
      try reflexivity; lia.
  - destruct (Z.ltb_spec time.maxDuration (t - u)) as [Hmax | Hmax]; [| reflexivity].
    destruct (Z.leb_spec d time.maxDuration), (Z.leb_spec d (t - u));
      try reflexivity; lia.
Qed.

Lemma day_in_range : time.minDuration < 24 * time.Hour <= time.maxDuration.
Proof. vm_compute. split; [reflexivity | discriminate]. Qed.

(** ** The notified-state table *)

Lemma shouldNotify_same (m : monitor.CertificateMonitor) (key : string) (now : time.Time) :
  monitor.shouldNotifyExpiring m key now = monitor.shouldNotifyExpired m key now.
Proof. reflexivity. Qed.

Lemma shouldNotifyExpired_spec (m : monitor.CertificateMonitor) (key : string)
    (now : time.Time) :
  monitor.shouldNotifyExpired m key now = true
  <-> monitor.notifiedCerts m !! key = None
      \/ exists T, monitor.notifiedCerts m !! key = Some T /\ 24 * time.Hour <= now - T.
Proof.
  unfold monitor.shouldNotifyExpired.
  destruct (monitor.notifiedCerts m !! key) as [T |] eqn:Hk.
  - rewrite (Sub_ge _ _ _ day_in_range), Z.leb_le. split.
    + intros Hge. right. exists T. split; [reflexivity | exact Hge].
    + intros [Hnone | (T' & HT' & Hge)]; [discriminate | congruence].
  - split; [left | ]; reflexivity.
Qed.

Lemma markNotified_lookup (m : monitor.CertificateMonitor) (key : string) (T : time.Time) :
  monitor.notifiedCerts (monitor.markNotified m key T) !! key = Some T.
Proof. simpl. apply lookup_insert_eq. Qed.

Lemma markNotified_other (m : monitor.CertificateMonitor) (key key' : string)
    (T : time.Time) :
  key <> key' ->
  monitor.notifiedCerts (monitor.markNotified m key T) !! key'
  = monitor.notifiedCerts m !! key'.
Proof. intros Hne. simpl. apply lookup_insert_ne, Hne. Qed.

(** C3: the two de-duplication checks are one predicate; it holds exactly
    when the key has no record or the record is at least 24 hours old;
    and after a record written at [T], the check fails at [T + 23h59m]
    and passes at [T + 24h]. *)
Theorem cooldown_is_24h (m : monitor.CertificateMonitor) (key : string)
    (now T : time.Time) :
  monitor.shouldNotifyExpiring m key now = monitor.shouldNotifyExpired m key now
  /\ (monitor.shouldNotifyExpired m key now = true
      <-> monitor.notifiedCerts m !! key = None
          \/ exists T0, monitor.notifiedCerts m !! key = Some T0
                        /\ 24 * time.Hour <= now - T0)
  /\ monitor.shouldNotifyExpired (monitor.markNotified m key T) key
       (time.Add T (23 * time.Hour + 59 * time.Minute)) = false
  /\ monitor.shouldNotifyExpiring (monitor.markNotified m key T) key
       (time.Add T (23 * time.Hour + 59 * time.Minute)) = false
  /\ monitor.shouldNotifyExpired (monitor.markNotified m key T) key
       (time.Add T (24 * time.Hour)) = true
  /\ monitor.shouldNotifyExpiring (monitor.markNotified m key T) key
       (time.Add T (24 * time.Hour)) = true.
Proof.
  split; [apply shouldNotify_same |].
  split; [apply shouldNotifyExpired_spec |].
  unfold monitor.shouldNotifyExpiring, monitor.shouldNotifyExpired.
  rewrite !markNotified_lookup.
  rewrite !(Sub_ge _ _ _ day_in_range). unfold time.Add.
  rewrite !Z.add_simpl_l.
  repeat split; reflexivity.
Qed.

(** ** Delivery fan-out *)

Lemma successes_snoc (l : list webhook.Attempt) (a : webhook.Attempt) :
  successes (l ++ [a])
  = successes l + match webhook.outcome a with None => 1 | Some _ => 0 end.
Proof.
  unfold successes. rewrite filter_app, length_app, Nat2Z.inj_add. f_equal.
  rewrite filter_cons, filter_nil.
  destruct (webhook.outcome a); case_decide; done.
Qed.

Lemma successes_cons (a : webhook.Attempt) (l : list webhook.Attempt) :
  successes (a :: l)
  = match webhook.outcome a with None => 1 | Some _ => 0 end + successes l.
Proof.
  unfold successes. rewrite filter_cons.
  destruct (webhook.outcome a); case_decide; try congruence; simpl length; lia.
Qed.

Lemma successes_nonneg (l : list webhook.Attempt) : 0 <= successes l.
Proof. unfold successes. lia. Qed.

Lemma successes_zero (l : list webhook.Attempt) :
  successes l = 0 <-> Forall (fun a => webhook.outcome a <> None) l.
Proof.
  induction l as [| a l IH].
  - split; [constructor | reflexivity].
  - rewrite successes_cons, Forall_cons. pose proof (successes_nonneg l).
    destruct (webhook.outcome a) eqn:Ha.
    + rewrite Z.add_0_l, IH. split; [intros Hl; split; [discriminate | exact Hl] | tauto].
    + split; [lia | intros [Hne _]; congruence].
Qed.

Lemma successes_pos (l : list webhook.Attempt) :
  successes l <> 0 <-> exists a, a ∈ l /\ webhook.outcome a = None.
Proof.
  induction l as [| a l IH].
  - split; [intros Hne; contradiction Hne; reflexivity |].
    intros (a & Hin & _). inversion Hin.
  - rewrite successes_cons. pose proof (successes_nonneg l).
    destruct (webhook.outcome a) eqn:Ha.
    + rewrite Z.add_0_l, IH. split.
      * intros (b & Hin & Hb). exists b. split; [right; exact Hin | exact Hb].
      * intros (b & Hin & Hb). apply elem_of_cons in Hin as [-> | Hin]; [congruence |].
        exists b. split; assumption.
    + split; [| lia]. intros _. exists a. split; [left | exact Ha].
Qed.

Lemma lastFailure_all_failed (l : list webhook.Attempt) :
  Forall (fun a => webhook.outcome a <> None) l ->
  lastFailure None l = mjoin (last (webhook.outcome <$> l)).
Proof.
  induction l as [| a l IH] using rev_ind; intros Hall; [reflexivity |].
  apply Forall_app in Hall as [_ Ha]. rewrite Forall_singleton in Ha.
  unfold lastFailure. rewrite foldl_app, fmap_app. simpl. rewrite last_snoc. simpl.
  destruct (webhook.outcome a); [reflexivity | congruence].
Qed.

Section Delivery.

Context {World : Type} `{webhook.Platform World}.

Lemma timeNow_run (s : webhook.RunState World) :
  webhook.timeNow s
  = (fst (webhook.Now (webhook.world s)),
     webhook.mkRunState (snd (webhook.Now (webhook.world s)))
                        (webhook.notifications s) (webhook.attempts s)).
Proof. unfold webhook.timeNow. destruct (webhook.Now (webhook.world s)). reflexivity. Qed.

Lemma sendToWebhook_run (wh : config.WebhookConfig) (json : string)
    (s : webhook.RunState World) :
  let r := webhook.sendToWebhook wh json s in
  webhook.notifications (snd r) = webhook.notifications s
  /\ webhook.attempts (snd r)
     = webhook.attempts s ++ [webhook.mkAttempt wh json (fst r)].
Proof.
  unfold webhook.sendToWebhook.
  destruct (webhook.Do wh json (webhook.world s)) as [out w]. simpl. auto.
Qed.

(** The loop tries the webhooks one after the other, whatever the
    earlier outcomes, and its two variables end up as the last failure
    and the number of successes. *)
Lemma sendLoop_run (ws : list config.WebhookConfig) (json : string) :
  forall (lastError : option webhook.sendError) (successCount : Z)
         (s : webhook.RunState World),
    let r := webhook.sendLoop ws json lastError successCount s in
    exists l : list webhook.Attempt,
      webhook.attempts (snd r) = webhook.attempts s ++ l
      /\ webhook.notifications (snd r) = webhook.notifications s
      /\ webhook.destination <$> l = ws
      /\ Forall (fun a => webhook.body a = json) l
      /\ fst r = (lastFailure lastError l, successCount + successes l).
Proof.
  induction ws as [| wh ws IH]; intros lastError successCount s; simpl.
  - exists []. rewrite app_nil_r, Z.add_0_r. repeat split. constructor.
  - unfold webhook.bind.
    pose proof (sendToWebhook_run wh json s) as Hone. simpl in Hone.
    destruct (webhook.sendToWebhook wh json s) as [o s1]. simpl in Hone.
    destruct Hone as [Hn1 Ha1].
    set (a := webhook.mkAttempt wh json o) in *.
    destruct o as [err |].
    + destruct (IH (Some err) successCount s1) as (l & Ha & Hn & Hd & Hb & Hr).
      exists (a :: l). rewrite Ha, Ha1, Hn, Hn1, Hr, <- app_assoc, successes_cons.
      repeat split; [cbn; f_equal; exact Hd | constructor; [reflexivity | exact Hb] ].
    + destruct (IH lastError (successCount + 1) s1) as (l & Ha & Hn & Hd & Hb & Hr).
      exists (a :: l). rewrite Ha, Ha1, Hn, Hn1, Hr, <- app_assoc, successes_cons.
      repeat split; [cbn; f_equal; exact Hd | constructor; [reflexivity | exact Hb] |].
      simpl. f_equal. lia.
Qed.

Lemma sendNotification_announces (n : webhook.Notifier)
    (payload : webhook.NotificationPayload) (s : webhook.RunState World) :
  webhook.notifications (snd (webhook.sendNotification n payload s))
  = webhook.notifications s ++ [payload].
Proof.
  unfold webhook.sendNotification, webhook.bind, webhook.announce.
  destruct (webhook.Marshal payload) as [json | msg]; [| reflexivity].
  match goal with
  | |- context [webhook.sendLoop ?ws ?j ?le ?sc ?s0] =>
      destruct (sendLoop_run ws j le sc s0) as (l & _ & Hn & _);
      destruct (webhook.sendLoop ws j le sc s0) as [[le' sc'] s1]
  end.
  simpl in Hn. destruct (sc' =? 0); simpl; exact Hn.
Qed.

Lemma sendNotification_run (n : webhook.Notifier)
    (payload : webhook.NotificationPayload) (json : string)
    (s : webhook.RunState World) :
  webhook.Marshal payload = Ok json ->
  let r := webhook.sendNotification n payload s in
  exists l : list webhook.Attempt,
    webhook.attempts (snd r) = webhook.attempts s ++ l
    /\ webhook.destination <$> l = webhook.webhooks n
    /\ Forall (fun a => webhook.body a = json) l
    /\ fst r = if successes l =? 0
               then Some (webhook.NoWebhookSucceeded (lastFailure None l))
               else None.
Proof.
  intros Hjson. unfold webhook.sendNotification, webhook.bind, webhook.announce.
  rewrite Hjson.
  match goal with
  | |- context [webhook.sendLoop ?ws ?j ?le ?sc ?s0] =>
      destruct (sendLoop_run ws j le sc s0) as (l & Ha & _ & Hd & Hb & Hr);
      destruct (webhook.sendLoop ws j le sc s0) as [[le' sc'] s1]
  end.
  simpl in Ha, Hr. injection Hr as -> ->. exists l.
  rewrite Z.add_0_l. destruct (successes l =? 0); simpl; auto.
Qed.

(** One attempt is one exchange: the state after [sendToWebhook] is the
    world after [Do], and its verdict is read off the outcome of [Do]. *)
Lemma sendToWebhook_exchange (wh : config.WebhookConfig) (json : string)
    (s : webhook.RunState World) :
  let r := webhook.sendToWebhook wh json s in
  let out := fst (webhook.Do wh json (webhook.world s)) in
  webhook.world (snd r) = snd (webhook.Do wh json (webhook.world s))
  /\ (fst r = None <-> reached out)
  /\ (fst r <> None -> fst r = Some (failure out)).
Proof.
  unfold webhook.sendToWebhook, reached.
  destruct (webhook.Do wh json (webhook.world s)) as [out w]. simpl.
  split; [reflexivity |].
  destruct out as [msg | msg | code]; simpl.
  - split; [split; [discriminate | intros (c & Hc & _); discriminate] | reflexivity].
  - split; [split; [discriminate | intros (c & Hc & _); discriminate] | reflexivity].
  - destruct (Z.ltb_spec code 200); simpl.
    + split; [split; [discriminate | intros (c & [= <-] & Hc); lia] | reflexivity].
    + destruct (Z.leb_spec 300 code); simpl.
      * split; [split; [discriminate | intros (c & [= <-] & Hc); lia] | reflexivity].
      * split; [split; [| reflexivity] | intros Hne; contradiction Hne; reflexivity].
        intros _. exists code. split; [reflexivity | lia].
Qed.

(** The attempts of the loop are the exchanges with its destinations. *)
Lemma sendLoop_exchanges (ws : list config.WebhookConfig) (json : string) :
  forall (lastError : option webhook.sendError) (successCount : Z)
         (s : webhook.RunState World),
    let r := webhook.sendLoop ws json lastError successCount s in
    exists l : list webhook.Attempt,
      webhook.attempts (snd r) = webhook.attempts s ++ l
      /\ webhook.world (snd r) = snd (exchanges ws json (webhook.world s))
      /\ Forall2 (fun a out =>
                    (webhook.outcome a = None <-> reached out)
                    /\ (webhook.outcome a <> None
                        -> webhook.outcome a = Some (failure out)))
                 l (fst (exchanges ws json (webhook.world s)))
      /\ fst r = (lastFailure lastError l, successCount + successes l).
Proof.
  induction ws as [| wh ws IH]; intros lastError successCount s; simpl.
  - exists []. rewrite app_nil_r, Z.add_0_r. repeat split. constructor.
  - unfold webhook.bind.
    pose proof (sendToWebhook_run wh json s) as Hone.
    pose proof (sendToWebhook_exchange wh json s) as Hex.
    simpl in Hone, Hex.
    destruct (webhook.sendToWebhook wh json s) as [o s1]. simpl in Hone, Hex.
    destruct Hone as [_ Ha1]. destruct Hex as (Hw1 & Hreach & Hfail).
    destruct (webhook.Do wh json (webhook.world s)) as [out w1]. simpl in *.
    subst w1.
    set (a := webhook.mkAttempt wh json o) in *.
    assert (Hrel : (webhook.outcome a = None <-> reached out)
                   /\ (webhook.outcome a <> None
                       -> webhook.outcome a = Some (failure out)))
      by (split; assumption).
    destruct o as [err |].
    + destruct (IH (Some err) successCount s1) as (l & Ha & Hw & Hrels & Hr).
      destruct (exchanges ws json (webhook.world s1)) as [outs w2]. simpl in *.
      exists (a :: l). rewrite Ha, Ha1, Hr, <- app_assoc, successes_cons.
      repeat split; [exact Hw | constructor; [exact Hrel | exact Hrels] ].
    + destruct (IH lastError (successCount + 1) s1) as (l & Ha & Hw & Hrels & Hr).
      destruct (exchanges ws json (webhook.world s1)) as [outs w2]. simpl in *.
      exists (a :: l). rewrite Ha, Ha1, Hr, <- app_assoc, successes_cons.
      repeat split; [exact Hw | constructor; [exact Hrel | exact Hrels] |].
      simpl. f_equal. lia.
Qed.

Lemma exchanges_length (ws : list config.WebhookConfig) (json : string) :
  forall w : World, length (fst (exchanges ws json w)) = length ws.
Proof.
  induction ws as [| wh ws IH]; intros w; simpl; [reflexivity |].
  destruct (webhook.Do wh json w) as [out w1]. specialize (IH w1).
  destruct (exchanges ws json w1) as [outs w2]. simpl in *. congruence.
Qed.

(** Attempts that stand for exchanges succeed and fail with them. *)
Lemma attempts_follow_exchanges (l : list webhook.Attempt)
    (outs : list webhook.HttpOutcome) :
  Forall2 (fun a out =>
             (webhook.outcome a = None <-> reached out)
             /\ (webhook.outcome a <> None
                 -> webhook.outcome a = Some (failure out))) l outs ->
  (successes l <> 0 <-> Exists reached outs)
  /\ (Forall (fun out => ~ reached out) outs ->
      successes l = 0 /\ lastFailure None l = failure <$> last outs).
Proof.
  intros Hrel. split.
  - rewrite successes_pos. induction Hrel as [| a out l outs [Hr _] _ IH].
    + split; [intros (a & Hin & _); inversion Hin | intros Hex; inversion Hex].
    + rewrite Exists_cons, <- IH, <- Hr. split.
      * intros (b & Hin & Hb). apply elem_of_cons in Hin as [-> | Hin]; [left; exact Hb |].
        right. exists b. split; assumption.
      * intros [Ha | (b & Hin & Hb)]; [exists a; split; [left | exact Ha] |].
        exists b. split; [right; exact Hin | exact Hb].
  - intros Hall.
    assert (Hfailed : Forall (fun a => webhook.outcome a <> None) l).
    { clear -Hrel Hall. induction Hrel as [| a out l outs [Hr _] _ IH]; [constructor |].
      apply Forall_cons in Hall as [Hout Hall].
      constructor; [rewrite Hr; exact Hout | apply IH; exact Hall]. }
    split; [apply successes_zero; exact Hfailed |].
    rewrite (lastFailure_all_failed l Hfailed). clear Hall.
    induction Hrel as [| a out l outs [_ Hf] Hrel IH]; [reflexivity |].
    apply Forall_cons in Hfailed as [Ha Hfailed]. specialize (IH Hfailed).
    destruct Hrel as [| a' out' l' outs' _ Hrel'].
    + simpl. rewrite (Hf Ha). reflexivity.
    + exact IH.
Qed.

(** C4: an event that cannot be serialised fails with the encoder's
    error and reaches no destination.  For any other event there is one
    exchange with every configured destination, in order and whatever
    the earlier outcomes, each carrying the serialised event; the call
    succeeds exactly when one of the exchanges came back with a status
    from 200 to 299; and when none did, its error wraps the error of the
    last exchange. *)
Theorem fan_out_best_effort (n : webhook.Notifier)
    (payload : webhook.NotificationPayload) (s : webhook.RunState World) :
  let r := webhook.sendNotification n payload s in
  match webhook.Marshal payload with
  | Err msg =>
      fst r = Some (webhook.MarshalFailed msg)
      /\ webhook.world (snd r) = webhook.world s
      /\ webhook.attempts (snd r) = webhook.attempts s
  | Ok json =>
      let outs := fst (exchanges (webhook.webhooks n) json (webhook.world s)) in
      webhook.world (snd r)
      = snd (exchanges (webhook.webhooks n) json (webhook.world s))
      /\ length outs = length (webhook.webhooks n)
      /\ (exists l : list webhook.Attempt,
            webhook.attempts (snd r) = webhook.attempts s ++ l
            /\ webhook.destination <$> l = webhook.webhooks n
            /\ Forall (fun a => webhook.body a = json) l
            /\ Forall2 (fun a out => webhook.outcome a = None <-> reached out)
                       l outs)
      /\ (fst r = None <-> Exists reached outs)
      /\ (Forall (fun out => ~ reached out) outs ->
          fst r = Some (webhook.NoWebhookSucceeded (failure <$> last outs)))
  end.
Proof.
  intros r. subst r.
  unfold webhook.sendNotification, webhook.bind, webhook.announce.
  destruct (webhook.Marshal payload) as [json | msg]; [| simpl; auto].
  match goal with
  | |- context [webhook.sendLoop ?ws ?j ?le ?sc ?s0] =>
      destruct (sendLoop_run ws j le sc s0) as (l & Ha & _ & Hd & Hb & Hr);
      destruct (sendLoop_exchanges ws j le sc s0) as (l' & Ha' & Hw & Hrel & _);
      destruct (webhook.sendLoop ws j le sc s0) as [[le' sc'] s1]
  end.
  simpl in Ha, Hr, Ha', Hw, Hrel. rewrite Ha in Ha'. apply app_inv_head in Ha'.
  subst l'. injection Hr as -> ->. rewrite Z.add_0_l.
  destruct (attempts_follow_exchanges _ _ Hrel) as [Hsome Hnone].
  assert (Hend : forall (e : option webhook.error),
             webhook.world (snd ((if successes l =? 0 then webhook.ret e
                                  else webhook.ret None) s1)) = webhook.world s1
             /\ webhook.attempts (snd ((if successes l =? 0 then webhook.ret e
                                        else webhook.ret None) s1))
                = webhook.attempts s1)
    by (intros e; destruct (successes l =? 0); split; reflexivity).
  destruct (Hend (Some (webhook.NoWebhookSucceeded (lastFailure None l))))
    as [Hw2 Ha2].
  simpl. split; [rewrite Hw2; exact Hw |].
  split; [apply exchanges_length |].
  split.
  { exists l. rewrite Ha2. repeat split; try assumption.
    eapply Forall2_impl; [exact Hrel |]. intros a out [Hr _]. exact Hr. }
  split.
  - rewrite <- Hsome. destruct (Z.eqb_spec (successes l) 0) as [Hz | Hnz]; simpl.
    + split; [discriminate | intros Hne; contradiction].
    + split; [intros _; exact Hnz | reflexivity].
  - intros Hall. destruct (Hnone Hall) as [Hz Hlast]. rewrite Hz, Hlast. reflexivity.
Qed.

End Delivery.

(** ** The two notifications *)

Section Notifications.

Context {World : Type} `{webhook.Platform World}.

Lemma timeUntil_run (t : time.Time) (s : webhook.RunState World) :
  webhook.timeUntil t s
  = (time.Sub t (fst (webhook.Now (webhook.world s))),
     webhook.mkRunState (snd (webhook.Now (webhook.world s)))
                        (webhook.notifications s) (webhook.attempts s)).
Proof. unfold webhook.timeUntil, webhook.bind. rewrite timeNow_run. reflexivity. Qed.

Lemma SendExpiredNotification_run (n : webhook.Notifier)
    (certName namespace issuer : string) (dnsNames : list string)
    (expiresAt : time.Time) (s : webhook.RunState World) :
  webhook.notifications
    (snd (webhook.SendExpiredNotification n certName namespace issuer dnsNames
            expiresAt s))
  = webhook.notifications s
    ++ [ {| webhook.Type_ := "expired";
            webhook.Message :=
              "Certificate " +:+ namespace +:+ "/" +:+ certName +:+ " has expired";
            webhook.Certificate :=
              {| webhook.Name := certName; webhook.Namespace := namespace;
                 webhook.Issuer := issuer; webhook.DNSNames := dnsNames;
                 webhook.ExpiresAt := expiresAt |};
            webhook.Timestamp := fst (webhook.Now (webhook.world s)) |} ].
Proof.
  unfold webhook.SendExpiredNotification, webhook.bind. rewrite timeNow_run.
  rewrite sendNotification_announces. reflexivity.
Qed.

(** The number in the message is [daysUntil] of what the clock leaves
    until [expiresAt] when the notifier reads it. *)
Lemma SendExpiringNotification_run (n : webhook.Notifier)
    (certName namespace issuer : string) (dnsNames : list string)
    (expiresAt : time.Time) (s : webhook.RunState World) :
  webhook.notifications
    (snd (webhook.SendExpiringNotification n certName namespace issuer dnsNames
            expiresAt s))
  = webhook.notifications s
    ++ [ {| webhook.Type_ := "expiring";
            webhook.Message :=
              webhook.expiringMessage namespace certName
                (webhook.daysUntil
                   (time.Sub expiresAt (fst (webhook.Now (webhook.world s)))));
            webhook.Certificate :=
              {| webhook.Name := certName; webhook.Namespace := namespace;
                 webhook.Issuer := issuer; webhook.DNSNames := dnsNames;
                 webhook.ExpiresAt := expiresAt |};
            webhook.Timestamp :=
              fst (webhook.Now (snd (webhook.Now (webhook.world s)))) |} ].
Proof.
  unfold webhook.SendExpiringNotification, webhook.bind.
  rewrite timeUntil_run, timeNow_run. rewrite sendNotification_announces.
  reflexivity.
Qed.

End Notifications.

(** ** One check of one certificate *)

Section Checks.

Context {World : Type} `{webhook.Platform World} `{monitor.Client World}.

(** What a check announces and what it does to the monitor: the
    notification that [decision] calls for, if any, with the
    certificate's issuer name; the key is marked when that
    notification was delivered, and only then. *)
Lemma checkCertificate_run (m : monitor.CertificateMonitor)
    (cert : certmanagerv1.Certificate) (now : time.Time)
    (s : webhook.RunState World) :
  let r := monitor.checkCertificate m cert now s in
  exists l : list webhook.NotificationPayload,
    webhook.notifications (snd r) = webhook.notifications s ++ l
    /\ webhook.Type_ <$> l = option_list (decision m cert now)
    /\ Forall (fun p => webhook.Issuer (webhook.Certificate p)
                        = monitor.getIssuerName cert) l
    /\ fst (fst r)
       = match snd (fst r), decision m cert now with
         | None, Some _ => monitor.markNotified m (monitor.certKeyOf cert) now
         | _, _ => m
         end.
Proof.
  unfold monitor.checkCertificate, decision.
  destruct (certmanagerv1.Status_NotAfter cert) as [expirationTime |] eqn:Hexp.
  2: { unfold monitor.isCertificateExpired, monitor.isCertificateExpiring.
       rewrite Hexp. exists []. simpl. rewrite app_nil_r. auto. }
  destruct (monitor.isCertificateExpired m cert now).
  - destruct (monitor.shouldNotifyExpired m (monitor.certKeyOf cert) now); simpl.
    2: { exists []. rewrite app_nil_r. auto. }
    unfold webhook.bind.
    match goal with
    | |- context [webhook.SendExpiredNotification ?n ?a ?b ?c ?d ?e s] =>
        pose proof (SendExpiredNotification_run n a b c d e s) as Hn;
        destruct (webhook.SendExpiredNotification n a b c d e s) as [o s1]
    end.
    simpl in Hn. eexists. destruct o; simpl; (split; [exact Hn |]); auto.
  - destruct (monitor.isCertificateExpiring m cert now).
    2: { exists []. simpl. rewrite app_nil_r. auto. }
    destruct (monitor.shouldNotifyExpiring m (monitor.certKeyOf cert) now); simpl.
    2: { exists []. rewrite app_nil_r. auto. }
    unfold webhook.bind. rewrite timeUntil_run.
    match goal with
    | |- context [webhook.SendExpiringNotification ?n ?a ?b ?c ?d ?e ?s0] =>
        pose proof (SendExpiringNotification_run n a b c d e s0) as Hn;
        destruct (webhook.SendExpiringNotification n a b c d e s0) as [o s1]
    end.
    simpl in Hn. eexists. destruct o; simpl; (split; [exact Hn |]); auto.
Qed.

End Checks.

(** ** Classification, precedence and the issuer field *)

Section Classification.

Context {World : Type} `{webhook.Platform World} `{monitor.Client World}.

(** C6: a certificate without an expiry instant is neither expired nor
    expiring, and checking it changes nothing: no notification, no
    attempt, the same monitor, no error.  With an expiry instant it is
    expired exactly when now > expiry, and expiring exactly when
    now + threshold > expiry, for the configured threshold. *)
Theorem classification_by_expiry (m : monitor.CertificateMonitor)
    (name namespace issuer : string) (dnsNames : list string)
    (now expiry : time.Time) (s : webhook.RunState World) :
  let absent := certmanagerv1.mkCertificate name namespace issuer dnsNames None in
  let present :=
    certmanagerv1.mkCertificate name namespace issuer dnsNames (Some expiry) in
  monitor.isCertificateExpired m absent now = false
  /\ monitor.isCertificateExpiring m absent now = false
  /\ monitor.checkCertificate m absent now s = ((m, None), s)
  /\ (monitor.isCertificateExpired m present now = true <-> now > expiry)
  /\ (monitor.isCertificateExpiring m present now = true
      <-> now + config.ExpirationThreshold (monitor.config m) > expiry).
Proof.
  simpl. repeat split; try reflexivity;
    unfold monitor.isCertificateExpired, monitor.isCertificateExpiring,
      time.After, time.Add; simpl; rewrite ?Z.ltb_lt; lia.
Qed.

(** C2: a certificate whose expiry is behind now and inside the
    threshold window gets at most one notification from a check, and
    that one is of kind expired. *)
Theorem expired_takes_precedence (m : monitor.CertificateMonitor)
    (cert : certmanagerv1.Certificate) (now expiry : time.Time)
    (s : webhook.RunState World) :
  certmanagerv1.Status_NotAfter cert = Some expiry ->
  now > expiry ->
  now + config.ExpirationThreshold (monitor.config m) > expiry ->
  exists l : list webhook.NotificationPayload,
    webhook.notifications (snd (monitor.checkCertificate m cert now s))
    = webhook.notifications s ++ l
    /\ (length l <= 1)%nat
    /\ Forall (fun p => webhook.Type_ p = "expired") l
    /\ (l = [] <-> monitor.shouldNotifyExpired m (monitor.certKeyOf cert) now = false).
Proof.
  intros Hexp Hpast _.
  destruct (checkCertificate_run m cert now s) as (l & Hn & Hk & _).
  exists l. split; [exact Hn |].
  assert (Hd : decision m cert now
               = if monitor.shouldNotifyExpired m (monitor.certKeyOf cert) now
                 then Some "expired" else None).
  { unfold decision, monitor.isCertificateExpired, time.After. rewrite Hexp.
    replace (expiry <? now) with true by (symmetry; apply Z.ltb_lt; lia).
    reflexivity. }
  rewrite Hd in Hk.
  destruct (monitor.shouldNotifyExpired m (monitor.certKeyOf cert) now); simpl in Hk.
  - destruct l as [| p [| q l]]; try discriminate Hk. injection Hk as Hp.
    repeat split; [simpl; lia | repeat constructor; exact Hp | discriminate ..].
  - apply fmap_nil_inv in Hk. subst l.
    repeat split; [simpl; lia | constructor].
Qed.

(** C10: whatever a check announces, expired or expiring, carries in
    its issuer field the issuer reference name of the certificate, and
    the word unknown when that name is empty. *)
Theorem issuer_field_defaults_to_unknown (m : monitor.CertificateMonitor)
    (cert : certmanagerv1.Certificate) (now : time.Time)
    (s : webhook.RunState World) :
  exists l : list webhook.NotificationPayload,
    webhook.notifications (snd (monitor.checkCertificate m cert now s))
    = webhook.notifications s ++ l
    /\ webhook.Type_ <$> l = option_list (decision m cert now)
    /\ Forall (fun p => webhook.Issuer (webhook.Certificate p)
                        = if decide (certmanagerv1.Spec_IssuerRef_Name cert = "")
                          then "unknown"
                          else certmanagerv1.Spec_IssuerRef_Name cert) l.
Proof.
  destruct (checkCertificate_run m cert now s) as (l & Hn & Hk & Hi & _).
  exists l. repeat split; try assumption.
  eapply Forall_impl; [exact Hi |]. intros p ->. unfold monitor.getIssuerName.
  repeat case_decide; congruence.
Qed.

(** C1, as the code has it: a check that ends in an error (the
    delivery failed) leaves the monitor as it was.  The key is not
    recorded, so the failure neither starts nor resets the cooldown,
    and every later check decides as if the attempt had not been made. *)
Theorem failed_delivery_not_recorded (m : monitor.CertificateMonitor)
    (cert : certmanagerv1.Certificate) (now : time.Time)
    (s : webhook.RunState World) (err : monitor.error) :
  snd (fst (monitor.checkCertificate m cert now s)) = Some err ->
  fst (fst (monitor.checkCertificate m cert now s)) = m
  /\ monitor.notifiedCerts (fst (fst (monitor.checkCertificate m cert now s)))
     !! monitor.certKeyOf cert
     = monitor.notifiedCerts m !! monitor.certKeyOf cert
  /\ forall later : time.Time,
       decision (fst (fst (monitor.checkCertificate m cert now s))) cert later
       = decision m cert later.
Proof.
  intros Herr.
  destruct (checkCertificate_run m cert now s) as (l & _ & _ & _ & Hm).
  rewrite Herr in Hm. rewrite Hm. auto.
Qed.

End Classification.

(** ** The table only grows *)

Section Growth.

Context {World : Type} `{webhook.Platform World} `{monitor.Client World}.

Lemma keeps_refl (m : monitor.CertificateMonitor) : keeps m m.
Proof. unfold keeps. set_solver. Qed.

Lemma keeps_trans (m1 m2 m3 : monitor.CertificateMonitor) :
  keeps m1 m2 -> keeps m2 m3 -> keeps m1 m3.
Proof. unfold keeps. set_solver. Qed.

Lemma keeps_markNotified (m : monitor.CertificateMonitor) (key : string)
    (T : time.Time) :
  keeps m (monitor.markNotified m key T).
Proof. unfold keeps. simpl. rewrite dom_insert_L. set_solver. Qed.

Lemma checkCertificate_keeps (m : monitor.CertificateMonitor)
    (cert : certmanagerv1.Certificate) (now : time.Time)
    (s : webhook.RunState World) :
  keeps m (fst (fst (monitor.checkCertificate m cert now s))).
Proof.
  destruct (checkCertificate_run m cert now s) as (l & _ & _ & _ & Hm).
  rewrite Hm.
  destruct (snd (fst (monitor.checkCertificate m cert now s))),
    (decision m cert now); auto using keeps_refl, keeps_markNotified.
Qed.

Lemma checkLoop_keeps (items : list certmanagerv1.Certificate) (now : time.Time) :
  forall (m : monitor.CertificateMonitor) (expiredCount expiringCount : Z)
         (s : webhook.RunState World),
    keeps m (fst (fst (monitor.checkLoop m items now expiredCount expiringCount s))).
Proof.
  induction items as [| cert rest IH]; intros m expiredCount expiringCount s; simpl.
  - apply keeps_refl.
  - unfold webhook.bind.
    pose proof (checkCertificate_keeps m cert now s) as Hone.
    destruct (monitor.checkCertificate m cert now s) as [[m1 err] s1].
    simpl in Hone. eapply keeps_trans; [exact Hone |].
    destruct err; [apply IH |].
    destruct (monitor.isCertificateExpired m1 cert now); [apply IH |].
    destruct (monitor.isCertificateExpiring m1 cert now); apply IH.
Qed.

Lemma checkCertificates_keeps (m : monitor.CertificateMonitor)
    (s : webhook.RunState World) :
  keeps m (fst (fst (monitor.checkCertificates m s))).
Proof.
  unfold monitor.checkCertificates, webhook.bind.
  destruct (monitor.getCertificates m s) as [[items | msg] s1]; [| apply keeps_refl].
  rewrite timeNow_run.
  match goal with
  | |- context [monitor.checkLoop ?m0 ?i ?n ?a ?b ?s0] =>
      pose proof (checkLoop_keeps i n m0 a b s0) as Hloop;
      destruct (monitor.checkLoop m0 i n a b s0) as [[m1 counts] s2]
  end.
  exact Hloop.
Qed.

Lemma tickLoop_keeps (ticks : nat) :
  forall (m : monitor.CertificateMonitor) (s : webhook.RunState World),
    keeps m (fst (monitor.tickLoop ticks m s)).
Proof.
  induction ticks as [| ticks IH]; intros m s; simpl; [apply keeps_refl |].
  unfold webhook.bind.
  pose proof (checkCertificates_keeps m s) as Hone.
  destruct (monitor.checkCertificates m s) as [[m1 err] s1].
  eapply keeps_trans; [exact Hone | apply IH].
Qed.

(** C8: the table is a map, one instant per key.  Marking a key sets
    its instant, replaces the instant a previous marking left, and
    touches no other key; its key set afterwards is the old one with
    the key added.  No check, no tick and no run of the monitor drops
    a key. *)
Theorem table_overwrites_and_grows (m : monitor.CertificateMonitor)
    (key : string) (T0 T : time.Time)
    (cert : certmanagerv1.Certificate) (now : time.Time) (ticks : nat)
    (s : webhook.RunState World) :
  monitor.notifiedCerts (monitor.markNotified m key T) !! key = Some T
  /\ monitor.markNotified (monitor.markNotified m key T0) key T
     = monitor.markNotified m key T
  /\ delete key (monitor.notifiedCerts (monitor.markNotified m key T))
     = delete key (monitor.notifiedCerts m)
  /\ dom (monitor.notifiedCerts (monitor.markNotified m key T))
     = {[key]} ∪ dom (monitor.notifiedCerts m)
  /\ dom (monitor.notifiedCerts m)
     ⊆ dom (monitor.notifiedCerts
              (fst (fst (monitor.checkCertificate m cert now s))))
  /\ dom (monitor.notifiedCerts m)
     ⊆ dom (monitor.notifiedCerts (fst (fst (monitor.checkCertificates m s))))
  /\ dom (monitor.notifiedCerts m)
     ⊆ dom (monitor.notifiedCerts (fst (fst (monitor.Run m ticks s)))).
Proof.
  split; [apply markNotified_lookup |].
  split; [unfold monitor.markNotified; simpl; f_equal; apply insert_insert_eq |].
  split; [simpl; apply delete_insert_eq |].
  split; [simpl; apply dom_insert_L |].
  split; [apply checkCertificate_keeps |].
  split; [apply checkCertificates_keeps |].
  unfold monitor.Run, webhook.bind.
  pose proof (checkCertificates_keeps m s) as Hone.
  destruct (monitor.checkCertificates m s) as [[m1 err] s1].
  simpl in *. destruct (time.NewTicker _); [| exact Hone].
  pose proof (tickLoop_keeps ticks m1 s1) as Hticks.
  destruct (monitor.tickLoop ticks m1 s1) as [m2 s2].
  eapply keeps_trans; [exact Hone | exact Hticks].
Qed.

End Growth.

(** ** Loading the configuration *)

Section Configuration.

Variable ParseDuration : string -> option time.Duration.
Variable env : gmap string string.

Lemma loadLoop_nil (urlList : list string) :
  forall (i : Z) (webhooks : list config.WebhookConfig),
    config.loadLoop ParseDuration env i urlList webhooks = []
    <-> webhooks = [] /\ Forall (fun url => strings.TrimSpace url = "") urlList.
Proof.
  induction urlList as [| url rest IH]; intros i webhooks; simpl.
  - split; [intros ->; split; constructor | intros [-> _]; reflexivity].
  - rewrite Forall_cons. case_decide as Hblank; rewrite IH.
    + tauto.
    + split; [intros [Hnil _] | intros [_ [Hb _]]; contradiction].
      destruct webhooks; discriminate Hnil.
Qed.

(** Every loaded webhook is [loadWebhook] of its index and address. *)
Lemma loadLoop_elems (urlList : list string) :
  forall (i : Z) (webhooks : list config.WebhookConfig) (w : config.WebhookConfig),
    w ∈ config.loadLoop ParseDuration env i urlList webhooks ->
    w ∈ webhooks \/ exists j url, w = config.loadWebhook ParseDuration env j url.
Proof.
  induction urlList as [| url rest IH]; intros i webhooks w; simpl; [auto |].
  case_decide as Hblank; intros Hin; apply IH in Hin; [exact Hin |].
  destruct Hin as [Hin | Hin]; [| right; exact Hin].
  apply elem_of_app in Hin as [Hin | Hin]; [left; exact Hin | right].
  apply list_elem_of_singleton in Hin. eauto.
Qed.

Lemma Getenv_blank :
  blankSource env
  <-> os.Getenv env "WEBHOOK_URLS" = ""
      \/ Forall (fun url => strings.TrimSpace url = "")
                (strings.Split (os.Getenv env "WEBHOOK_URLS") ",").
Proof.
  unfold blankSource, os.Getenv.
  destruct (env !! "WEBHOOK_URLS") as [urls |]; simpl.
  - split.
    + intros [Hn | [Hs | (urls' & Hs & Hall)]]; [discriminate | left | right];
        congruence.
    + intros [-> | Hall]; [right; left; reflexivity |].
      right; right. exists urls. split; [reflexivity | exact Hall].
  - split; [left; reflexivity | left; reflexivity].
Qed.

Lemma loadWebhooks_spec :
  match config.loadWebhooks ParseDuration env with
  | Err err =>
      blankSource env
      /\ err = if decide (os.Getenv env "WEBHOOK_URLS" = "")
               then config.WebhookURLsRequired else config.NoValidWebhooks
  | Ok webhooks => ~ blankSource env /\ (1 <= length webhooks)%nat
  end.
Proof.
  unfold config.loadWebhooks. pose proof Getenv_blank as Hblank.
  case_decide as Hurls.
  { split; [apply Hblank; left; exact Hurls | reflexivity]. }
  case_decide as Hlen.
  - apply length_zero_iff_nil, loadLoop_nil in Hlen as [_ Hall].
    split; [apply Hblank; right; exact Hall | reflexivity].
  - split; [| lia]. intros Hb. apply Hblank in Hb as [Hb | Hb]; [contradiction |].
    apply Hlen, length_zero_iff_nil, loadLoop_nil. split; [reflexivity | exact Hb].
Qed.

(** [Load] fails only when [loadWebhooks] does; what it returns
    otherwise, field by field. *)
Lemma Load_spec :
  match config.loadWebhooks ParseDuration env with
  | Err err => config.Load ParseDuration env = Err (config.FailedToLoadWebhooks err)
  | Ok webhooks =>
      exists cfg,
        config.Load ParseDuration env = Ok cfg
        /\ config.Webhooks cfg = webhooks
        /\ config.CheckInterval cfg
           = (if decide (os.Getenv env "CHECK_INTERVAL" = "") then 24 * time.Hour
              else default (24 * time.Hour)
                           (ParseDuration (os.Getenv env "CHECK_INTERVAL")))
        /\ config.ExpirationThreshold cfg
           = (if decide (os.Getenv env "EXPIRATION_THRESHOLD" = "")
              then 30 * 24 * time.Hour
              else default (30 * 24 * time.Hour)
                           (ParseDuration (os.Getenv env "EXPIRATION_THRESHOLD")))
        /\ config.HealthPort cfg
           = (if decide (os.Getenv env "HEALTH_PORT" = "") then 8080
              else default 8080 (strconv.Atoi (os.Getenv env "HEALTH_PORT")))
  end.
Proof.
  unfold config.Load.
  destruct (config.loadWebhooks ParseDuration env) as [webhooks | err];
    [| reflexivity].
  eexists. split; [reflexivity |].
  unfold config.loadLogLevel, config.loadHealthPort, config.loadNamespace,
    config.loadExpirationThreshold, config.loadCheckInterval.
  cbv zeta.
  repeat case_decide;
    repeat match goal with
           | |- context [ParseDuration ?v] => destruct (ParseDuration v)
           | |- context [strconv.Atoi ?v] => destruct (strconv.Atoi v)
           end;
    repeat split; reflexivity.
Qed.

End Configuration.

(** ** The float64 arithmetic of the day count

    [PrimFloat] is specified by [SpecFloat]: a finite float is a sign,
    a mantissa and an exponent, and every operation computes an exact
    integer result that [binary_round_aux] rounds to nearest.  What
    follows bounds that rounding for the three operations of
    [int(d.Hours() / 24)]. *)

(** *** Binary digits *)

Lemma digits2_pos_bounds (p : positive) :
  2 ^ (Zpos (digits2_pos p) - 1) <= Zpos p < 2 ^ Zpos (digits2_pos p).
Proof.
  induction p as [p IH | p IH |]; simpl digits2_pos.
  - rewrite Pos2Z.inj_succ, Pos2Z.inj_xI.
    replace (Z.succ (Zpos (digits2_pos p)) - 1) with (Z.succ (Zpos (digits2_pos p) - 1)) by lia.
    rewrite !Z.pow_succ_r by lia.
    generalize dependent (2 ^ (Zpos (digits2_pos p) - 1)).
    generalize dependent (2 ^ Zpos (digits2_pos p)). intros; lia.
  - rewrite Pos2Z.inj_succ. change (Zpos p~0) with (2 * Zpos p).
    replace (Z.succ (Zpos (digits2_pos p)) - 1) with (Z.succ (Zpos (digits2_pos p) - 1)) by lia.
    rewrite !Z.pow_succ_r by lia.
    generalize dependent (2 ^ (Zpos (digits2_pos p) - 1)).
    generalize dependent (2 ^ Zpos (digits2_pos p)). intros; lia.
  - simpl. lia.
Qed.

Lemma digits2_pos_unique (p : positive) (d : Z) :
  2 ^ (d - 1) <= Zpos p < 2 ^ d -> Zpos (digits2_pos p) = d.
Proof.
  intros [Hlo Hhi]. pose proof (digits2_pos_bounds p) as [Blo Bhi].
  assert (0 < d).
  { destruct (Z.ltb_spec 0 d); [assumption |].
    exfalso. destruct (Z.eq_dec d 0) as [-> | Hne]; [simpl in Hhi; lia |].
    rewrite (Z.pow_neg_r 2 d) in Hhi by lia. lia. }
  assert (Zpos (digits2_pos p) - 1 < d).
  { apply (Z.pow_lt_mono_r_iff 2); lia. }
  assert (d - 1 < Zpos (digits2_pos p)).
  { apply (Z.pow_lt_mono_r_iff 2); lia. }
  lia.
Qed.

Lemma digits2_pos_le (p : positive) (a : Z) :
  0 <= a -> Zpos p < 2 ^ a -> Zpos (digits2_pos p) <= a.
Proof.
  intros Ha Hlt. pose proof (digits2_pos_bounds p) as [Blo _].
  assert (Zpos (digits2_pos p) - 1 < a) by (apply (Z.pow_lt_mono_r_iff 2); lia).
  lia.
Qed.

Lemma digits2_pos_gt (p : positive) (a : Z) :
  2 ^ a <= Zpos p -> a < Zpos (digits2_pos p).
Proof.
  intros Hle. pose proof (digits2_pos_bounds p) as [_ Bhi].
  apply (Z.pow_lt_mono_r_iff 2); lia.
Qed.

(** *** Shifting right *)

Lemma iter_pos_nat {A : Type} (f : A -> A) (p : positive) :
  forall x : A, SpecFloat.iter_pos f p x = Nat.iter (Pos.to_nat p) f x.
Proof.
  induction p as [p IH | p IH |]; intros x; simpl SpecFloat.iter_pos.
  - rewrite !IH, Pos2Nat.inj_xI.
    replace (S (2 * Pos.to_nat p)) with (Pos.to_nat p + (Pos.to_nat p + 1))%nat by lia.
    rewrite !Nat.iter_add. reflexivity.
  - rewrite !IH, Pos2Nat.inj_xO.
    replace (2 * Pos.to_nat p)%nat with (Pos.to_nat p + Pos.to_nat p)%nat by lia.
    rewrite Nat.iter_add. reflexivity.
  - reflexivity.
Qed.

Lemma shr_1_spec (mrs : shr_record) :
  0 <= shr_m mrs ->
  shr_m (shr_1 mrs) = shr_m mrs / 2 /\ shr_r (shr_1 mrs) = Z.odd (shr_m mrs).
Proof.
  destruct mrs as [m r s]. simpl. intros Hm. rewrite <- Z.div2_div.
  destruct m as [| [p | p |] | p]; try lia; split; reflexivity.
Qed.

Lemma shr_iter_spec (n : nat) (mrs : shr_record) :
  0 <= shr_m mrs ->
  shr_m (Nat.iter (S n) shr_1 mrs) = shr_m mrs / 2 ^ Z.of_nat (S n)
  /\ shr_r (Nat.iter (S n) shr_1 mrs) = Z.odd (shr_m mrs / 2 ^ Z.of_nat n).
Proof.
  intros Hm.
  assert (Hn : forall k : nat, shr_m (Nat.iter k shr_1 mrs) = shr_m mrs / 2 ^ Z.of_nat k).
  { induction k as [| k IH]; [simpl; rewrite Z.div_1_r; reflexivity |].
    cbn [Nat.iter nat_rect].
    destruct (shr_1_spec (Nat.iter k shr_1 mrs)) as [Hd _].
    - rewrite IH. apply Z.div_pos; lia.
    - unfold Nat.iter in *. rewrite Hd, IH, Z.div_div by lia.
      rewrite Nat2Z.inj_succ, Z.pow_succ_r by lia. f_equal. lia. }
  split; [apply Hn |].
  cbn [Nat.iter nat_rect].
  destruct (shr_1_spec (Nat.iter n shr_1 mrs)) as [_ Hr].
  - rewrite Hn. apply Z.div_pos; lia.
  - unfold Nat.iter in *. rewrite Hr, Hn. reflexivity.
Qed.

Lemma shr_spec (mrs : shr_record) (e k : Z) :
  0 <= shr_m mrs -> 0 <= k ->
  snd (shr mrs e k) = e + k
  /\ shr_m (fst (shr mrs e k)) = shr_m mrs / 2 ^ k
  /\ (1 <= k -> shr_r (fst (shr mrs e k)) = Z.odd (shr_m mrs / 2 ^ (k - 1)))
  /\ (k = 0 -> fst (shr mrs e k) = mrs).
Proof.
  intros Hm Hk. destruct k as [| p | p]; [| | lia].
  - simpl. rewrite Z.add_0_r, Z.div_1_r. repeat split; lia.
  - unfold shr. cbn [fst snd]. rewrite iter_pos_nat.
    destruct (Pos2Nat.is_succ p) as [n Hn]. rewrite Hn.
    destruct (shr_iter_spec n mrs Hm) as [Hd Hr].
    assert (Hp : Zpos p = Z.of_nat (S n)) by lia.
    rewrite Hd, Hr, Hp. repeat split; [| lia].
    intros _. do 2 f_equal. f_equal. lia.
Qed.

Lemma shr_record_of_loc_m (m : Z) (l : location) : shr_m (shr_record_of_loc m l) = m.
Proof. destruct l as [| []]; reflexivity. Qed.

Lemma loc_of_shr_record_of_loc (m : Z) (l : location) :
  loc_of_shr_record (shr_record_of_loc m l) = l.
Proof. destruct l as [| []]; reflexivity. Qed.

(** Rounding to nearest adds at most one, and only above a set round bit. *)
Lemma round_nearest_even_spec (mrs : shr_record) :
  let m := round_nearest_even (shr_m mrs) (loc_of_shr_record mrs) in
  m = shr_m mrs \/ (m = shr_m mrs + 1 /\ shr_r mrs = true).
Proof.
  destruct mrs as [m [|] [|]]; simpl; auto.
  destruct (Z.even m); auto.
Qed.

(** *** Rounding a mantissa of at least 53 bits *)

Lemma fexp_normal (x : Z) : -1074 <= x - 53 -> fexp prec emax x = x - 53.
Proof. unfold fexp, SpecFloat.emin, prec, emax. lia. Qed.

Lemma shr_fexp_spec (p : positive) (e : Z) (l : location) :
  let d := Zpos (digits2_pos p) in
  53 <= d -> -1074 <= d + e - 53 ->
  let k := d - 53 in
  snd (shr_fexp prec emax (Zpos p) e l) = e + k
  /\ shr_m (fst (shr_fexp prec emax (Zpos p) e l)) = Zpos p / 2 ^ k
  /\ (1 <= k -> shr_r (fst (shr_fexp prec emax (Zpos p) e l))
                = Z.odd (Zpos p / 2 ^ (k - 1)))
  /\ (k = 0 -> fst (shr_fexp prec emax (Zpos p) e l) = shr_record_of_loc (Zpos p) l).
Proof.
  intros d Hd He k. unfold shr_fexp. cbn [Zdigits2]. fold d.
  rewrite fexp_normal by exact He.
  replace (d + e - 53 - e) with k by (unfold k; lia).
  pose proof (shr_spec (shr_record_of_loc (Zpos p) l) e k) as Hs.
  rewrite shr_record_of_loc_m in Hs. apply Hs; unfold k; lia.
Qed.

Lemma pow2_split (a b : Z) : 0 <= a -> 0 <= b -> 2 ^ (a + b) = 2 ^ a * 2 ^ b.
Proof. intros. apply Z.pow_add_r; assumption. Qed.

Lemma pow2_pos (a : Z) : 0 <= a -> 0 < 2 ^ a.
Proof. intros. apply Z.pow_pos_nonneg; lia. Qed.

Lemma binary_round_aux_spec (s : bool) (p : positive) (ex : Z) (lx : location) :
  let d := Zpos (digits2_pos p) in
  53 <= d -> -1074 <= d + ex - 53 <= 970 ->
  let k := d - 53 in
  exists (m : positive) (j : Z),
    binary_round_aux prec emax s (Zpos p) ex lx = S754_finite s m (ex + k + j)
    /\ (j = 0 \/ j = 1)
    /\ 2 ^ 52 <= Zpos m < 2 ^ 53
    /\ Zpos p / 2 ^ k <= Zpos m * 2 ^ j <= Zpos p / 2 ^ k + 1
    /\ (1 <= k -> 2 * (Zpos m * 2 ^ j) * 2 ^ k <= 2 * Zpos p + 2 ^ k).
Proof.
  intros d Hd He k.
  destruct (shr_fexp_spec p ex lx Hd ltac:(lia)) as (Hsnd & Hm & Hr & _).
  fold d in Hsnd, Hm, Hr. fold k in Hsnd, Hm, Hr.
  unfold binary_round_aux.
  destruct (shr_fexp prec emax (Zpos p) ex lx) as [mrs' e'].
  cbn [fst snd] in Hsnd, Hm, Hr. subst e'.
  assert (Hk : 0 <= k) by (unfold k; lia).
  pose proof (pow2_pos k Hk) as Hpk.
  pose proof (digits2_pos_bounds p) as [Blo Bhi]. fold d in Blo, Bhi.
  assert (Hm52 : 2 ^ 52 <= shr_m mrs' < 2 ^ 53).
  { rewrite Hm. split.
    - apply Z.div_le_lower_bound; [exact Hpk |].
      rewrite <- pow2_split by lia. replace (k + 52) with (d - 1) by (unfold k; lia).
      exact Blo.
    - apply Z.div_lt_upper_bound; [exact Hpk |].
      rewrite <- pow2_split by lia. replace (k + 53) with d by (unfold k; lia).
      exact Bhi. }
  assert (Hfloor : shr_m mrs' * 2 ^ k <= Zpos p).
  { rewrite Hm, Z.mul_comm. apply Z.mul_div_le. exact Hpk. }
  assert (Hhalf : 1 <= k -> shr_r mrs' = true ->
                  2 * (shr_m mrs' + 1) * 2 ^ k <= 2 * Zpos p + 2 ^ k).
  { intros Hk1 Hrt. rewrite (Hr Hk1) in Hrt.
    assert (Hpk1 : 0 < 2 ^ (k - 1)) by (apply pow2_pos; lia).
    assert (Hdd : shr_m mrs' = Zpos p / 2 ^ (k - 1) / 2).
    { rewrite Hm, Z.div_div by lia. f_equal.
      rewrite Z.mul_comm, <- Z.pow_succ_r by lia. f_equal. lia. }
    pose proof (Z.div2_odd (Zpos p / 2 ^ (k - 1))) as Hodd.
    rewrite Hrt, Z.div2_div, <- Hdd in Hodd. cbn [Z.b2z] in Hodd.
    pose proof (Z.mul_div_le (Zpos p) (2 ^ (k - 1)) Hpk1) as Hle.
    rewrite Hodd in Hle.
    replace (2 ^ k) with (2 * 2 ^ (k - 1))
      by (rewrite <- Z.pow_succ_r by lia; f_equal; lia).
    generalize dependent (2 ^ (k - 1)). intros T. intros. nia. }
  pose proof (round_nearest_even_spec mrs') as Hround. cbv zeta in Hround.
  set (m2 := round_nearest_even (shr_m mrs') (loc_of_shr_record mrs')) in *.
  assert (Hm2 : shr_m mrs' <= m2 <= shr_m mrs' + 1) by lia.
  assert (Hm2half : 1 <= k -> 2 * m2 * 2 ^ k <= 2 * Zpos p + 2 ^ k).
  { intros Hk1. destruct Hround as [-> | [-> Hrt]]; [nia | apply Hhalf; assumption]. }
  clearbody m2. clear Hround Hhalf Hr.
  destruct (Z.ltb_spec m2 (2 ^ 53)) as [Hlt | Hge].
  - (* no carry *)
    destruct m2 as [| mm | mm]; try lia.
    assert (Hdig : Zpos (digits2_pos mm) = 53)
      by (apply digits2_pos_unique; change (53 - 1) with 52; lia).
    destruct (shr_fexp_spec mm (ex + k) loc_Exact) as (Hsnd2 & _ & _ & Hfst2);
      [rewrite Hdig; lia | rewrite Hdig; unfold k; lia |].
    rewrite Hdig in Hsnd2, Hfst2. change (53 - 53) with 0 in Hsnd2, Hfst2.
    destruct (shr_fexp prec emax (Zpos mm) (ex + k) loc_Exact) as [mrs2 e2].
    cbn [fst snd] in Hsnd2, Hfst2. rewrite (Hfst2 eq_refl). subst e2.
    cbn [shr_record_of_loc shr_m].
    replace (ex + k + 0 <=? emax - prec) with true
      by (symmetry; apply Z.leb_le; unfold emax, prec, k; lia).
    exists mm, 0. rewrite Z.mul_1_r. rewrite <- Hm.
    split; [reflexivity |]. split; [left; reflexivity |].
    split; [lia |]. split; [lia | exact Hm2half].
  - (* the carry gives the next power of two *)
    assert (Hm2eq : m2 = 2 ^ 53) by lia. subst m2.
    change (2 ^ 53) with (Zpos (2 ^ 53)%positive) at 1.
    destruct (shr_fexp_spec (2 ^ 53)%positive (ex + k) loc_Exact)
      as (Hsnd2 & Hm2' & _ & _);
      [vm_compute; discriminate | change (Zpos (digits2_pos (2 ^ 53))) with 54; unfold k; lia |].
    change (Zpos (digits2_pos (2 ^ 53))) with 54 in Hsnd2, Hm2'.
    destruct (shr_fexp prec emax (Zpos (2 ^ 53)) (ex + k) loc_Exact) as [mrs2 e2].
    cbn [fst snd] in Hsnd2, Hm2'. subst e2. rewrite Hm2'.
    change (Zpos (2 ^ 53) / 2 ^ (54 - 53)) with (Zpos (2 ^ 52)%positive).
    cbv iota.
    replace (ex + k + (54 - 53) <=? emax - prec) with true
      by (symmetry; apply Z.leb_le; unfold emax, prec, k; lia).
    exists (2 ^ 52)%positive, 1. change (54 - 53) with 1.
    split; [reflexivity |]. split; [right; reflexivity |].
    split; [change (Zpos (2 ^ 52)) with (2 ^ 52); lia |].
    change (Zpos (2 ^ 52) * 2 ^ 1) with (2 ^ 53). rewrite <- Hm.
    split; [lia | exact Hm2half].
Qed.

Lemma binary_round_aux_exact (s : bool) (p : positive) (ex : Z) :
  Zpos (digits2_pos p) = 53 -> -1074 <= ex <= 971 ->
  binary_round_aux prec emax s (Zpos p) ex loc_Exact = S754_finite s p ex.
Proof.
  intros Hd He.
  destruct (shr_fexp_spec p ex loc_Exact) as (Hsnd & _ & _ & Hfst);
    [rewrite Hd; lia | rewrite Hd; lia |].
  rewrite Hd in Hsnd, Hfst. change (53 - 53) with 0 in Hsnd, Hfst.
  rewrite Z.add_0_r in Hsnd. specialize (Hfst eq_refl).
  assert (Heq : shr_fexp prec emax (Zpos p) ex loc_Exact
                = (shr_record_of_loc (Zpos p) loc_Exact, ex)).
  { destruct (shr_fexp prec emax (Zpos p) ex loc_Exact) as [mrs e'].
    cbn [fst snd] in Hsnd, Hfst. subst mrs e'. reflexivity. }
  unfold binary_round_aux. rewrite Heq.
  cbn [shr_record_of_loc shr_m loc_of_shr_record round_nearest_even].
  rewrite Heq. cbn [shr_record_of_loc shr_m].
  replace (ex <=? emax - prec) with true
    by (symmetry; apply Z.leb_le; unfold emax, prec; lia).
  reflexivity.
Qed.

(** *** Aligning mantissas *)

Lemma Pos_iter_xO (p n : positive) : Zpos (Pos.iter xO p n) = Zpos p * 2 ^ Zpos n.
Proof.
  induction n as [| n IH] using Pos.peano_ind.
  - simpl. lia.
  - rewrite Pos.iter_succ, Pos2Z.inj_succ, Z.pow_succ_r by lia.
    change (Zpos (Pos.iter xO p n)~0) with (2 * Zpos (Pos.iter xO p n)).
    rewrite IH. lia.
Qed.

Lemma shl_align_spec (mx : positive) (ex ex' : Z) :
  ex' <= ex ->
  Zpos (fst (shl_align mx ex ex')) = Zpos mx * 2 ^ (ex - ex')
  /\ snd (shl_align mx ex ex') = ex'.
Proof.
  intros Hle. unfold shl_align.
  destruct (ex' - ex) as [| d | d] eqn:Hd; cbn [fst snd]; try lia.
  - replace (ex - ex') with 0 by lia. simpl. lia.
  - rewrite Pos_iter_xO. replace (ex - ex') with (Zpos d) by lia. auto.
Qed.

Lemma shl_align_id (mx : positive) (ex ex' : Z) :
  ex <= ex' -> shl_align mx ex ex' = (mx, ex).
Proof.
  intros Hle. unfold shl_align.
  destruct (ex' - ex) as [| d | d] eqn:Hd; try reflexivity. lia.
Qed.

(** *** An integer below [2^53] as a float *)

Lemma binary_round_small (s : bool) (z : positive) :
  Zpos z < 2 ^ 53 ->
  exists (m : positive) (e : Z),
    binary_round prec emax s z 0 = S754_finite s m e
    /\ 2 ^ 52 <= Zpos m < 2 ^ 53
    /\ -52 <= e <= 0
    /\ Zpos m = Zpos z * 2 ^ (- e).
Proof.
  intros Hz. pose proof (digits2_pos_bounds z) as [Blo Bhi].
  set (d := Zpos (digits2_pos z)) in *.
  assert (Hd1 : 1 <= d) by (unfold d; lia).
  assert (Hd : d <= 53) by (apply digits2_pos_le; lia).
  unfold binary_round. rewrite Z.add_0_r. fold d. rewrite fexp_normal by lia.
  destruct (shl_align_spec z 0 (d - 53) ltac:(lia)) as [Hm He].
  destruct (shl_align z 0 (d - 53)) as [mz ez]. cbn [fst snd] in Hm, He. subst ez.
  replace (0 - (d - 53)) with (53 - d) in Hm by lia.
  assert (Hmz : 2 ^ 52 <= Zpos mz < 2 ^ 53).
  { rewrite Hm. split.
    - replace 52 with ((d - 1) + (53 - d)) by lia. rewrite pow2_split by lia.
      apply Z.mul_le_mono_nonneg_r; [apply Z.lt_le_incl, pow2_pos; lia | exact Blo].
    - replace 53 with (d + (53 - d)) at 2 by lia. rewrite pow2_split by lia.
      apply Z.mul_lt_mono_pos_r; [apply pow2_pos; lia | exact Bhi]. }
  rewrite binary_round_aux_exact;
    [| apply digits2_pos_unique; change (53 - 1) with 52; exact Hmz | lia].
  exists mz, (d - 53). split; [reflexivity |]. split; [exact Hmz |]. split; [lia |].
  rewrite Hm. do 2 f_equal. lia.
Qed.

(** *** Division of two normal floats *)

Lemma SFdiv_normal (s : bool) (m1 : positive) (e1 : Z) (m2 : positive) (e2 : Z) :
  2 ^ 52 <= Zpos m1 < 2 ^ 53 -> 2 ^ 52 <= Zpos m2 < 2 ^ 53 ->
  -1021 <= e1 - e2 <= 900 ->
  let q := Zpos m1 * 2 ^ 53 / Zpos m2 in
  exists (m : positive) (j k : Z),
    SFdiv prec emax (S754_finite s m1 e1) (S754_finite false m2 e2)
    = S754_finite s m (e1 - e2 - 53 + k + j)
    /\ (k = 0 \/ k = 1) /\ (j = 0 \/ j = 1)
    /\ 2 ^ 52 <= Zpos m < 2 ^ 53
    /\ 2 ^ (52 + k) <= q < 2 ^ (53 + k)
    /\ q / 2 ^ k <= Zpos m * 2 ^ j <= q / 2 ^ k + 1
    /\ (k = 1 -> 2 * (Zpos m * 2 ^ j) <= q + 1).
Proof.
  intros H1 H2 He q.
  assert (Hd1 : Zpos (digits2_pos m1) = 53)
    by (apply digits2_pos_unique; change (53 - 1) with 52; exact H1).
  assert (Hd2 : Zpos (digits2_pos m2) = 53)
    by (apply digits2_pos_unique; change (53 - 1) with 52; exact H2).
  assert (Hq : 2 ^ 52 <= q < 2 ^ 54).
  { unfold q. split.
    - apply Z.div_le_lower_bound; [lia |]. lia.
    - apply Z.div_lt_upper_bound; [lia |]. lia. }
  unfold SFdiv, SFdiv_core_binary. cbn [Zdigits2]. rewrite Hd1, Hd2.
  replace (53 + e1 - (53 + e2)) with (e1 - e2) by lia.
  rewrite fexp_normal by lia. rewrite Z.min_l by lia.
  replace (e1 - e2 - (e1 - e2 - 53)) with 53 by lia. cbv iota.
  rewrite Z.shiftl_mul_pow2 by lia.
  fold (Z.div (Zpos m1 * 2 ^ 53) (Zpos m2)) in q.
  unfold Z.div in q.
  destruct (Z.div_eucl (Zpos m1 * 2 ^ 53) (Zpos m2)) as [q' r]. cbn [fst] in q.
  subst q. destruct q' as [| qp | qp]; try lia.
  pose proof (digits2_pos_bounds qp) as [Blo Bhi].
  set (d := Zpos (digits2_pos qp)) in *.
  assert (Hd : 53 <= d <= 54).
  { split.
    - assert (52 < d) by (apply digits2_pos_gt; lia). lia.
    - apply digits2_pos_le; lia. }
  destruct (binary_round_aux_spec (xorb s false) qp (e1 - e2 - 53)
              (new_location (Zpos m2) r))
    as (m & j & Hres & Hj & Hm & HM & Hhalf); [fold d; lia | fold d; lia |].
  fold d in Hres, HM, Hhalf.
  rewrite Bool.xorb_false_r in Hres |- *.
  exists m, j, (d - 53). split; [exact Hres |].
  split; [lia |]. split; [exact Hj |]. split; [exact Hm |].
  split; [replace (52 + (d - 53)) with (d - 1) by lia;
          replace (53 + (d - 53)) with d by lia; lia |].
  split; [exact HM |].
  intros Hk. rewrite Hk in Hhalf. specialize (Hhalf ltac:(lia)). lia.
Qed.

(** *** Addition of two floats of the same sign *)

Lemma SFadd_same_sign (s : bool) (mH : positive) (eH : Z) (m1 : positive) (e1 : Z) :
  e1 <= eH -> 2 ^ 52 <= Zpos m1 ->
  let S := Zpos mH * 2 ^ (eH - e1) + Zpos m1 in
  forall (d : Z),
    2 ^ (d - 1) <= S < 2 ^ d ->
    -1074 <= d + e1 - 53 <= 970 ->
    let k := d - 53 in
    exists (m : positive) (j : Z),
      SFadd prec emax (S754_finite s mH eH) (S754_finite s m1 e1)
      = S754_finite s m (e1 + k + j)
      /\ (j = 0 \/ j = 1)
      /\ 2 ^ 52 <= Zpos m < 2 ^ 53
      /\ S / 2 ^ k <= Zpos m * 2 ^ j <= S / 2 ^ k + 1
      /\ (1 <= k -> 2 * (Zpos m * 2 ^ j) * 2 ^ k <= 2 * S + 2 ^ k).
Proof.
  intros Hle Hm1 S d Hd He k.
  unfold SFadd. rewrite Z.min_r by exact Hle.
  destruct (shl_align_spec mH eH e1 Hle) as [HaH _].
  destruct (shl_align_spec m1 e1 e1 ltac:(lia)) as [Ha1 _].
  rewrite Z.sub_diag, Z.mul_1_r in Ha1.
  set (aH := fst (shl_align mH eH e1)) in *.
  set (a1 := fst (shl_align m1 e1 e1)) in *.
  assert (HS : Zpos (aH + a1) = S) by (unfold S; rewrite Pos2Z.inj_add; lia).
  assert (Hnorm : binary_normalize prec emax
                    (cond_Zopp s (Zpos aH) + cond_Zopp s (Zpos a1)) e1 false
                  = binary_round prec emax s (aH + a1) e1)
    by (destruct s; reflexivity).
  rewrite Hnorm. clear Hnorm. clearbody aH a1.
  assert (Hdig : Zpos (digits2_pos (aH + a1)) = d)
    by (apply digits2_pos_unique; rewrite HS; exact Hd).
  assert (Hd53 : 53 <= d).
  { rewrite <- Hdig. assert (52 < Zpos (digits2_pos (aH + a1))); [| lia].
    apply digits2_pos_gt. rewrite HS. unfold S.
    assert (0 <= Zpos mH * 2 ^ (eH - e1)); [| lia].
    apply Z.mul_nonneg_nonneg; [lia | apply Z.lt_le_incl, pow2_pos; lia]. }
  unfold binary_round. rewrite Hdig, fexp_normal by lia.
  rewrite shl_align_id by lia.
  destruct (binary_round_aux_spec s (aH + a1) e1 loc_Exact)
    as (m & j & Hres & Hj & Hm & HM & Hhalf);
    [rewrite Hdig; lia | rewrite Hdig; lia |].
  rewrite Hdig, HS in *. exists m, j. auto.
Qed.

(** *** The day count *)

Lemma float64_signed (s : bool) (z : Z) :
  0 < z < 2 ^ 53 ->
  exists (m : positive) (e : Z),
    Prim2SF (time.float64 (if s then - z else z)) = S754_finite s m e
    /\ 2 ^ 52 <= Zpos m < 2 ^ 53
    /\ -52 <= e <= 0
    /\ Zpos m = z * 2 ^ (- e).
Proof.
  intros Hz. destruct z as [| zp | zp]; try lia.
  destruct (binary_round_small false zp ltac:(lia)) as (m & e & Hr & Hm & He & Hv).
  assert (Hof : Prim2SF (of_uint63 (Uint63.of_Z (Zpos zp))) = S754_finite false m e).
  { rewrite FloatAxioms.of_uint63_spec, Uint63.of_Z_spec, Z.mod_small; [exact Hr |].
    split; [lia |]. apply Z.lt_trans with (2 ^ 53); [lia | reflexivity]. }
  exists m, e. split; [| auto].
  unfold time.float64. destruct s.
  - change (- Zpos zp <? 0) with true. cbv iota.
    rewrite Z.opp_involutive, FloatAxioms.opp_spec, Hof. reflexivity.
  - change (Zpos zp <? 0) with false. cbv iota. exact Hof.
Qed.

Lemma float64_zero : Prim2SF (time.float64 0) = S754_zero false.
Proof. reflexivity. Qed.

Lemma float64_hour :
  Prim2SF (time.float64 (60 * 60 * 1000000000))
  = S754_finite false 7372800000000000 (-11).
Proof. reflexivity. Qed.

Lemma float64_24 :
  Prim2SF (time.float64 24) = S754_finite false 6755399441055744 (-48).
Proof. reflexivity. Qed.

Lemma pow2_lt_inv (a b : Z) : 0 <= b -> 2 ^ a < 2 ^ b -> a < b.
Proof. intros Hb Hlt. apply (Z.pow_lt_mono_r_iff 2); [lia | exact Hb | exact Hlt]. Qed.

(** The fraction of an hour: below one by more than the rounding of the
    sum that follows can make up. *)
Lemma nsec_fraction (s : bool) (mn : positive) (en n : Z) :
  0 < n < 3600000000000 ->
  2 ^ 52 <= Zpos mn < 2 ^ 53 -> -52 <= en <= 0 -> Zpos mn = n * 2 ^ (- en) ->
  exists (m1 : positive) (e1 : Z),
    SFdiv prec emax (S754_finite s mn en)
          (S754_finite false 7372800000000000 (-11))
    = S754_finite s m1 e1
    /\ 2 ^ 52 <= Zpos m1 < 2 ^ 53
    /\ -150 <= e1 <= -53
    /\ Zpos m1 * 3600000000000 * 2 ^ 53
       <= (3599999999999 * 2 ^ 53 + 3600000000000) * 2 ^ (- e1).
Proof.
  intros Hn Hmn Hen Hv.
  destruct (SFdiv_normal s mn en 7372800000000000 (-11) Hmn ltac:(lia) ltac:(lia))
    as (m & j & k & Hres & Hk & Hj & Hm & Hq & HM & _).
  set (q := Zpos mn * 2 ^ 53 / 7372800000000000) in *.
  set (Pn := 2 ^ (- en)) in *.
  assert (HPn : 0 < Pn) by (apply pow2_pos; lia).
  assert (HqC : q * 3600000000000 <= 3599999999999 * (Pn * 2 ^ 42)).
  { pose proof (Z.mul_div_le (Zpos mn * 2 ^ 53) 7372800000000000 ltac:(lia)) as Hle.
    fold q in Hle.
    assert (Zpos mn <= 3599999999999 * Pn) by (rewrite Hv; nia).
    lia. }
  assert (HPc : Pn * 2 ^ 42 = 2 ^ (42 - en))
    by (unfold Pn; rewrite <- pow2_split by lia; f_equal; lia).
  assert (Hk0 : 0 <= k) by lia. assert (Hj0 : 0 <= j) by lia.
  pose proof (pow2_pos k Hk0) as Hpk. pose proof (pow2_pos j Hj0) as Hpj.
  assert (Hkk : 53 + k <= 42 - en).
  { assert (52 + k < 42 - en); [| lia].
    apply pow2_lt_inv; [lia |]. rewrite <- HPc. lia. }
  assert (HMk : Zpos m * 2 ^ j * 2 ^ k <= q + 2 ^ k).
  { pose proof (Z.mul_div_le q (2 ^ k) Hpk). nia. }
  assert (Hcarry : 2 ^ k * 2 ^ 53 <= Pn * 2 ^ 42).
  { rewrite HPc, <- pow2_split by lia. apply Z.pow_le_mono_r; lia. }
  assert (Hbound : Zpos m * 2 ^ j * 2 ^ k * 3600000000000 * 2 ^ 53
                   <= (3599999999999 * 2 ^ 53 + 3600000000000) * (Pn * 2 ^ 42)) by nia.
  assert (He1 : 52 + j + k < 42 - en).
  { apply pow2_lt_inv; [lia |]. rewrite <- HPc, !pow2_split by lia.
    assert (2 ^ 52 * 2 ^ j * 2 ^ k <= Zpos m * 2 ^ j * 2 ^ k)
      by (apply Z.mul_le_mono_nonneg_r; [lia |];
          apply Z.mul_le_mono_nonneg_r; lia).
    nia. }
  exists m, (en - -11 - 53 + k + j). split; [exact Hres |].
  split; [exact Hm |]. split; [lia |].
  assert (Hsplit : Pn * 2 ^ 42 = 2 ^ (- (en - -11 - 53 + k + j)) * (2 ^ j * 2 ^ k)).
  { rewrite HPc, <- !pow2_split by lia. f_equal. lia. }
  rewrite Hsplit in Hbound.
  set (T := 2 ^ (- (en - -11 - 53 + k + j))) in *.
  apply (Z.mul_le_mono_pos_r _ _ (2 ^ j * 2 ^ k)); [lia |]. nia.
Qed.

(** The sum of the whole hours and the fraction stays below the next
    whole hour, up to 4095 hours. *)
Lemma hours_sum (s : bool) (mH : positive) (eH H : Z) (m1 : positive) (e1 : Z) :
  1 <= H < 4096 ->
  2 ^ 52 <= Zpos mH < 2 ^ 53 -> -52 <= eH <= 0 -> Zpos mH = H * 2 ^ (- eH) ->
  2 ^ 52 <= Zpos m1 < 2 ^ 53 -> -150 <= e1 <= -53 ->
  Zpos m1 * 3600000000000 * 2 ^ 53
  <= (3599999999999 * 2 ^ 53 + 3600000000000) * 2 ^ (- e1) ->
  exists (m : positive) (e : Z),
    SFadd prec emax (S754_finite s mH eH) (S754_finite s m1 e1)
    = S754_finite s m e
    /\ 2 ^ 52 <= Zpos m < 2 ^ 53
    /\ -150 <= e <= 0
    /\ H * 2 ^ (- e) <= Zpos m < (H + 1) * 2 ^ (- e).
Proof.
  intros HH HmH HeH HvH Hm1 He1 Hfrac.
  set (P1 := 2 ^ (- e1)) in *.
  assert (HP1 : 0 < P1) by (apply pow2_pos; lia).
  assert (HS : Zpos mH * 2 ^ (eH - e1) + Zpos m1 = H * P1 + Zpos m1).
  { rewrite HvH, <- Z.mul_assoc, <- pow2_split by lia. unfold P1.
    do 3 f_equal. lia. }
  assert (Hm1P : Zpos m1 < P1) by nia.
  remember (H * P1 + Zpos m1) as S eqn:ES.
  assert (HSlo : 2 ^ (- e1) <= S) by (fold P1; nia).
  assert (HShi : S < 2 ^ (12 - e1)).
  { replace (12 - e1) with (12 + - e1) by lia. rewrite pow2_split by lia.
    fold P1. change (2 ^ 12) with 4096. nia. }
  destruct S as [| Sp | Sp]; try lia.
  pose proof (digits2_pos_bounds Sp) as Hd.
  set (d := Zpos (digits2_pos Sp)) in *.
  assert (Hdlo : - e1 < d) by (apply digits2_pos_gt; exact HSlo).
  assert (Hdhi : d <= 12 - e1) by (apply digits2_pos_le; [lia | exact HShi]).
  destruct (SFadd_same_sign s mH eH m1 e1 ltac:(lia) ltac:(lia) d)
    as (m & j & Hres & Hj & Hm & HM & Hhalf);
    [rewrite HS; exact Hd | lia |].
  rewrite HS in HM, Hhalf. specialize (Hhalf ltac:(lia)).
  set (k := d - 53) in *.
  assert (Hk : 1 <= k) by (unfold k; lia).
  assert (Hj0 : 0 <= j) by lia.
  pose proof (pow2_pos k ltac:(lia)) as Hpk. pose proof (pow2_pos j Hj0) as Hpj.
  set (e := e1 + k + j) in *.
  assert (He : e <= -40) by (unfold e, k; lia).
  set (T := 2 ^ (- e)).
  assert (HT : 0 < T) by (apply pow2_pos; lia).
  assert (HP1T : P1 = T * 2 ^ j * 2 ^ k).
  { unfold P1, T. rewrite <- !pow2_split by lia. f_equal. unfold e. lia. }
  assert (H41 : 2 ^ k * 2 ^ 41 <= P1).
  { unfold P1. rewrite <- pow2_split by lia. apply Z.pow_le_mono_r; unfold k; lia. }
  exists m, e. split; [exact Hres |]. split; [exact Hm |]. split; [unfold e, k; lia |].
  fold T. split.
  - (* below: the whole hours are representable *)
    apply (Z.mul_le_mono_pos_r _ _ (2 ^ j)); [exact Hpj |].
    eapply Z.le_trans; [| apply HM].
    apply Z.div_le_lower_bound; [exact Hpk |]. rewrite ES, HP1T. nia.
  - (* above: rounding to nearest cannot reach the next hour *)
    apply (Z.mul_lt_mono_pos_r (2 ^ j * 2 ^ k)); [lia |].
    replace ((H + 1) * T * (2 ^ j * 2 ^ k)) with (H * P1 + P1) by (rewrite HP1T; ring).
    replace (Zpos m * (2 ^ j * 2 ^ k)) with (Zpos m * 2 ^ j * 2 ^ k) by ring.
    rewrite ES in Hhalf.
    assert (Hhalf' : 2 * (Zpos m * 2 ^ j * 2 ^ k)
                     <= 2 * (H * P1) + 2 * Zpos m1 + 2 ^ k) by lia.
    clearbody P1.
    generalize dependent (Zpos m * 2 ^ j * 2 ^ k). intros X. intros.
    generalize dependent (H * P1). intros Y. intros.
    generalize dependent (2 ^ k). intros K. intros.
    clear - Hhalf' Hfrac H41 HP1. lia.
Qed.

(** Dividing by 24 rounds by less than a 24th of the last bit of the
    dividend: the quotient stays inside the day. *)
Lemma day_quotient (s : bool) (my : positive) (ey q : Z) :
  2 ^ 52 <= Zpos my < 2 ^ 53 -> -150 <= ey <= 0 -> 0 <= q ->
  24 * q * 2 ^ (- ey) <= Zpos my < 24 * (q + 1) * 2 ^ (- ey) ->
  exists (m : positive) (e : Z),
    SFdiv prec emax (S754_finite s my ey)
          (S754_finite false 6755399441055744 (-48))
    = S754_finite s m e
    /\ Z.shiftl (Zpos m) e = q.
Proof.
  intros Hmy Hey Hq Hy.
  destruct (SFdiv_normal s my ey 6755399441055744 (-48) Hmy ltac:(lia) ltac:(lia))
    as (m & j & k & Hres & Hk & Hj & Hm & _ & HM & Hhalf).
  assert (Hquo : Zpos my * 2 ^ 53 / 6755399441055744 = 4 * Zpos my / 3).
  { change 6755399441055744 with (3 * 2 ^ 51).
    replace (Zpos my * 2 ^ 53) with (4 * Zpos my * 2 ^ 51) by lia.
    apply Z.div_mul_cancel_r; lia. }
  rewrite Hquo in HM, Hhalf.
  set (P := 2 ^ (- ey)) in *.
  assert (HP : 0 < P) by (apply pow2_pos; lia).
  set (e := ey - -48 - 53 + k + j) in *.
  assert (He : e <= -3) by (unfold e; lia).
  set (T := 2 ^ (- e)).
  assert (HT : 0 < T) by (apply pow2_pos; lia).
  assert (HPT : 32 * P = T * 2 ^ j * 2 ^ k).
  { unfold P, T. change 32 with (2 ^ 5). rewrite <- !pow2_split by lia.
    f_equal. unfold e. lia. }
  exists m, e. split; [exact Hres |].
  rewrite Z.shiftl_div_pow2 by lia. fold T.
  assert (Hin : q * T <= Zpos m < (q + 1) * T).
  { assert (HqT : 32 * (q * P) = q * T * 2 ^ j * 2 ^ k)
      by (rewrite <- !Z.mul_assoc, (Z.mul_assoc T), <- HPT; ring).
    assert (Hy' : 24 * (q * P) <= Zpos my < 24 * (q * P) + 24 * P) by lia.
    replace ((q + 1) * T) with (q * T + T) by ring.
    pose proof (Z.div_mod (4 * Zpos my) 3 ltac:(lia)) as Hthird.
    pose proof (Z.mod_pos_bound (4 * Zpos my) 3 ltac:(lia)) as Hthird'.
    pose proof (Z.div_mod (4 * Zpos my / 3) 2 ltac:(lia)) as Hhalved.
    pose proof (Z.mod_pos_bound (4 * Zpos my / 3) 2 ltac:(lia)) as Hhalved'.
    clearbody P T. clear Hy Hquo Hres He. clearbody e.
    generalize dependent (q * P). intros X. intros.
    generalize dependent (q * T). intros Y. intros.
    destruct Hk as [-> | ->], Hj as [-> | ->];
      change (2 ^ 0) with 1 in *; change (2 ^ 1) with 2 in *;
      rewrite ?Z.mul_1_r, ?Z.div_1_r in *;
      try specialize (Hhalf eq_refl); lia. }
  symmetry. apply (Z.div_unique _ _ _ (Zpos m - T * q)); lia.
Qed.

(** The day count of a duration of [H] whole hours and [n] nanoseconds,
    of either sign, below 4096 hours. *)
Lemma daysUntil_signed (s : bool) (H n : Z) :
  0 <= H < 4096 -> 0 <= n < 3600000000000 ->
  time.int
    (PrimFloat.div
       (PrimFloat.add (time.float64 (if s then - H else H))
          (PrimFloat.div (time.float64 (if s then - n else n))
                         (time.float64 (60 * 60 * 1000000000))))
       (time.float64 24))
  = if s then - (H / 24) else H / 24.
Proof.
  intros HH Hn. unfold time.int.
  rewrite FloatAxioms.div_spec, FloatAxioms.add_spec, FloatAxioms.div_spec, float64_hour, float64_24.
  unfold FloatAxioms.SF64div, FloatAxioms.SF64add.
  assert (Hzero : forall b : bool, (if b then - 0 else 0) = 0) by (intros []; reflexivity).
  assert (Hq : 0 <= H / 24) by (apply Z.div_pos; lia).
  assert (H24 : 24 * (H / 24) <= H < 24 * (H / 24 + 1)).
  { pose proof (Z.div_mod H 24 ltac:(lia)). pose proof (Z.mod_pos_bound H 24 ltac:(lia)). lia. }
  destruct (Z.eq_dec n 0) as [-> | Hn0], (Z.eq_dec H 0) as [-> | HH0].
  - rewrite !Hzero, float64_zero. destruct s; reflexivity.
  - rewrite Hzero, float64_zero.
    destruct (float64_signed s H ltac:(lia)) as (mH & eH & -> & HmH & HeH & HvH).
    change (SFdiv prec emax (S754_zero false) (S754_finite false 7372800000000000 (-11)))
      with (S754_zero false).
    change (SFadd prec emax (S754_finite s mH eH) (S754_zero false))
      with (S754_finite s mH eH).
    destruct (day_quotient s mH eH (H / 24) HmH ltac:(lia) Hq) as (m & e & -> & He).
    { rewrite HvH. pose proof (pow2_pos (- eH) ltac:(lia)). nia. }
    rewrite He. destruct s; reflexivity.
  - rewrite Hzero, float64_zero.
    destruct (float64_signed s n ltac:(lia)) as (mn & en & -> & Hmn & Hen & Hvn).
    destruct (nsec_fraction s mn en n ltac:(lia) Hmn Hen Hvn)
      as (m1 & e1 & Hdiv & Hm1 & He1 & Hfrac).
    rewrite Hdiv.
    change (SFadd prec emax (S754_zero false) (S754_finite s m1 e1))
      with (S754_finite s m1 e1).
    destruct (day_quotient s m1 e1 0 Hm1 ltac:(lia) ltac:(lia)) as (m & e & -> & He).
    { assert (2 ^ 53 <= 2 ^ (- e1)) by (apply Z.pow_le_mono_r; lia). lia. }
    rewrite He. destruct s; reflexivity.
  - destruct (float64_signed s H ltac:(lia)) as (mH & eH & -> & HmH & HeH & HvH).
    destruct (float64_signed s n ltac:(lia)) as (mn & en & -> & Hmn & Hen & Hvn).
    destruct (nsec_fraction s mn en n ltac:(lia) Hmn Hen Hvn)
      as (m1 & e1 & Hdiv & Hm1 & He1 & Hfrac).
    rewrite Hdiv.
    destruct (hours_sum s mH eH H m1 e1 ltac:(lia) HmH HeH HvH Hm1 He1 Hfrac)
      as (my & ey & Hsum & Hmy & Hey & Hy).
    rewrite Hsum.
    destruct (day_quotient s my ey (H / 24) Hmy Hey Hq) as (m & e & -> & He).
    { pose proof (pow2_pos (- ey) ltac:(lia)). nia. }
    rewrite He. destruct s; reflexivity.
Qed.

(** Below 4096 hours either way, the float64 day count is the quotient
    by 24 hours truncated toward zero. *)
Lemma daysUntil_quot (d : time.Duration) :
  - (4096 * time.Hour) < d < 4096 * time.Hour ->
  webhook.daysUntil d = Z.quot d (24 * time.Hour).
Proof.
  intros Hd. unfold webhook.daysUntil, time.Hours.
  change time.Hour with 3600000000000 in *.
  assert (Habs : exists (s : bool) (a : Z),
             0 <= a < 4096 * 3600000000000
             /\ d = if s return Z then - a else a).
  { destruct (Z.ltb_spec d 0).
    - exists true, (- d). split; lia.
    - exists false, d. split; [lia | reflexivity]. }
  destruct Habs as (s & a & Ha & ->).
  pose proof (Z.div_mod a 3600000000000 ltac:(lia)) as Hdm.
  pose proof (Z.mod_pos_bound a 3600000000000 ltac:(lia)) as Hmod.
  assert (HH : 0 <= a / 3600000000000 < 4096).
  { split; [apply Z.div_pos; lia | apply Z.div_lt_upper_bound; lia]. }
  assert (Hquot : Z.quot (if s then - a else a) 3600000000000
                  = if s then - (a / 3600000000000) else a / 3600000000000).
  { destruct s; [rewrite Z.quot_opp_l by lia |]; rewrite Z.quot_div_nonneg by lia;
      reflexivity. }
  assert (Hrem : Z.rem (if s then - a else a) 3600000000000
                 = if s then - (a mod 3600000000000) else a mod 3600000000000).
  { destruct s; [rewrite Z.rem_opp_l by lia |]; rewrite Z.rem_mod_nonneg by lia;
      reflexivity. }
  cbv zeta. rewrite Hquot, Hrem, (daysUntil_signed s _ _ HH Hmod).
  rewrite Z.div_div by lia. change (3600000000000 * 24) with (24 * 3600000000000).
  destruct s; [rewrite Z.quot_opp_l by lia |]; rewrite Z.quot_div_nonneg by lia;
    reflexivity.
Qed.

(** ** Whole days in the expiring message *)

Lemma Hours_whole (h : Z) :
  time.Hours (h * time.Hour) = PrimFloat.add (time.float64 h) PrimFloat.zero.
Proof.
  unfold time.Hours.
  rewrite Z.quot_mul, Z.rem_mul by (vm_compute; discriminate).
  reflexivity.
Qed.

Lemma wholeHoursAgree_sound (n : positive) :
  wholeHoursAgree n = true ->
  forall h : Z, - Zpos n < h < Zpos n -> hoursAgree h = true.
Proof.
  unfold wholeHoursAgree.
  set (step := fun st : Z * bool =>
                 (fst st + 1, snd st && hoursAgree (fst st) && hoursAgree (- fst st))).
  assert (Hinv : fst (Pos.iter step (0, true) n) = Zpos n
                 /\ (snd (Pos.iter step (0, true) n) = true ->
                     forall k, 0 <= k < Zpos n ->
                               hoursAgree k = true /\ hoursAgree (- k) = true)).
  { induction n as [| n [Hfst Hsnd]] using Pos.peano_ind.
    - change (Pos.iter step (0, true) 1) with (step (0, true)).
      unfold step. cbn [fst snd]. split; [reflexivity |]. intros Hok k Hk.
      replace k with 0 by lia.
      apply andb_prop in Hok as [Hok Hneg]. apply andb_prop in Hok as [_ Hpos]. auto.
    - rewrite Pos.iter_succ. unfold step at 1. cbn [fst snd]. rewrite Hfst.
      split; [lia |]. intros Hok k Hk.
      apply andb_prop in Hok as [Hok Hneg]. apply andb_prop in Hok as [Hok Hpos].
      rewrite Hfst in Hpos, Hneg.
      destruct (Z.eq_dec k (Zpos n)) as [-> | Hne]; [auto |].
      apply Hsnd; [exact Hok | lia]. }
  destruct Hinv as [_ Hall]. intros Hok h Hh.
  destruct (Z.le_gt_cases 0 h) as [Hpos | Hneg].
  - apply (Hall Hok h). lia.
  - replace h with (- - h) by lia. apply (Hall Hok (- h)). lia.
Qed.

Lemma wholeHoursAgree_100000 : wholeHoursAgree 100000 = true.
Proof. vm_cast_no_check (eq_refl true). Qed.

Lemma daysUntil_whole_hours (h : Z) :
  - 100000 < h < 100000 ->
  webhook.daysUntil (h * time.Hour) = Z.quot (h * time.Hour) (24 * time.Hour).
Proof.
  intros Hh. unfold webhook.daysUntil. rewrite Hours_whole.
  pose proof (wholeHoursAgree_sound 100000 wholeHoursAgree_100000 h Hh) as Hok.
  unfold hoursAgree in Hok. apply Z.eqb_eq in Hok. rewrite Hok.
  symmetry. apply Z.quot_mul_cancel_r; vm_compute; discriminate.
Qed.

Section Days.

Context {World : Type} `{webhook.Platform World}.

(** C5, as the code has it: the number in the expiring message is
    [int(remaining.Hours() / 24)], computed in float64 from what the
    clock leaves until the expiry.  When that is less than 4096 hours
    either way, or a whole number of hours below 100000 either way, the
    number is the quotient of the remaining duration by 24 hours,
    truncated toward zero. *)
Theorem expiring_message_whole_days (n : webhook.Notifier)
    (certName namespace issuer : string) (dnsNames : list string)
    (expiresAt : time.Time) (s : webhook.RunState World) :
  let remaining := time.Sub expiresAt (fst (webhook.Now (webhook.world s))) in
  exists p : webhook.NotificationPayload,
    webhook.notifications
      (snd (webhook.SendExpiringNotification n certName namespace issuer dnsNames
              expiresAt s))
    = webhook.notifications s ++ [p]
    /\ webhook.Type_ p = "expiring"
    /\ webhook.Message p
       = "Certificate " +:+ namespace +:+ "/" +:+ certName +:+ " expires in "
         +:+ strings.itoa
               (time.int (PrimFloat.div (time.Hours remaining) (time.float64 24)))
         +:+ " days"
    /\ (- (4096 * time.Hour) < remaining < 4096 * time.Hour
        \/ (exists h : Z, - 100000 < h < 100000 /\ remaining = h * time.Hour) ->
        webhook.Message p
        = "Certificate " +:+ namespace +:+ "/" +:+ certName +:+ " expires in "
          +:+ strings.itoa (Z.quot remaining (24 * time.Hour)) +:+ " days").
Proof.
  intros remaining. rewrite SendExpiringNotification_run. eexists.
  split; [reflexivity |]. simpl. split; [reflexivity |]. split; [reflexivity |].
  fold remaining. intros [Hnear | (h & Hh & Hwhole)].
  - rewrite <- (daysUntil_quot remaining Hnear). reflexivity.
  - rewrite Hwhole, <- (daysUntil_whole_hours h Hh). reflexivity.
Qed.

End Days.

Section ConfigurationClaims.

Variable ParseDuration : string -> option time.Duration.
Variable env : gmap string string.

(** C7: loading fails exactly when the destination-list source is not
    set, empty or made of blank entries only; a configuration that is
    loaded has at least one destination, and so has the notifier built
    from it. *)
Theorem load_requires_destination :
  match config.Load ParseDuration env with
  | Err err =>
      blankSource env
      /\ err = config.FailedToLoadWebhooks
                 (if decide (os.Getenv env "WEBHOOK_URLS" = "")
                  then config.WebhookURLsRequired else config.NoValidWebhooks)
  | Ok cfg =>
      ~ blankSource env
      /\ (1 <= length (config.Webhooks cfg))%nat
      /\ webhook.webhooks (webhook.NewNotifier (config.Webhooks cfg)) <> []
  end.
Proof.
  pose proof (loadWebhooks_spec ParseDuration env) as Hw.
  pose proof (Load_spec ParseDuration env) as Hl.
  destruct (config.loadWebhooks ParseDuration env) as [webhooks | err].
  - destruct Hl as (cfg & -> & -> & _). destruct Hw as [Hnb Hlen].
    repeat split; [exact Hnb | exact Hlen |].
    simpl. intros ->. simpl in Hlen. lia.
  - rewrite Hl. destruct Hw as [Hb ->]. split; [exact Hb | reflexivity].
Qed.

(** C9: with a usable destination list, loading succeeds whatever the
    optional variables hold.  A check interval, expiration threshold or
    webhook timeout that is no duration, and a health port that is no
    integer, leave the default in place: 24h, 720h, 30s and 8080. *)
Theorem malformed_optional_keeps_default :
  ~ blankSource env ->
  exists cfg : config.Config,
    config.Load ParseDuration env = Ok cfg
    /\ (ParseDuration (os.Getenv env "CHECK_INTERVAL") = None ->
        config.CheckInterval cfg = 24 * time.Hour)
    /\ (ParseDuration (os.Getenv env "EXPIRATION_THRESHOLD") = None ->
        config.ExpirationThreshold cfg = 720 * time.Hour)
    /\ (strconv.Atoi (os.Getenv env "HEALTH_PORT") = None ->
        config.HealthPort cfg = 8080)
    /\ Forall (fun w =>
                 exists i : Z,
                   config.Name w = "webhook-" +:+ strings.itoa (i + 1)
                   /\ (ParseDuration
                         (os.Getenv env
                            ("WEBHOOK_" +:+ strings.itoa (i + 1) +:+ "_TIMEOUT"))
                       = None ->
                       config.Timeout w = 30 * time.Second))
              (config.Webhooks cfg).
Proof.
  intros Hnb.
  pose proof (loadWebhooks_spec ParseDuration env) as Hw.
  pose proof (Load_spec ParseDuration env) as Hl.
  destruct (config.loadWebhooks ParseDuration env) as [webhooks | err] eqn:Hload;
    [| destruct Hw as [Hb _]; contradiction].
  destruct Hl as (cfg & Hcfg & Hws & Hci & Het & Hhp). exists cfg.
  split; [exact Hcfg |].
  split; [intros Hp; rewrite Hci, Hp; clear; case_decide; reflexivity |].
  split; [intros Hp; rewrite Het, Hp; clear; case_decide; reflexivity |].
  split; [intros Hp; rewrite Hhp, Hp; clear; case_decide; reflexivity |].
  rewrite Hws. clear Hcfg Hws Hci Het Hhp. apply Forall_forall. intros w Hin.
  unfold config.loadWebhooks in Hload.
  repeat case_decide; try discriminate Hload. injection Hload as <-.
  apply loadLoop_elems in Hin as [Hin | (j & url & ->)]; [inversion Hin |].
  exists j. split; [reflexivity |]. intros Hp. unfold config.loadWebhook. simpl.
  rewrite Hp. case_decide; reflexivity.
Qed.

End ConfigurationClaims.

(** ** The statements at concrete inputs *)

(** Three destinations of which the second answers 500: there is an
    exchange with every one of them and the call succeeds. *)
Lemma fan_out_best_effort_witness :
  let payload :=
    {| webhook.Type_ := "expired";
       webhook.Message := "Certificate default/web has expired";
       webhook.Certificate :=
         {| webhook.Name := "web"; webhook.Namespace := "default";
            webhook.Issuer := "letsencrypt"; webhook.DNSNames := ["example.com"];
            webhook.ExpiresAt := sim.newYear - time.Hour |};
       webhook.Timestamp := sim.newYear |} in
  let json := "expired: Certificate default/web has expired" in
  let n := webhook.NewNotifier [sim.hook 1; sim.hook 2; sim.hook 3] in
  let s := sim.start (sim.mkWorld sim.newYear 0
                        [webhook.Responded 200; webhook.Responded 500;
                         webhook.Responded 204] []) in
  let r := webhook.sendNotification n payload s in
  let outs := [webhook.Responded 200; webhook.Responded 500; webhook.Responded 204] in
  fst r = None
  /\ webhook.world (snd r) = sim.mkWorld sim.newYear 0 [] []
  /\ length outs = 3%nat
  /\ (exists l : list webhook.Attempt,
        webhook.attempts (snd r) = webhook.attempts s ++ l
        /\ webhook.destination <$> l = [sim.hook 1; sim.hook 2; sim.hook 3]
        /\ Forall (fun a => webhook.body a = json) l
        /\ Forall2 (fun a out => webhook.outcome a = None <-> reached out) l outs)
  /\ (fst r = None <-> Exists reached outs)
  /\ (Forall (fun out => ~ reached out) outs ->
      fst r = Some (webhook.NoWebhookSucceeded (failure <$> last outs))).
Proof.
  intros payload json n s r outs. split; [reflexivity |].
  exact (fan_out_best_effort n payload s).
Defined.

(** An event of the year 10000 and two destinations that would answer
    200: the call fails and there is no exchange with either. *)
Lemma fan_out_counterexample :
  let n := webhook.NewNotifier [sim.hook 1; sim.hook 2] in
  let s := faulty.start
             (faulty.mkWorld
                (sim.mkWorld sim.newYear 0
                   [webhook.Responded 200; webhook.Responded 200] [])
                None) in
  let r := webhook.sendNotification n examples.unencodable s in
  webhook.webhooks n = [sim.hook 1; sim.hook 2]
  /\ (exists msg : string, fst r = Some (webhook.MarshalFailed msg))
  /\ webhook.attempts (snd r) = []
  /\ webhook.world (snd r) = webhook.world s.
Proof. repeat split. eexists. reflexivity. Qed.

(** A certificate that expired an hour ago, with the default threshold
    of thirty days: one notification, of kind expired. *)
Lemma expired_takes_precedence_witness :
  let m := sim.mon [sim.hook 1] in
  let cert := sim.cert "web" "letsencrypt" (- time.Hour) in
  let s := sim.start (sim.mkWorld sim.newYear 0 [webhook.Responded 200] []) in
  certmanagerv1.Status_NotAfter cert = Some (sim.newYear - time.Hour)
  /\ sim.newYear > sim.newYear - time.Hour
  /\ sim.newYear + config.ExpirationThreshold (monitor.config m)
     > sim.newYear - time.Hour
  /\ exists l : list webhook.NotificationPayload,
       webhook.notifications (snd (monitor.checkCertificate m cert sim.newYear s))
       = webhook.notifications s ++ l
       /\ (length l <= 1)%nat
       /\ Forall (fun p => webhook.Type_ p = "expired") l
       /\ (l = [] <-> monitor.shouldNotifyExpired m (monitor.certKeyOf cert)
                        sim.newYear = false).
Proof.
  intros m cert s.
  split; [reflexivity |]. split; [reflexivity |]. split; [reflexivity |].
  apply (expired_takes_precedence m cert sim.newYear (sim.newYear - time.Hour) s);
    reflexivity.
Defined.

(** An expired certificate and a single destination that answers 500. *)
Lemma failed_delivery_not_recorded_witness :
  let m := sim.mon [sim.hook 1] in
  let cert := sim.cert "web" "letsencrypt" (- time.Hour) in
  let s := sim.start (sim.mkWorld sim.newYear 0 [webhook.Responded 500] []) in
  let err := monitor.SendExpiredFailed
               (webhook.NoWebhookSucceeded (Some (webhook.NonSuccessStatus 500))) in
  snd (fst (monitor.checkCertificate m cert sim.newYear s)) = Some err
  /\ fst (fst (monitor.checkCertificate m cert sim.newYear s)) = m
  /\ monitor.notifiedCerts (fst (fst (monitor.checkCertificate m cert sim.newYear s)))
     !! monitor.certKeyOf cert
     = monitor.notifiedCerts m !! monitor.certKeyOf cert
  /\ forall later : time.Time,
       decision (fst (fst (monitor.checkCertificate m cert sim.newYear s))) cert later
       = decision m cert later.
Proof.
  intros m cert s err. split; [reflexivity |].
  apply (failed_delivery_not_recorded m cert sim.newYear s err). reflexivity.
Defined.

(** C1 as the specification words it fails: the delivery of the expired
    notification fails, the error is returned, and the key has no record
    afterwards, so that the check of the next hour attempts it again. *)
Lemma failed_delivery_counterexample :
  let m := sim.mon [sim.hook 1] in
  let cert := sim.cert "web" "letsencrypt" (- time.Hour) in
  let s := sim.start (sim.mkWorld sim.newYear 0 [webhook.Responded 500] []) in
  let r := monitor.checkCertificate m cert sim.newYear s in
  snd (fst r)
  = Some (monitor.SendExpiredFailed
            (webhook.NoWebhookSucceeded (Some (webhook.NonSuccessStatus 500))))
  /\ monitor.notifiedCerts (fst (fst r)) !! "default/web" = None
  /\ monitor.notifiedCerts (fst (fst r)) !! "default/web" <> Some sim.newYear
  /\ decision (fst (fst r)) cert (sim.newYear + time.Hour) = Some "expired".
Proof.
  intros m cert s r. vm_compute. repeat split; discriminate.
Qed.

(** Thirty-six hours before the expiry the message says 1 day. *)
Lemma expiring_message_whole_days_witness :
  let n := webhook.NewNotifier [sim.hook 1] in
  let expiresAt := sim.newYear + 36 * time.Hour in
  let s := sim.start (sim.mkWorld sim.newYear 0 [webhook.Responded 200] []) in
  let remaining := time.Sub expiresAt (fst (webhook.Now (webhook.world s))) in
  remaining = 36 * time.Hour
  /\ - (4096 * time.Hour) < remaining < 4096 * time.Hour
  /\ exists p : webhook.NotificationPayload,
       webhook.notifications
         (snd (webhook.SendExpiringNotification n "web" "default" "letsencrypt"
                 ["example.com"] expiresAt s))
       = webhook.notifications s ++ [p]
       /\ webhook.Type_ p = "expiring"
       /\ webhook.Message p = "Certificate default/web expires in 1 days".
Proof.
  intros n expiresAt s remaining.
  assert (Hnear : - (4096 * time.Hour) < remaining < 4096 * time.Hour)
    by (split; reflexivity).
  split; [reflexivity |]. split; [exact Hnear |].
  destruct (expiring_message_whole_days n "web" "default" "letsencrypt"
              ["example.com"] expiresAt s) as (p & Hlog & Hkind & _ & Hquot).
  exists p. split; [exact Hlog |]. split; [exact Hkind |].
  rewrite (Hquot (or_introl Hnear)). reflexivity.
Defined.

(** Forty-eight hours before the expiry it says 2 days. *)
Example expiring_message_48h :
  webhook.Message
  <$> webhook.notifications
        (snd (webhook.SendExpiringNotification (webhook.NewNotifier [sim.hook 1])
                "web" "default" "letsencrypt" ["example.com"]
                (sim.newYear + 48 * time.Hour)
                (sim.start (sim.mkWorld sim.newYear 0 [webhook.Responded 200] []))))
  = ["Certificate default/web expires in 2 days"].
Proof. vm_compute. reflexivity. Qed.

(** C5 as the specification words it fails: one nanosecond short of 171
    days, the quotient of the remaining duration by 24 hours is 170, and
    the message says 171.  The float64 sum 4103 + 0.99999999999972 of
    [Hours] is rounded to 4104. *)
Lemma expiring_message_counterexample :
  let remaining := 171 * (24 * time.Hour) - 1 in
  let s := sim.start (sim.mkWorld sim.newYear 0 [webhook.Responded 200] []) in
  time.Sub (sim.newYear + remaining) (fst (webhook.Now (webhook.world s))) = remaining
  /\ Z.quot remaining (24 * time.Hour) = 170
  /\ webhook.daysUntil remaining = 171
  /\ webhook.Message
     <$> webhook.notifications
           (snd (webhook.SendExpiringNotification (webhook.NewNotifier [sim.hook 1])
                   "web" "default" "letsencrypt" ["example.com"]
                   (sim.newYear + remaining) s))
     = ["Certificate default/web expires in 171 days"].
Proof.
  intros remaining s. vm_compute. repeat split; reflexivity.
Qed.

(** Two destinations, and every optional variable malformed. *)
Lemma malformed_optional_keeps_default_witness :
  ~ blankSource sim.malformedEnv
  /\ exists cfg : config.Config,
       config.Load sim.ParseDuration sim.malformedEnv = Ok cfg
       /\ (sim.ParseDuration (os.Getenv sim.malformedEnv "CHECK_INTERVAL") = None ->
           config.CheckInterval cfg = 24 * time.Hour)
       /\ (sim.ParseDuration (os.Getenv sim.malformedEnv "EXPIRATION_THRESHOLD") = None ->
           config.ExpirationThreshold cfg = 720 * time.Hour)
       /\ (strconv.Atoi (os.Getenv sim.malformedEnv "HEALTH_PORT") = None ->
           config.HealthPort cfg = 8080)
       /\ Forall (fun w =>
                    exists i : Z,
                      config.Name w = "webhook-" +:+ strings.itoa (i + 1)
                      /\ (sim.ParseDuration
                            (os.Getenv sim.malformedEnv
                               ("WEBHOOK_" +:+ strings.itoa (i + 1) +:+ "_TIMEOUT"))
                          = None ->
                          config.Timeout w = 30 * time.Second))
                 (config.Webhooks cfg).
Proof.
  assert (Hnb : ~ blankSource sim.malformedEnv).
  { rewrite Getenv_blank. apply (bool_decide_eq_false_1 _). vm_compute. reflexivity. }
  split; [exact Hnb |].
  apply (malformed_optional_keeps_default sim.ParseDuration sim.malformedEnv Hnb).
Defined.

(** What that environment loads: the two destinations with their
    indices in the list, and the defaults. *)
Example malformed_optional_loaded :
  (fun cfg => (config.Name <$> config.Webhooks cfg,
               config.Timeout <$> config.Webhooks cfg,
               config.CheckInterval cfg, config.ExpirationThreshold cfg,
               config.HealthPort cfg))
  <$> match config.Load sim.ParseDuration sim.malformedEnv with
      | Ok cfg => Some cfg
      | Err _ => None
      end
  = Some (["webhook-1"; "webhook-3"], [30 * time.Second; 30 * time.Second],
          24 * time.Hour, 720 * time.Hour, 8080).
Proof. vm_compute. reflexivity. Qed.

(** * Further properties of the code *)

(** ** Checks that do nothing *)

Lemma shouldNotify_in_cooldown (m : monitor.CertificateMonitor) (key : string)
    (now T : time.Time) :
  monitor.notifiedCerts m !! key = Some T ->
  now - T < 24 * time.Hour ->
  monitor.shouldNotifyExpired m key now = false.
Proof.
  intros Hk Hlt. unfold monitor.shouldNotifyExpired. rewrite Hk.
  rewrite (Sub_ge _ _ _ day_in_range). apply Z.leb_gt. exact Hlt.
Qed.

Lemma decision_in_cooldown (m : monitor.CertificateMonitor)
    (cert : certmanagerv1.Certificate) (now T : time.Time) :
  monitor.notifiedCerts m !! monitor.certKeyOf cert = Some T ->
  now - T < 24 * time.Hour ->
  decision m cert now = None.
Proof.
  intros Hk Hlt. unfold decision, monitor.shouldNotifyExpiring.
  fold (monitor.shouldNotifyExpired m (monitor.certKeyOf cert) now).
  rewrite (shouldNotify_in_cooldown m _ now T Hk Hlt).
  destruct (monitor.isCertificateExpired m cert now),
    (monitor.isCertificateExpiring m cert now); reflexivity.
Qed.

Section QuietChecks.

Context {World : Type} `{webhook.Platform World} `{monitor.Client World}.

(** A check that calls for no notification returns at once: the same
    monitor, no error, and the state it was given. *)
Lemma checkCertificate_quiet (m : monitor.CertificateMonitor)
    (cert : certmanagerv1.Certificate) (now : time.Time)
    (s : webhook.RunState World) :
  decision m cert now = None ->
  monitor.checkCertificate m cert now s = ((m, None), s).
Proof.
  unfold decision, monitor.checkCertificate.
  destruct (certmanagerv1.Status_NotAfter cert) as [expirationTime |]; [| reflexivity].
  destruct (monitor.isCertificateExpired m cert now).
  - destruct (monitor.shouldNotifyExpired m (monitor.certKeyOf cert) now);
      [discriminate | reflexivity].
  - destruct (monitor.isCertificateExpiring m cert now); [| reflexivity].
    destruct (monitor.shouldNotifyExpiring m (monitor.certKeyOf cert) now);
      [discriminate | reflexivity].
Qed.

(** X1: while the record of a key is less than 24 hours old, checking
    its certificate does nothing at all, whatever the certificate's
    state: no notification, no request to any destination, no reading
    of the clock, the same monitor and no error. *)
Theorem check_within_cooldown_is_silent (m : monitor.CertificateMonitor)
    (cert : certmanagerv1.Certificate) (now T : time.Time)
    (s : webhook.RunState World) :
  monitor.notifiedCerts m !! monitor.certKeyOf cert = Some T ->
  now - T < 24 * time.Hour ->
  monitor.checkCertificate m cert now s = ((m, None), s).
Proof.
  intros Hk Hlt. apply checkCertificate_quiet.
  exact (decision_in_cooldown m cert now T Hk Hlt).
Qed.

(** X2: a certificate that expires at or after now + threshold, and is
    not yet expired, is left alone by a check. *)
Theorem healthy_certificate_is_left_alone (m : monitor.CertificateMonitor)
    (cert : certmanagerv1.Certificate) (now expiry : time.Time)
    (s : webhook.RunState World) :
  certmanagerv1.Status_NotAfter cert = Some expiry ->
  now <= expiry ->
  now + config.ExpirationThreshold (monitor.config m) <= expiry ->
  monitor.checkCertificate m cert now s = ((m, None), s).
Proof.
  intros Hexp Hnow Hthr. apply checkCertificate_quiet.
  unfold decision, monitor.isCertificateExpired, monitor.isCertificateExpiring,
    time.After, time.Add.
  rewrite Hexp.
  replace (expiry <? now) with false by (symmetry; apply Z.ltb_ge; lia).
  replace (expiry <? now + config.ExpirationThreshold (monitor.config m))
    with false by (symmetry; apply Z.ltb_ge; lia).
  reflexivity.
Qed.

(** X3: once a notification for a certificate has been delivered in a
    check at [now], a check of the same certificate at any instant less
    than 24 hours after [now] does nothing, from whatever state it runs. *)
Theorem delivered_notification_silences_next_checks
    (m : monitor.CertificateMonitor) (cert : certmanagerv1.Certificate)
    (now later : time.Time) (s s' : webhook.RunState World) :
  snd (fst (monitor.checkCertificate m cert now s)) = None ->
  decision m cert now <> None ->
  later - now < 24 * time.Hour ->
  monitor.notifiedCerts (fst (fst (monitor.checkCertificate m cert now s)))
  !! monitor.certKeyOf cert = Some now
  /\ monitor.checkCertificate (fst (fst (monitor.checkCertificate m cert now s)))
       cert later s'
     = ((fst (fst (monitor.checkCertificate m cert now s)), None), s').
Proof.
  intros Hok Hfire Hlt.
  destruct (checkCertificate_run m cert now s) as (l & _ & _ & _ & Hm).
  rewrite Hok in Hm. destruct (decision m cert now) as [kind |]; [| contradiction].
  assert (Hk : monitor.notifiedCerts
                 (fst (fst (monitor.checkCertificate m cert now s)))
               !! monitor.certKeyOf cert = Some now).
  { rewrite Hm. apply markNotified_lookup. }
  split; [exact Hk |]. apply checkCertificate_quiet.
  exact (decision_in_cooldown _ cert later now Hk Hlt).
Qed.

(** X4: a check of one certificate leaves the configuration and the
    notifier of the monitor as they were, and the record of every other
    key too. *)
Theorem check_touches_only_its_key (m : monitor.CertificateMonitor)
    (cert : certmanagerv1.Certificate) (now : time.Time)
    (s : webhook.RunState World) :
  monitor.config (fst (fst (monitor.checkCertificate m cert now s)))
  = monitor.config m
  /\ monitor.notifier (fst (fst (monitor.checkCertificate m cert now s)))
     = monitor.notifier m
  /\ delete (monitor.certKeyOf cert)
       (monitor.notifiedCerts (fst (fst (monitor.checkCertificate m cert now s))))
     = delete (monitor.certKeyOf cert) (monitor.notifiedCerts m).
Proof.
  destruct (checkCertificate_run m cert now s) as (l & _ & _ & _ & Hm).
  rewrite Hm.
  destruct (snd (fst (monitor.checkCertificate m cert now s))),
    (decision m cert now); simpl; repeat split; apply delete_insert_eq.
Qed.

End QuietChecks.

(** ** What a notification says about its certificate *)

Section Payloads.

Context {World : Type} `{webhook.Platform World} `{monitor.Client World}.

(** X5: every notification that a check sends describes the checked
    certificate: its name, namespace, DNS names and expiry instant.  One
    of kind expired is sent only when the expiry is behind now, with the
    message that the certificate has expired; one of kind expiring only
    when the expiry is not behind now and less than the threshold ahead. *)
Theorem notification_describes_certificate (m : monitor.CertificateMonitor)
    (cert : certmanagerv1.Certificate) (now : time.Time)
    (s : webhook.RunState World) :
  exists l : list webhook.NotificationPayload,
    webhook.notifications (snd (monitor.checkCertificate m cert now s))
    = webhook.notifications s ++ l
    /\ Forall
         (fun p =>
            let c := webhook.Certificate p in
            webhook.Name c = certmanagerv1.Name cert
            /\ webhook.Namespace c = certmanagerv1.Namespace cert
            /\ webhook.DNSNames c = certmanagerv1.Spec_DNSNames cert
            /\ certmanagerv1.Status_NotAfter cert = Some (webhook.ExpiresAt c)
            /\ (webhook.Type_ p = "expired"
                /\ webhook.ExpiresAt c < now
                /\ webhook.Message p
                   = "Certificate " +:+ certmanagerv1.Namespace cert +:+ "/"
                     +:+ certmanagerv1.Name cert +:+ " has expired"
                \/ webhook.Type_ p = "expiring"
                   /\ now <= webhook.ExpiresAt c
                   /\ webhook.ExpiresAt c
                      < now + config.ExpirationThreshold (monitor.config m)))
         l.
Proof.
  unfold monitor.checkCertificate.
  destruct (certmanagerv1.Status_NotAfter cert) as [expirationTime |] eqn:Hexp.
  2: { exists []. simpl. rewrite app_nil_r. split; [reflexivity | constructor]. }
  unfold monitor.isCertificateExpired, monitor.isCertificateExpiring,
    time.After, time.Add.
  rewrite Hexp.
  destruct (Z.ltb_spec expirationTime now) as [Hpast | Hfuture].
  - destruct (monitor.shouldNotifyExpired m (monitor.certKeyOf cert) now); simpl.
    2: { exists []. rewrite app_nil_r. split; [reflexivity | constructor]. }
    unfold webhook.bind.
    match goal with
    | |- context [webhook.SendExpiredNotification ?n ?a ?b ?c ?d ?e s] =>
        pose proof (SendExpiredNotification_run n a b c d e s) as Hn;
        destruct (webhook.SendExpiredNotification n a b c d e s) as [o s1]
    end.
    simpl in Hn. eexists.
    split; [destruct o; exact Hn |].
    apply Forall_singleton. simpl. do 4 (split; [reflexivity |]). left. auto.
  - destruct (Z.ltb_spec expirationTime
                (now + config.ExpirationThreshold (monitor.config m)))
      as [Hnear | Hfar].
    2: { exists []. simpl. rewrite app_nil_r. split; [reflexivity | constructor]. }
    destruct (monitor.shouldNotifyExpiring m (monitor.certKeyOf cert) now); simpl.
    2: { exists []. rewrite app_nil_r. split; [reflexivity | constructor]. }
    unfold webhook.bind. rewrite timeUntil_run.
    match goal with
    | |- context [webhook.SendExpiringNotification ?n ?a ?b ?c ?d ?e ?s0] =>
        pose proof (SendExpiringNotification_run n a b c d e s0) as Hn;
        destruct (webhook.SendExpiringNotification n a b c d e s0) as [o s1]
    end.
    simpl in Hn. eexists.
    split; [destruct o; exact Hn |].
    apply Forall_singleton. simpl. do 4 (split; [reflexivity |]). right. auto.
Qed.

End Payloads.

(** ** One tick over the listed certificates *)

Lemma decision_kinds (m : monitor.CertificateMonitor)
    (cert : certmanagerv1.Certificate) (now : time.Time) (kind : string) :
  decision m cert now = Some kind -> kind = "expired" \/ kind = "expiring".
Proof.
  unfold decision.
  destruct (monitor.isCertificateExpired m cert now).
  - destruct (monitor.shouldNotifyExpired m (monitor.certKeyOf cert) now);
      [intros [= <-]; left; reflexivity | discriminate].
  - destruct (monitor.isCertificateExpiring m cert now); [| discriminate].
    destruct (monitor.shouldNotifyExpiring m (monitor.certKeyOf cert) now);
      [intros [= <-]; right; reflexivity | discriminate].
Qed.

Section Ticks.

Context {World : Type} `{webhook.Platform World} `{monitor.Client World}.

Lemma getCertificates_logs (m : monitor.CertificateMonitor)
    (s : webhook.RunState World) :
  webhook.notifications (snd (monitor.getCertificates m s)) = webhook.notifications s
  /\ webhook.attempts (snd (monitor.getCertificates m s)) = webhook.attempts s.
Proof.
  unfold monitor.getCertificates.
  match goal with |- context [monitor.List ?ns ?w] => destruct (monitor.List ns w) end.
  split; reflexivity.
Qed.

(** A check marks its own key with [now] or leaves the table alone. *)
Lemma checkCertificate_table (m : monitor.CertificateMonitor)
    (cert : certmanagerv1.Certificate) (now : time.Time)
    (s : webhook.RunState World) :
  fst (fst (monitor.checkCertificate m cert now s)) = m
  \/ fst (fst (monitor.checkCertificate m cert now s))
     = monitor.markNotified m (monitor.certKeyOf cert) now.
Proof.
  destruct (checkCertificate_run m cert now s) as (l & _ & _ & _ & Hm).
  rewrite Hm.
  destruct (snd (fst (monitor.checkCertificate m cert now s))),
    (decision m cert now); auto.
Qed.

Lemma checkLoop_keys (items : list certmanagerv1.Certificate) (now : time.Time)
    (key : string) :
  forall (m : monitor.CertificateMonitor) (expiredCount expiringCount : Z)
         (s : webhook.RunState World),
    let m' := fst (fst (monitor.checkLoop m items now expiredCount expiringCount s)) in
    monitor.notifiedCerts m' !! key = monitor.notifiedCerts m !! key
    \/ monitor.notifiedCerts m' !! key = Some now
       /\ exists cert, cert ∈ items /\ key = monitor.certKeyOf cert.
Proof.
  induction items as [| cert rest IH]; intros m expiredCount expiringCount s; simpl.
  - left. reflexivity.
  - unfold webhook.bind.
    pose proof (checkCertificate_table m cert now s) as Hone.
    destruct (monitor.checkCertificate m cert now s) as [[m1 err] s1]. simpl in Hone.
    assert (Hrest : forall e g,
               let m' := fst (fst (monitor.checkLoop m1 rest now e g s1)) in
               monitor.notifiedCerts m' !! key = monitor.notifiedCerts m !! key
               \/ monitor.notifiedCerts m' !! key = Some now
                  /\ exists c, c ∈ cert :: rest /\ key = monitor.certKeyOf c).
    { intros e g. destruct (IH m1 e g s1) as [Hsame | (Hnow & c & Hin & Hc)].
      - destruct Hone as [-> | ->]; [left; exact Hsame |].
        destruct (decide (monitor.certKeyOf cert = key)) as [Heq | Hne].
        + right. split.
          * rewrite Hsame, <- Heq. apply markNotified_lookup.
          * exists cert. split; [left | symmetry; exact Heq].
        + left. rewrite Hsame. apply markNotified_other, Hne.
      - right. split; [exact Hnow |]. exists c. split; [right; exact Hin | exact Hc]. }
    destruct err; [apply Hrest |].
    destruct (monitor.isCertificateExpired m1 cert now); [apply Hrest |].
    destruct (monitor.isCertificateExpiring m1 cert now); apply Hrest.
Qed.

Lemma checkLoop_notifications (items : list certmanagerv1.Certificate)
    (now : time.Time) :
  forall (m : monitor.CertificateMonitor) (expiredCount expiringCount : Z)
         (s : webhook.RunState World),
    exists l : list webhook.NotificationPayload,
      webhook.notifications
        (snd (monitor.checkLoop m items now expiredCount expiringCount s))
      = webhook.notifications s ++ l
      /\ (length l <= length items)%nat
      /\ Forall (fun p => webhook.Type_ p = "expired" \/ webhook.Type_ p = "expiring") l.
Proof.
  induction items as [| cert rest IH]; intros m expiredCount expiringCount s; simpl.
  - exists []. rewrite app_nil_r. repeat split; [simpl; lia | constructor].
  - unfold webhook.bind.
    destruct (checkCertificate_run m cert now s) as (l1 & Hn1 & Hk1 & _).
    destruct (monitor.checkCertificate m cert now s) as [[m1 err] s1]. simpl in Hn1.
    assert (Hl1 : (length l1 <= 1)%nat
                  /\ Forall (fun p => webhook.Type_ p = "expired"
                                      \/ webhook.Type_ p = "expiring") l1).
    { destruct (decision m cert now) as [kind |] eqn:Hd; simpl in Hk1.
      - destruct l1 as [| p [| q l1]]; try discriminate Hk1. injection Hk1 as Hp.
        split; [simpl; lia |]. apply Forall_singleton. rewrite Hp.
        exact (decision_kinds m cert now kind Hd).
      - apply fmap_nil_inv in Hk1. subst l1. split; [simpl; lia | constructor]. }
    destruct Hl1 as [Hlen1 Hkinds1].
    assert (Hrest : forall e g,
               exists l : list webhook.NotificationPayload,
                 webhook.notifications (snd (monitor.checkLoop m1 rest now e g s1))
                 = webhook.notifications s ++ l
                 /\ (length l <= S (length rest))%nat
                 /\ Forall (fun p => webhook.Type_ p = "expired"
                                     \/ webhook.Type_ p = "expiring") l).
    { intros e g. destruct (IH m1 e g s1) as (l2 & Hn2 & Hlen2 & Hkinds2).
      exists (l1 ++ l2). rewrite Hn2, Hn1, app_assoc, length_app.
      repeat split; [lia | apply Forall_app; split; assumption]. }
    destruct err; [apply Hrest |].
    destruct (monitor.isCertificateExpired m1 cert now); [apply Hrest |].
    destruct (monitor.isCertificateExpiring m1 cert now); apply Hrest.
Qed.

(** X6: after a tick, the record of a key is the one from before the
    tick, or it is the instant that the tick read off the clock and the
    key is that of a listed certificate. *)
Theorem tick_records_listed_keys_at_its_instant (m : monitor.CertificateMonitor)
    (s : webhook.RunState World) (items : list certmanagerv1.Certificate)
    (key : string) :
  fst (monitor.getCertificates m s) = Ok items ->
  let now := fst (webhook.timeNow (snd (monitor.getCertificates m s))) in
  let m' := fst (fst (monitor.checkCertificates m s)) in
  monitor.notifiedCerts m' !! key = monitor.notifiedCerts m !! key
  \/ monitor.notifiedCerts m' !! key = Some now
     /\ exists cert, cert ∈ items /\ key = monitor.certKeyOf cert.
Proof.
  intros Hitems. unfold monitor.checkCertificates, webhook.bind.
  destruct (monitor.getCertificates m s) as [r s1]. simpl in Hitems. subst r.
  simpl snd. destruct (webhook.timeNow s1) as [now s2]. simpl fst.
  pose proof (checkLoop_keys items now key m 0 0 s2) as Hkeys.
  destruct (monitor.checkLoop m items now 0 0 s2) as [[m1 counts] s3].
  exact Hkeys.
Qed.

(** X7: a tick sends at most one notification per listed certificate,
    each of kind expired or expiring. *)
Theorem tick_sends_at_most_one_per_certificate (m : monitor.CertificateMonitor)
    (s : webhook.RunState World) (items : list certmanagerv1.Certificate) :
  fst (monitor.getCertificates m s) = Ok items ->
  exists l : list webhook.NotificationPayload,
    webhook.notifications (snd (monitor.checkCertificates m s))
    = webhook.notifications s ++ l
    /\ (length l <= length items)%nat
    /\ Forall (fun p => webhook.Type_ p = "expired" \/ webhook.Type_ p = "expiring") l.
Proof.
  intros Hitems. unfold monitor.checkCertificates, webhook.bind.
  destruct (getCertificates_logs m s) as [Hlog _].
  destruct (monitor.getCertificates m s) as [r s1]. simpl in Hitems, Hlog. subst r.
  rewrite timeNow_run.
  match goal with
  | |- context [monitor.checkLoop ?m0 ?i ?n ?a ?b ?s0] =>
      destruct (checkLoop_notifications i n m0 a b s0) as (l & Hn & Hlen & Hkinds);
      destruct (monitor.checkLoop m0 i n a b s0) as [[m1 counts] s3]
  end.
  simpl in Hn. exists l. rewrite <- Hlog. auto.
Qed.

(** X8: when the certificates cannot be listed, the tick ends with that
    error before the clock is read: the monitor is unchanged and
    nothing is sent.  After an initial check that failed so, [Run] goes
    on with all its ticks when the check interval is positive, and ends
    there in the panic of [time.NewTicker] when it is not. *)
Theorem failed_listing_abandons_tick_only (m : monitor.CertificateMonitor)
    (s : webhook.RunState World) (msg : string) (ticks : nat) :
  fst (monitor.getCertificates m s) = Err msg ->
  let s1 := snd (monitor.getCertificates m s) in
  monitor.checkCertificates m s
  = ((m, Some (monitor.GetCertificatesFailed msg)), s1)
  /\ webhook.notifications s1 = webhook.notifications s
  /\ webhook.attempts s1 = webhook.attempts s
  /\ monitor.Run m ticks s
     = if 0 <? config.CheckInterval (monitor.config m)
       then ((fst (monitor.tickLoop ticks m s1), monitor.Returned),
             snd (monitor.tickLoop ticks m s1))
       else ((m, monitor.Panicked "non-positive interval for NewTicker"), s1).
Proof.
  intros Herr. destruct (getCertificates_logs m s) as [Hn Ha].
  unfold monitor.Run, monitor.checkCertificates, webhook.bind, time.NewTicker.
  destruct (monitor.getCertificates m s) as [r s1]. simpl in *. subst r.
  repeat split; try assumption.
  rewrite Z.leb_antisym. destruct (0 <? _); simpl; [| reflexivity].
  destruct (monitor.tickLoop ticks m s1); reflexivity.
Qed.

End Ticks.

(** ** Edges of the delivery *)

Section DeliveryEdges.

Context {World : Type} `{webhook.Platform World}.

(** X9: an event that cannot be serialised fails with the encoder's
    error before any destination is tried: no attempt is made and the
    world is not touched. *)
Theorem unencodable_event_reaches_no_destination (n : webhook.Notifier)
    (payload : webhook.NotificationPayload) (msg : string)
    (s : webhook.RunState World) :
  webhook.Marshal payload = Err msg ->
  webhook.sendNotification n payload s
  = (Some (webhook.MarshalFailed msg),
     webhook.mkRunState (webhook.world s) (webhook.notifications s ++ [payload])
                        (webhook.attempts s)).
Proof.
  intros Hjson. unfold webhook.sendNotification, webhook.bind, webhook.announce.
  rewrite Hjson. reflexivity.
Qed.

(** X10: a notifier without destinations fails every notification: with
    the encoder's error when the event cannot be serialised, and
    otherwise with an error that wraps no destination's error.  Nothing
    is tried either way, and the world is not touched. *)
Theorem no_destination_always_fails (n : webhook.Notifier)
    (payload : webhook.NotificationPayload) (s : webhook.RunState World) :
  webhook.webhooks n = [] ->
  webhook.sendNotification n payload s
  = (Some match webhook.Marshal payload with
          | Err msg => webhook.MarshalFailed msg
          | Ok _ => webhook.NoWebhookSucceeded None
          end,
     webhook.mkRunState (webhook.world s) (webhook.notifications s ++ [payload])
                        (webhook.attempts s)).
Proof.
  intros Hnone. unfold webhook.sendNotification, webhook.bind, webhook.announce.
  rewrite Hnone. destruct (webhook.Marshal payload); reflexivity.
Qed.

(** X11: one destination counts as reached exactly when the exchange
    comes back with a status from 200 to 299; any other status is
    reported with its code, and a request that cannot be built or sent
    is an error as well. *)
Theorem destination_succeeds_on_2xx_only (webhook : config.WebhookConfig)
    (payload : string) (s : webhook.RunState World) :
  (fst (webhook.sendToWebhook webhook payload s) = None
   <-> exists code, fst (webhook.Do webhook payload (webhook.world s))
                    = webhook.Responded code
                    /\ 200 <= code < 300)
  /\ forall code,
       fst (webhook.Do webhook payload (webhook.world s)) = webhook.Responded code ->
       ~ 200 <= code < 300 ->
       fst (webhook.sendToWebhook webhook payload s)
       = Some (webhook.NonSuccessStatus code).
Proof.
  unfold webhook.sendToWebhook.
  destruct (webhook.Do webhook payload (webhook.world s)) as [out w]. simpl.
  destruct out as [msg | msg | code]; simpl.
  - split; [split; [discriminate | intros (c & Hc & _); discriminate] |].
    intros c Hc. discriminate.
  - split; [split; [discriminate | intros (c & Hc & _); discriminate] |].
    intros c Hc. discriminate.
  - assert (Hiff : (code <? 200) || (300 <=? code) = false <-> 200 <= code < 300)
      by (rewrite orb_false_iff, Z.ltb_ge, Z.leb_gt; lia).
    destruct ((code <? 200) || (300 <=? code)) eqn:Hc; simpl.
    + split.
      * split; [discriminate |]. intros (c & [= <-] & Hr).
        apply Hiff in Hr. discriminate Hr.
      * intros c [= <-] _. reflexivity.
    + split.
      * split; [| reflexivity]. intros _. exists code.
        split; [reflexivity | apply Hiff; reflexivity].
      * intros c [= <-] Hn. exfalso. apply Hn, Hiff. reflexivity.
Qed.

End DeliveryEdges.

(** ** What the destination list loads *)

Lemma itoa_inj (a b : Z) : strings.itoa a = strings.itoa b -> a = b.
Proof.
  unfold strings.itoa. intros Heq. apply DecimalZ.to_int_inj.
  assert (Hsome : Some (Z.to_int a) = Some (Z.to_int b))
    by (rewrite <- !NilEmpty.isi, Heq; reflexivity).
  congruence.
Qed.

Lemma webhookName_inj (i j : Z) : webhookName i = webhookName j -> i = j.
Proof.
  unfold webhookName. simpl. intros [= Heq]. apply itoa_inj in Heq. lia.
Qed.

Lemma entriesFrom_elem (urlList : list string) :
  forall (i j : Z) (url : string),
    (j, url) ∈ entriesFrom i urlList
    <-> exists k : nat, urlList !! k = Some url /\ j = i + Z.of_nat k.
Proof.
  induction urlList as [| u rest IH]; intros i j url; simpl.
  - split; [intros Hin; inversion Hin | intros (k & Hk & _); discriminate].
  - rewrite elem_of_cons, IH. split.
    + intros [[= -> ->] | (k & Hk & ->)].
      * exists 0%nat. split; [reflexivity | lia].
      * exists (S k). split; [exact Hk | lia].
    + intros ([| k] & Hk & ->).
      * left. injection Hk as ->. f_equal. lia.
      * right. exists k. split; [exact Hk | lia].
Qed.

Section Destinations.

Variable ParseDuration : string -> option time.Duration.
Variable env : gmap string string.

(** The loop of [loadWebhooks] appends what each entry loads. *)
Lemma loadLoop_entries (urlList : list string) :
  forall (i : Z) (webhooks : list config.WebhookConfig),
    config.loadLoop ParseDuration env i urlList webhooks
    = webhooks ++ omap (loadEntry ParseDuration env) (entriesFrom i urlList).
Proof.
  induction urlList as [| url rest IH]; intros i webhooks; simpl.
  - rewrite app_nil_r. reflexivity.
  - unfold loadEntry at 1. simpl. case_decide; rewrite IH; [reflexivity |].
    rewrite <- app_assoc. reflexivity.
Qed.

Lemma Load_webhooks (cfg : config.Config) :
  config.Load ParseDuration env = Ok cfg ->
  config.Webhooks cfg
  = omap (loadEntry ParseDuration env)
         (entriesFrom 0 (strings.Split (os.Getenv env "WEBHOOK_URLS") ",")).
Proof.
  intros Hload. pose proof (Load_spec ParseDuration env) as Hspec.
  destruct (config.loadWebhooks ParseDuration env) as [webhooks | err] eqn:Hlist.
  - destruct Hspec as (cfg' & Hcfg & Hws & _).
    rewrite Hcfg in Hload. injection Hload as <-. rewrite Hws. clear Hcfg Hws.
    unfold config.loadWebhooks in Hlist.
    repeat case_decide; try discriminate Hlist. injection Hlist as <-.
    apply loadLoop_entries.
  - rewrite Hspec in Hload. discriminate Hload.
Qed.

Lemma loadEntry_urls (urlList : list string) :
  forall i : Z,
    config.URL <$> omap (loadEntry ParseDuration env) (entriesFrom i urlList)
    = filter (fun url => url <> "") (strings.TrimSpace <$> urlList).
Proof.
  induction urlList as [| url rest IH]; intros i; simpl; [reflexivity |].
  rewrite filter_cons. unfold loadEntry at 1. simpl.
  repeat case_decide; try contradiction; simpl; rewrite IH; reflexivity.
Qed.

Lemma loadEntry_names (urlList : list string) :
  forall (i : Z) (w : config.WebhookConfig),
    w ∈ omap (loadEntry ParseDuration env) (entriesFrom i urlList) ->
    exists j, i <= j /\ config.Name w = webhookName j.
Proof.
  induction urlList as [| url rest IH]; intros i w; simpl.
  - intros Hin. inversion Hin.
  - unfold loadEntry at 1. simpl. case_decide.
    + intros Hin. apply IH in Hin as (j & Hj & Hn). exists j. split; [lia | exact Hn].
    + intros Hin. apply elem_of_cons in Hin as [-> | Hin].
      * exists i. split; [lia | reflexivity].
      * apply IH in Hin as (j & Hj & Hn). exists j. split; [lia | exact Hn].
Qed.

Lemma loadEntry_names_NoDup (urlList : list string) :
  forall i : Z,
    NoDup (config.Name
           <$> omap (loadEntry ParseDuration env) (entriesFrom i urlList)).
Proof.
  induction urlList as [| url rest IH]; intros i; simpl; [constructor |].
  unfold loadEntry at 1. simpl. case_decide; [apply IH |].
  simpl. constructor; [| apply IH].
  intros Hin. apply list_elem_of_fmap in Hin as (w & Hname & Hin).
  apply loadEntry_names in Hin as (j & Hj & Hn).
  rewrite Hn in Hname. change (webhookName i = webhookName j) in Hname.
  apply webhookName_inj in Hname. lia.
Qed.

(** X12: the addresses of the loaded webhooks are the entries of
    WEBHOOK_URLS between the commas, trimmed of white space, without the
    blank ones, in their order. *)
Theorem loaded_urls_are_the_nonblank_entries (cfg : config.Config) :
  config.Load ParseDuration env = Ok cfg ->
  config.URL <$> config.Webhooks cfg
  = filter (fun url => url <> "")
           (strings.TrimSpace
            <$> strings.Split (os.Getenv env "WEBHOOK_URLS") ",").
Proof.
  intros Hload. rewrite (Load_webhooks cfg Hload). apply loadEntry_urls.
Qed.

(** X13: a webhook is loaded exactly from the non-blank entries.  The
    one from the entry at index [k], blank entries counted, is named
    webhook-(k+1) and has the trimmed entry as its address; its headers
    are the pairs of WEBHOOK_(k+1)_HEADERS between the commas, none when
    that is unset or empty; its timeout is WEBHOOK_(k+1)_TIMEOUT when
    that is set and parses as a duration, and 30 seconds otherwise. *)
Theorem loaded_webhook_is_numbered_by_position (cfg : config.Config)
    (w : config.WebhookConfig) :
  config.Load ParseDuration env = Ok cfg ->
  w ∈ config.Webhooks cfg
  <-> exists (k : nat) (url : string),
        strings.Split (os.Getenv env "WEBHOOK_URLS") "," !! k = Some url
        /\ strings.TrimSpace url <> ""
        /\ config.Name w = "webhook-" +:+ strings.itoa (Z.of_nat k + 1)
        /\ config.URL w = strings.TrimSpace url
        /\ config.Headers w
           = (let headers :=
                os.Getenv env ("WEBHOOK_" +:+ strings.itoa (Z.of_nat k + 1)
                               +:+ "_HEADERS") in
              if decide (headers = "") then ∅
              else foldl config.addHeader ∅ (strings.Split headers ","))
        /\ config.Timeout w
           = (let timeout :=
                os.Getenv env ("WEBHOOK_" +:+ strings.itoa (Z.of_nat k + 1)
                               +:+ "_TIMEOUT") in
              if decide (timeout = "") then 30 * time.Second
              else match ParseDuration timeout with
                   | Some duration => duration
                   | None => 30 * time.Second
                   end).
Proof.
  intros Hload. rewrite (Load_webhooks cfg Hload), list_elem_of_omap. split.
  - intros ([j url] & Hin & Hentry).
    apply entriesFrom_elem in Hin as (k & Hk & ->).
    unfold loadEntry in Hentry. simpl in Hentry.
    case_decide; [discriminate Hentry |]. injection Hentry as <-.
    exists k, url. rewrite Z.add_0_l. unfold config.loadWebhook. simpl.
    repeat split; assumption.
  - intros (k & url & Hk & Hnb & Hname & Hurl & Hheaders & Htimeout).
    exists (Z.of_nat k, url). split.
    + apply entriesFrom_elem. exists k. split; [exact Hk | lia].
    + unfold loadEntry. simpl. case_decide; [contradiction |]. f_equal.
      destruct w as [name url' headers timeout]. simpl in *. subst.
      reflexivity.
Qed.

(** X14: no two loaded webhooks have the same name. *)
Theorem loaded_webhook_names_are_distinct (cfg : config.Config) :
  config.Load ParseDuration env = Ok cfg ->
  NoDup (config.Name <$> config.Webhooks cfg).
Proof.
  intros Hload. rewrite (Load_webhooks cfg Hload). apply loadEntry_names_NoDup.
Qed.

End Destinations.

(** ** The optional variables and the headers *)

Section Optional.

Variable ParseDuration : string -> option time.Duration.
Variable env : gmap string string.

Lemma Load_strings :
  match config.Load ParseDuration env with
  | Err _ => True
  | Ok cfg =>
      config.Namespace cfg = os.Getenv env "NAMESPACE"
      /\ config.LogLevel cfg
         = if decide (os.Getenv env "LOG_LEVEL" = "") then "info"
           else os.Getenv env "LOG_LEVEL"
  end.
Proof.
  unfold config.Load.
  destruct (config.loadWebhooks ParseDuration env) as [webhooks | err]; [| exact I].
  unfold config.loadLogLevel, config.loadHealthPort, config.loadNamespace,
    config.loadExpirationThreshold, config.loadCheckInterval.
  cbv zeta.
  repeat case_decide;
    repeat match goal with
           | |- context [ParseDuration ?v] => destruct (ParseDuration v)
           | |- context [strconv.Atoi ?v] => destruct (strconv.Atoi v)
           end;
    simpl; split; congruence.
Qed.

(** X15: an optional variable that parses replaces the default with the
    parsed value as it is, whatever its sign or size; NAMESPACE is taken
    as it stands, and LOG_LEVEL too unless it is empty, which leaves
    the level info. *)
Theorem well_formed_optional_overrides (cfg : config.Config) :
  config.Load ParseDuration env = Ok cfg ->
  (forall d, os.Getenv env "CHECK_INTERVAL" <> "" ->
             ParseDuration (os.Getenv env "CHECK_INTERVAL") = Some d ->
             config.CheckInterval cfg = d)
  /\ (forall d, os.Getenv env "EXPIRATION_THRESHOLD" <> "" ->
                ParseDuration (os.Getenv env "EXPIRATION_THRESHOLD") = Some d ->
                config.ExpirationThreshold cfg = d)
  /\ (forall port, os.Getenv env "HEALTH_PORT" <> "" ->
                   strconv.Atoi (os.Getenv env "HEALTH_PORT") = Some port ->
                   config.HealthPort cfg = port)
  /\ config.Namespace cfg = os.Getenv env "NAMESPACE"
  /\ config.LogLevel cfg
     = if decide (os.Getenv env "LOG_LEVEL" = "") then "info"
       else os.Getenv env "LOG_LEVEL".
Proof.
  intros Hload.
  pose proof (Load_spec ParseDuration env) as Hspec.
  pose proof Load_strings as Hstr. rewrite Hload in Hstr.
  destruct (config.loadWebhooks ParseDuration env) as [webhooks | err];
    [| rewrite Hspec in Hload; discriminate Hload].
  destruct Hspec as (cfg' & Hcfg & _ & Hci & Het & Hhp).
  rewrite Hcfg in Hload. injection Hload as ->.
  split; [intros d Hne Hd; rewrite Hci, Hd; clear - Hne; case_decide; done |].
  split; [intros d Hne Hd; rewrite Het, Hd; clear - Hne; case_decide; done |].
  split; [intros d Hne Hd; rewrite Hhp, Hd; clear - Hne; case_decide; done |].
  exact Hstr.
Qed.

End Optional.

Lemma bytes_append (a b : string) :
  strings.bytes (a +:+ b) = strings.bytes a ++ strings.bytes b.
Proof.
  unfold strings.bytes. induction a as [| c a IH]; simpl; [reflexivity |].
  f_equal. exact IH.
Qed.

Lemma cutBytes_none (sep : ascii) (l : list ascii) :
  sep ∉ l -> strings.cutBytes sep l = [l].
Proof.
  induction l as [| c l IH]; intros Hnot; simpl; [reflexivity |].
  apply not_elem_of_cons in Hnot as [Hne Hnot].
  destruct (Ascii.eqb_spec c sep) as [-> | _]; [contradiction |].
  rewrite (IH Hnot). reflexivity.
Qed.

Lemma cutBytes_first (sep : ascii) (k v : list ascii) :
  sep ∉ k -> strings.cutBytes sep (k ++ sep :: v) = [k; v].
Proof.
  induction k as [| c k IH]; intros Hnot; simpl.
  - rewrite Ascii.eqb_refl. reflexivity.
  - apply not_elem_of_cons in Hnot as [Hne Hnot].
    destruct (Ascii.eqb_spec c sep) as [-> | _]; [contradiction |].
    rewrite (IH Hnot). reflexivity.
Qed.

Lemma addHeader_pair (headers : gmap string string) (k v : string) :
  ":"%char ∉ strings.bytes k ->
  config.addHeader headers (k +:+ ":" +:+ v)
  = <[strings.TrimSpace k := strings.TrimSpace v]> headers.
Proof.
  intros Hk. unfold config.addHeader, strings.SplitN2.
  rewrite bytes_append. change (strings.bytes (":" +:+ v)) with (":"%char :: strings.bytes v).
  rewrite (cutBytes_first _ _ _ Hk). simpl. unfold strings.of_bytes, strings.bytes.
  rewrite !String.string_of_list_ascii_of_string. reflexivity.
Qed.

(** X16: a header pair is cut at its first colon, so that the value may
    hold colons itself, and both sides are trimmed; a pair without a
    colon sets nothing; and of two pairs with the same name the later
    one decides the value. *)
Theorem header_pair_is_cut_at_first_colon (headers : gmap string string)
    (k v v' pair : string) :
  (":"%char ∉ strings.bytes k ->
   config.addHeader headers (k +:+ ":" +:+ v)
   = <[strings.TrimSpace k := strings.TrimSpace v]> headers)
  /\ (":"%char ∉ strings.bytes pair -> config.addHeader headers pair = headers)
  /\ (":"%char ∉ strings.bytes k ->
      config.addHeader (config.addHeader headers (k +:+ ":" +:+ v))
                       (k +:+ ":" +:+ v')
      = config.addHeader headers (k +:+ ":" +:+ v')).
Proof.
  split; [apply addHeader_pair |]. split.
  - intros Hnone. unfold config.addHeader, strings.SplitN2.
    rewrite (cutBytes_none _ _ Hnone). reflexivity.
  - intros Hk. rewrite !(addHeader_pair _ _ _ Hk). apply insert_insert_eq.
Qed.

(** ** The health endpoints *)

Lemma lastStatus_from (init : option bool) (events : list health.Event) :
  foldl (fun acc e => match e with
                      | health.CallSetHealthy status => Some status
                      | _ => acc
                      end) init events
  = match lastStatus events with
    | Some status => Some status
    | None => init
    end.
Proof.
  unfold lastStatus. revert init.
  induction events as [| e rest IH]; intros init; simpl; [reflexivity |].
  rewrite IH. destruct e; simpl; [| reflexivity | reflexivity].
  rewrite (IH (Some status)).
  destruct (foldl _ None rest); reflexivity.
Qed.

Lemma serve_flag (events : list health.Event) :
  forall flag : Z,
    fst (health.serve flag events)
    = match lastStatus events with
      | Some status => if status then 1 else 0
      | None => flag
      end.
Proof.
  induction events as [| e rest IH]; intros flag; [reflexivity |].
  assert (Hlast : lastStatus (e :: rest)
                  = match lastStatus rest with
                    | Some status => Some status
                    | None => match e with
                              | health.CallSetHealthy status => Some status
                              | _ => None
                              end
                    end)
    by (unfold lastStatus at 1; simpl; apply lastStatus_from).
  rewrite Hlast. simpl.
  destruct (health.step flag e) as [flag' r] eqn:Hstep.
  specialize (IH flag'). destruct (health.serve flag' rest) as [final rs].
  simpl in *. rewrite IH.
  destruct e; simpl in Hstep; injection Hstep as <- _;
    destruct (lastStatus rest); reflexivity.
Qed.

Lemma serve_app (events more : list health.Event) :
  forall flag : Z,
    health.serve flag (events ++ more)
    = (fst (health.serve (fst (health.serve flag events)) more),
       snd (health.serve flag events)
       ++ snd (health.serve (fst (health.serve flag events)) more)).
Proof.
  induction events as [| e rest IH]; intros flag; simpl.
  - destruct (health.serve flag more). reflexivity.
  - destruct (health.step flag e) as [flag' r]. rewrite (IH flag').
    destruct (health.serve flag' rest) as [final rs]. simpl.
    destruct r; reflexivity.
Qed.

(** X17: from the start of the process, both endpoints answer 200 as
    long as no call of [SetHealthy] has been made or the last one passed
    true, and 503 once the last one passed false; a probe writes one
    response and leaves the flag alone. *)
Theorem probes_follow_last_SetHealthy (events : list health.Event) :
  let up := default true (lastStatus events) in
  health.serve health.healthy (events ++ [health.GetHealth])
  = (fst (health.serve health.healthy events),
     snd (health.serve health.healthy events)
     ++ [if up then health.mkResponse 200 "OK"
         else health.mkResponse 503 "Service Unavailable"])
  /\ health.serve health.healthy (events ++ [health.GetReady])
     = (fst (health.serve health.healthy events),
        snd (health.serve health.healthy events)
        ++ [if up then health.mkResponse 200 "Ready"
            else health.mkResponse 503 "Not Ready"]).
Proof.
  simpl. rewrite !serve_app. simpl.
  unfold health.healthHandler, health.readyHandler.
  assert (Hup : (fst (health.serve health.healthy events) =? 1)
                = default true (lastStatus events)).
  { rewrite serve_flag. destruct (lastStatus events) as [[|] |]; reflexivity. }
  rewrite Hup. destruct (default true (lastStatus events)); split; reflexivity.
Qed.

(** ** A monitor that has just started *)

Section FreshMonitor.

Context {World : Type} `{webhook.Platform World} `{monitor.Client World}.

(** X18: a new monitor has no record of any notification: its first
    check of an expired certificate sends an expired notification, and
    of one inside the threshold an expiring one, whatever a monitor of
    an earlier process had sent. *)
Theorem new_monitor_suppresses_nothing (cfg : config.Config)
    (notifier : webhook.Notifier) (cert : certmanagerv1.Certificate)
    (now : time.Time) (s : webhook.RunState World) :
  let m := monitor.NewCertificateMonitor cfg notifier in
  exists l : list webhook.NotificationPayload,
    webhook.notifications (snd (monitor.checkCertificate m cert now s))
    = webhook.notifications s ++ l
    /\ webhook.Type_ <$> l
       = if monitor.isCertificateExpired m cert now then ["expired"]
         else if monitor.isCertificateExpiring m cert now then ["expiring"]
         else [].
Proof.
  intros m. destruct (checkCertificate_run m cert now s) as (l & Hn & Hk & _).
  exists l. split; [exact Hn |]. rewrite Hk. unfold decision.
  unfold monitor.shouldNotifyExpired, monitor.shouldNotifyExpiring.
  subst m. simpl. rewrite lookup_empty.
  destruct (monitor.isCertificateExpired _ cert now); [reflexivity |].
  destruct (monitor.isCertificateExpiring _ cert now); reflexivity.
Qed.

End FreshMonitor.

(** ** Where errors and requests come from *)

Section Requests.

Context {World : Type} `{webhook.Platform World} `{monitor.Client World}.

(** X19: a check returns an error only when it tried to notify: the
    error wraps the failure of the expired notification when that is the
    one called for, and of the expiring notification otherwise. *)
Theorem check_fails_only_on_delivery (m : monitor.CertificateMonitor)
    (cert : certmanagerv1.Certificate) (now : time.Time)
    (s : webhook.RunState World) (err : monitor.error) :
  snd (fst (monitor.checkCertificate m cert now s)) = Some err ->
  decision m cert now = Some "expired"
  /\ (exists e, err = monitor.SendExpiredFailed e)
  \/ decision m cert now = Some "expiring"
     /\ (exists e, err = monitor.SendExpiringFailed e).
Proof.
  unfold decision, monitor.checkCertificate.
  destruct (certmanagerv1.Status_NotAfter cert) as [expirationTime |];
    [| discriminate].
  destruct (monitor.isCertificateExpired m cert now).
  - destruct (monitor.shouldNotifyExpired m (monitor.certKeyOf cert) now);
      [| discriminate].
    simpl. unfold webhook.bind.
    destruct (webhook.SendExpiredNotification _ _ _ _ _ _ s) as [[e |] s1];
      simpl; [| discriminate].
    intros [= <-]. left. eauto.
  - destruct (monitor.isCertificateExpiring m cert now); [| discriminate].
    destruct (monitor.shouldNotifyExpiring m (monitor.certKeyOf cert) now);
      [| discriminate].
    simpl. unfold webhook.bind.
    destruct (webhook.timeUntil expirationTime s) as [remaining s0].
    destruct (webhook.SendExpiringNotification _ _ _ _ _ _ s0) as [[e |] s1];
      simpl; [| discriminate].
    intros [= <-]. right. eauto.
Qed.

Lemma sendNotification_attempts (n : webhook.Notifier)
    (payload : webhook.NotificationPayload) (s : webhook.RunState World) :
  exists l : list webhook.Attempt,
    webhook.attempts (snd (webhook.sendNotification n payload s))
    = webhook.attempts s ++ l
    /\ (length l <= length (webhook.webhooks n))%nat.
Proof.
  destruct (webhook.Marshal payload) as [json | msg] eqn:Hjson.
  - destruct (sendNotification_run n payload json s Hjson) as (l & Ha & Hd & _).
    exists l. split; [exact Ha |]. rewrite <- Hd, length_fmap. lia.
  - unfold webhook.sendNotification, webhook.bind, webhook.announce.
    rewrite Hjson. exists []. simpl. rewrite app_nil_r. split; [reflexivity | lia].
Qed.

Lemma checkCertificate_attempts (m : monitor.CertificateMonitor)
    (cert : certmanagerv1.Certificate) (now : time.Time)
    (s : webhook.RunState World) :
  exists l : list webhook.Attempt,
    webhook.attempts (snd (monitor.checkCertificate m cert now s))
    = webhook.attempts s ++ l
    /\ (length l <= length (webhook.webhooks (monitor.notifier m)))%nat.
Proof.
  assert (Hnil : exists l : list webhook.Attempt,
             webhook.attempts s = webhook.attempts s ++ l
             /\ (length l <= length (webhook.webhooks (monitor.notifier m)))%nat).
  { exists []. rewrite app_nil_r. split; [reflexivity | simpl; lia]. }
  unfold monitor.checkCertificate.
  destruct (certmanagerv1.Status_NotAfter cert) as [expirationTime |];
    [| exact Hnil].
  destruct (monitor.isCertificateExpired m cert now).
  - destruct (monitor.shouldNotifyExpired m (monitor.certKeyOf cert) now);
      [| exact Hnil].
    simpl. unfold webhook.SendExpiredNotification, webhook.bind.
    rewrite timeNow_run.
    match goal with
    | |- context [webhook.sendNotification ?n ?p ?s0] =>
        destruct (sendNotification_attempts n p s0) as (l & Ha & Hlen);
        destruct (webhook.sendNotification n p s0) as [o s1]
    end.
    exists l. destruct o; simpl in *; auto.
  - destruct (monitor.isCertificateExpiring m cert now); [| exact Hnil].
    destruct (monitor.shouldNotifyExpiring m (monitor.certKeyOf cert) now);
      [| exact Hnil].
    simpl. unfold webhook.SendExpiringNotification, webhook.bind.
    rewrite !timeUntil_run, timeNow_run.
    match goal with
    | |- context [webhook.sendNotification ?n ?p ?s0] =>
        destruct (sendNotification_attempts n p s0) as (l & Ha & Hlen);
        destruct (webhook.sendNotification n p s0) as [o s1]
    end.
    exists l. destruct o; simpl in *; auto.
Qed.

Lemma checkLoop_attempts (items : list certmanagerv1.Certificate) (now : time.Time) :
  forall (m : monitor.CertificateMonitor) (expiredCount expiringCount : Z)
         (s : webhook.RunState World),
    exists l : list webhook.Attempt,
      webhook.attempts
        (snd (monitor.checkLoop m items now expiredCount expiringCount s))
      = webhook.attempts s ++ l
      /\ (length l
          <= length items * length (webhook.webhooks (monitor.notifier m)))%nat.
Proof.
  induction items as [| cert rest IH]; intros m expiredCount expiringCount s; simpl.
  - exists []. rewrite app_nil_r. split; [reflexivity | simpl; lia].
  - unfold webhook.bind.
    destruct (checkCertificate_attempts m cert now s) as (l1 & Ha1 & Hlen1).
    pose proof (checkCertificate_table m cert now s) as Hone.
    destruct (monitor.checkCertificate m cert now s) as [[m1 err] s1].
    simpl in Ha1, Hone.
    assert (Hnot : monitor.notifier m1 = monitor.notifier m)
      by (destruct Hone as [-> | ->]; reflexivity).
    assert (Hrest : forall e g,
               exists l : list webhook.Attempt,
                 webhook.attempts (snd (monitor.checkLoop m1 rest now e g s1))
                 = webhook.attempts s ++ l
                 /\ (length l
                     <= length (webhook.webhooks (monitor.notifier m))
                        + length rest
                          * length (webhook.webhooks (monitor.notifier m)))%nat).
    { intros e g. destruct (IH m1 e g s1) as (l2 & Ha2 & Hlen2).
      rewrite Hnot in Hlen2. exists (l1 ++ l2).
      rewrite Ha2, Ha1, app_assoc, length_app. split; [reflexivity | lia]. }
    destruct err; [apply Hrest |].
    destruct (monitor.isCertificateExpired m1 cert now); [apply Hrest |].
    destruct (monitor.isCertificateExpiring m1 cert now); apply Hrest.
Qed.

(** X20: a tick makes at most one request per listed certificate and
    configured destination, and none when the listing fails. *)
Theorem tick_requests_are_bounded (m : monitor.CertificateMonitor)
    (s : webhook.RunState World) :
  exists l : list webhook.Attempt,
    webhook.attempts (snd (monitor.checkCertificates m s))
    = webhook.attempts s ++ l
    /\ match fst (monitor.getCertificates m s) with
       | Ok items =>
           (length l
            <= length items * length (webhook.webhooks (monitor.notifier m)))%nat
       | Err _ => l = []
       end.
Proof.
  unfold monitor.checkCertificates, webhook.bind.
  destruct (getCertificates_logs m s) as [_ Hlog].
  destruct (monitor.getCertificates m s) as [[items | msg] s1]; simpl in *.
  - rewrite timeNow_run.
    match goal with
    | |- context [monitor.checkLoop ?m0 ?i ?n ?a ?b ?s0] =>
        destruct (checkLoop_attempts i n m0 a b s0) as (l & Ha & Hlen);
        destruct (monitor.checkLoop m0 i n a b s0) as [[m1 counts] s3]
    end.
    simpl in Ha. exists l. rewrite <- Hlog. auto.
  - exists []. rewrite app_nil_r. auto.
Qed.

End Requests.

(** ** The further statements at concrete inputs *)

(** Twenty-three hours after the record, an expired certificate. *)
Lemma check_within_cooldown_is_silent_witness :
  let cert := sim.cert "web" "letsencrypt" (- time.Hour) in
  let now := sim.newYear + 23 * time.Hour in
  let s := examples.answering [webhook.Responded 200] in
  monitor.notifiedCerts examples.notified !! monitor.certKeyOf cert
  = Some sim.newYear
  /\ now - sim.newYear < 24 * time.Hour
  /\ monitor.checkCertificate examples.notified cert now s
     = ((examples.notified, None), s).
Proof.
  intros cert now s.
  assert (Hk : monitor.notifiedCerts examples.notified !! monitor.certKeyOf cert
               = Some sim.newYear) by apply lookup_insert_eq.
  assert (Hlt : now - sim.newYear < 24 * time.Hour) by reflexivity.
  split; [exact Hk |]. split; [exact Hlt |].
  exact (check_within_cooldown_is_silent examples.notified cert now sim.newYear s
           Hk Hlt).
Defined.

(** Sixty days before the expiry, with the threshold of thirty days. *)
Lemma healthy_certificate_is_left_alone_witness :
  let m := sim.mon [sim.hook 1] in
  let cert := sim.cert "web" "letsencrypt" (1440 * time.Hour) in
  let s := examples.answering [webhook.Responded 200] in
  certmanagerv1.Status_NotAfter cert = Some (sim.newYear + 1440 * time.Hour)
  /\ sim.newYear <= sim.newYear + 1440 * time.Hour
  /\ sim.newYear + config.ExpirationThreshold (monitor.config m)
     <= sim.newYear + 1440 * time.Hour
  /\ monitor.checkCertificate m cert sim.newYear s = ((m, None), s).
Proof.
  intros m cert s.
  assert (Hnow : sim.newYear <= sim.newYear + 1440 * time.Hour)
    by (apply Z.leb_le; vm_compute; reflexivity).
  assert (Hthr : sim.newYear + config.ExpirationThreshold (monitor.config m)
                 <= sim.newYear + 1440 * time.Hour)
    by (apply Z.leb_le; vm_compute; reflexivity).
  split; [reflexivity |]. split; [exact Hnow |]. split; [exact Hthr |].
  exact (healthy_certificate_is_left_alone m cert sim.newYear
           (sim.newYear + 1440 * time.Hour) s eq_refl Hnow Hthr).
Defined.

(** A delivered expired notification, and the check an hour later. *)
Lemma delivered_notification_silences_next_checks_witness :
  let m := sim.mon [sim.hook 1] in
  let cert := sim.cert "web" "letsencrypt" (- time.Hour) in
  let s := examples.answering [webhook.Responded 200] in
  let later := sim.newYear + time.Hour in
  let m' := fst (fst (monitor.checkCertificate m cert sim.newYear s)) in
  snd (fst (monitor.checkCertificate m cert sim.newYear s)) = None
  /\ decision m cert sim.newYear <> None
  /\ later - sim.newYear < 24 * time.Hour
  /\ monitor.notifiedCerts m' !! monitor.certKeyOf cert = Some sim.newYear
  /\ monitor.checkCertificate m' cert later s = ((m', None), s).
Proof.
  intros m cert s later m'.
  assert (Hok : snd (fst (monitor.checkCertificate m cert sim.newYear s)) = None)
    by reflexivity.
  assert (Hfire : decision m cert sim.newYear <> None) by discriminate.
  assert (Hlt : later - sim.newYear < 24 * time.Hour) by reflexivity.
  split; [exact Hok |]. split; [exact Hfire |]. split; [exact Hlt |].
  exact (delivered_notification_silences_next_checks m cert sim.newYear later s s
           Hok Hfire Hlt).
Defined.

(** The tick over the cluster of two, for the key of the first. *)
Lemma tick_records_listed_keys_at_its_instant_witness :
  let m := sim.mon [sim.hook 1] in
  let items := [sim.cert "web" "letsencrypt" (- time.Hour);
                sim.cert "api" "letsencrypt" (240 * time.Hour)] in
  let now := fst (webhook.timeNow (snd (monitor.getCertificates m examples.cluster))) in
  let m' := fst (fst (monitor.checkCertificates m examples.cluster)) in
  fst (monitor.getCertificates m examples.cluster) = Ok items
  /\ (monitor.notifiedCerts m' !! "default/web"
      = monitor.notifiedCerts m !! "default/web"
      \/ monitor.notifiedCerts m' !! "default/web" = Some now
         /\ exists cert, cert ∈ items /\ "default/web" = monitor.certKeyOf cert).
Proof.
  intros m items now m'. split; [reflexivity |].
  apply (tick_records_listed_keys_at_its_instant m examples.cluster items
           "default/web").
  reflexivity.
Defined.

Lemma tick_sends_at_most_one_per_certificate_witness :
  let m := sim.mon [sim.hook 1] in
  let items := [sim.cert "web" "letsencrypt" (- time.Hour);
                sim.cert "api" "letsencrypt" (240 * time.Hour)] in
  fst (monitor.getCertificates m examples.cluster) = Ok items
  /\ exists l : list webhook.NotificationPayload,
       webhook.notifications (snd (monitor.checkCertificates m examples.cluster))
       = webhook.notifications examples.cluster ++ l
       /\ (length l <= length items)%nat
       /\ Forall (fun p => webhook.Type_ p = "expired"
                           \/ webhook.Type_ p = "expiring") l.
Proof.
  intros m items. split; [reflexivity |].
  apply (tick_sends_at_most_one_per_certificate m examples.cluster items).
  reflexivity.
Defined.

(** The API server refuses the listing; three ticks remain, a day
    apart. *)
Lemma failed_listing_abandons_tick_only_witness :
  let m := sim.mon [sim.hook 1] in
  let s1 := snd (monitor.getCertificates m examples.outage) in
  fst (monitor.getCertificates m examples.outage) = Err "connection refused"
  /\ monitor.checkCertificates m examples.outage
     = ((m, Some (monitor.GetCertificatesFailed "connection refused")), s1)
  /\ webhook.notifications s1 = webhook.notifications examples.outage
  /\ webhook.attempts s1 = webhook.attempts examples.outage
  /\ monitor.Run m 3 examples.outage
     = ((fst (monitor.tickLoop 3 m s1), monitor.Returned),
        snd (monitor.tickLoop 3 m s1)).
Proof.
  intros m s1. split; [reflexivity |].
  apply (failed_listing_abandons_tick_only m examples.outage "connection refused" 3).
  reflexivity.
Defined.

(** An expiry in the year 10000 is refused by the encoder. *)
Lemma unencodable_event_reaches_no_destination_witness :
  let n := webhook.NewNotifier [sim.hook 1; sim.hook 2] in
  let s := faulty.start (faulty.mkWorld
                           (sim.mkWorld sim.newYear 0 [webhook.Responded 200] [])
                           None) in
  webhook.Marshal (World := faulty.World) examples.unencodable
  = Err "Time.MarshalJSON: year outside of range [0,9999]"
  /\ webhook.sendNotification n examples.unencodable s
     = (Some (webhook.MarshalFailed
                "Time.MarshalJSON: year outside of range [0,9999]"),
        webhook.mkRunState (webhook.world s)
          (webhook.notifications s ++ [examples.unencodable])
          (webhook.attempts s)).
Proof.
  intros n s. split; [reflexivity |].
  apply (unencodable_event_reaches_no_destination n examples.unencodable
           "Time.MarshalJSON: year outside of range [0,9999]" s).
  reflexivity.
Defined.

(** A notifier built from an empty list, asked to send an event of the
    year 10000 and then one that can be serialised. *)
Lemma no_destination_always_fails_witness :
  let n := webhook.NewNotifier [] in
  let s := faulty.start
             (faulty.mkWorld (sim.mkWorld sim.newYear 0 [webhook.Responded 200] [])
                             None) in
  let payload :=
    webhook.mkNotificationPayload "expired" "Certificate default/web has expired"
      (webhook.mkPayloadCertificate "web" "default" "letsencrypt" ["example.com"]
         (sim.newYear - time.Hour))
      sim.newYear in
  webhook.webhooks n = []
  /\ (exists msg : string,
        webhook.Marshal (World := faulty.World) examples.unencodable = Err msg
        /\ webhook.sendNotification n examples.unencodable s
           = (Some (webhook.MarshalFailed msg),
              webhook.mkRunState (webhook.world s)
                (webhook.notifications s ++ [examples.unencodable])
                (webhook.attempts s)))
  /\ webhook.sendNotification n payload s
     = (Some (webhook.NoWebhookSucceeded None),
        webhook.mkRunState (webhook.world s) (webhook.notifications s ++ [payload])
                           (webhook.attempts s)).
Proof.
  intros n s payload. split; [reflexivity |]. split.
  - eexists. split; [reflexivity |].
    exact (no_destination_always_fails n examples.unencodable s eq_refl).
  - exact (no_destination_always_fails n payload s eq_refl).
Defined.

Lemma loaded_example : config.Load sim.ParseDuration examples.env = Ok examples.loaded.
Proof. vm_compute. reflexivity. Qed.

Lemma loaded_urls_are_the_nonblank_entries_witness :
  config.Load sim.ParseDuration examples.env = Ok examples.loaded
  /\ config.URL <$> config.Webhooks examples.loaded
     = filter (fun url => url <> "")
              (strings.TrimSpace
               <$> strings.Split (os.Getenv examples.env "WEBHOOK_URLS") ",").
Proof.
  split; [exact loaded_example |].
  exact (loaded_urls_are_the_nonblank_entries sim.ParseDuration examples.env
           examples.loaded loaded_example).
Defined.

(** The third entry of the list, after a blank one. *)
Lemma loaded_webhook_is_numbered_by_position_witness :
  let w := {| config.Name := "webhook-3";
              config.URL := "https://b.example.com/hook";
              config.Headers := <["X-Team" := "ops"]>
                                  (<["Authorization" := "Bearer a:b"]> ∅);
              config.Timeout := 5 * time.Second |} in
  config.Load sim.ParseDuration examples.env = Ok examples.loaded
  /\ (w ∈ config.Webhooks examples.loaded
      <-> exists (k : nat) (url : string),
            strings.Split (os.Getenv examples.env "WEBHOOK_URLS") "," !! k = Some url
            /\ strings.TrimSpace url <> ""
            /\ config.Name w = "webhook-" +:+ strings.itoa (Z.of_nat k + 1)
            /\ config.URL w = strings.TrimSpace url
            /\ config.Headers w
               = (let headers :=
                    os.Getenv examples.env
                      ("WEBHOOK_" +:+ strings.itoa (Z.of_nat k + 1) +:+ "_HEADERS") in
                  if decide (headers = "") then ∅
                  else foldl config.addHeader ∅ (strings.Split headers ","))
            /\ config.Timeout w
               = (let timeout :=
                    os.Getenv examples.env
                      ("WEBHOOK_" +:+ strings.itoa (Z.of_nat k + 1) +:+ "_TIMEOUT") in
                  if decide (timeout = "") then 30 * time.Second
                  else match sim.ParseDuration timeout with
                       | Some duration => duration
                       | None => 30 * time.Second
                       end)).
Proof.
  intros w. split; [exact loaded_example |].
  exact (loaded_webhook_is_numbered_by_position sim.ParseDuration examples.env
           examples.loaded w loaded_example).
Defined.

Lemma loaded_webhook_names_are_distinct_witness :
  config.Load sim.ParseDuration examples.env = Ok examples.loaded
  /\ NoDup (config.Name <$> config.Webhooks examples.loaded).
Proof.
  split; [exact loaded_example |].
  exact (loaded_webhook_names_are_distinct sim.ParseDuration examples.env
           examples.loaded loaded_example).
Defined.

Lemma well_formed_optional_overrides_witness :
  config.Load sim.ParseDuration examples.env = Ok examples.loaded
  /\ (forall d, os.Getenv examples.env "CHECK_INTERVAL" <> "" ->
                sim.ParseDuration (os.Getenv examples.env "CHECK_INTERVAL") = Some d ->
                config.CheckInterval examples.loaded = d)
  /\ (forall d, os.Getenv examples.env "EXPIRATION_THRESHOLD" <> "" ->
                sim.ParseDuration (os.Getenv examples.env "EXPIRATION_THRESHOLD")
                = Some d ->
                config.ExpirationThreshold examples.loaded = d)
  /\ (forall port, os.Getenv examples.env "HEALTH_PORT" <> "" ->
                   strconv.Atoi (os.Getenv examples.env "HEALTH_PORT") = Some port ->
                   config.HealthPort examples.loaded = port)
  /\ config.Namespace examples.loaded = os.Getenv examples.env "NAMESPACE"
  /\ config.LogLevel examples.loaded
     = if decide (os.Getenv examples.env "LOG_LEVEL" = "") then "info"
       else os.Getenv examples.env "LOG_LEVEL".
Proof.
  split; [exact loaded_example |].
  exact (well_formed_optional_overrides sim.ParseDuration examples.env
           examples.loaded loaded_example).
Defined.

(** What the example environment loads. *)
Example loaded_example_fields :
  (config.Name <$> config.Webhooks examples.loaded,
   config.URL <$> config.Webhooks examples.loaded,
   config.Timeout <$> config.Webhooks examples.loaded,
   (fun w => (config.Headers w !! "Authorization", config.Headers w !! "X-Team"))
   <$> config.Webhooks examples.loaded,
   config.CheckInterval examples.loaded, config.ExpirationThreshold examples.loaded,
   config.Namespace examples.loaded, config.HealthPort examples.loaded,
   config.LogLevel examples.loaded)
  = (["webhook-1"; "webhook-3"],
     ["https://a.example.com/hook"; "https://b.example.com/hook"],
     [30 * time.Second; 5 * time.Second],
     [(None, None); (Some "Bearer a:b", Some "ops")],
     time.Hour, 168 * time.Hour, "prod", 9090, "debug").
Proof. vm_compute. reflexivity. Qed.

(** The single destination answers 500. *)
Lemma check_fails_only_on_delivery_witness :
  let m := sim.mon [sim.hook 1] in
  let cert := sim.cert "web" "letsencrypt" (- time.Hour) in
  let s := examples.answering [webhook.Responded 500] in
  let err := monitor.SendExpiredFailed
               (webhook.NoWebhookSucceeded (Some (webhook.NonSuccessStatus 500))) in
  snd (fst (monitor.checkCertificate m cert sim.newYear s)) = Some err
  /\ (decision m cert sim.newYear = Some "expired"
      /\ (exists e, err = monitor.SendExpiredFailed e)
      \/ decision m cert sim.newYear = Some "expiring"
         /\ (exists e, err = monitor.SendExpiringFailed e)).
Proof.
  intros m cert s err. split; [reflexivity |].
  apply (check_fails_only_on_delivery m cert sim.newYear s err). reflexivity.
Defined.

(** ** When a key is recorded *)

Section Recording.

Context {World : Type} `{webhook.Platform World} `{monitor.Client World}.

Lemma sendNotification_outcome (n : webhook.Notifier)
    (payload : webhook.NotificationPayload) (s : webhook.RunState World) :
  exists l : list webhook.Attempt,
    webhook.attempts (snd (webhook.sendNotification n payload s))
    = webhook.attempts s ++ l
    /\ (fst (webhook.sendNotification n payload s) = None
        <-> exists a, a ∈ l /\ webhook.outcome a = None).
Proof.
  destruct (webhook.Marshal payload) as [json | msg] eqn:Hjson.
  - destruct (sendNotification_run n payload json s Hjson) as (l & Ha & _ & _ & Hr).
    exists l. split; [exact Ha |]. rewrite Hr, <- successes_pos.
    destruct (Z.eqb_spec (successes l) 0); split; congruence.
  - unfold webhook.sendNotification, webhook.bind, webhook.announce.
    rewrite Hjson. exists []. simpl. rewrite app_nil_r. split; [reflexivity |].
    split; [discriminate | intros (a & Hin & _); inversion Hin].
Qed.

(** X21: a check records the key of its certificate, with the instant
    of the tick and without an error, exactly when one of the requests
    it made was accepted by a destination; when none was, or none was
    made, the monitor is left as it was. *)
Theorem key_recorded_iff_destination_accepted (m : monitor.CertificateMonitor)
    (cert : certmanagerv1.Certificate) (now : time.Time)
    (s : webhook.RunState World) :
  exists l : list webhook.Attempt,
    webhook.attempts (snd (monitor.checkCertificate m cert now s))
    = webhook.attempts s ++ l
    /\ ((exists a, a ∈ l /\ webhook.outcome a = None) ->
        fst (monitor.checkCertificate m cert now s)
        = (monitor.markNotified m (monitor.certKeyOf cert) now, None))
    /\ (~ (exists a, a ∈ l /\ webhook.outcome a = None) ->
        fst (fst (monitor.checkCertificate m cert now s)) = m).
Proof.
  assert (Hnil : exists l : list webhook.Attempt,
             webhook.attempts s = webhook.attempts s ++ l
             /\ ((exists a, a ∈ l /\ webhook.outcome a = None) ->
                 (m, @None monitor.error)
                 = (monitor.markNotified m (monitor.certKeyOf cert) now, None))
             /\ (~ (exists a, a ∈ l /\ webhook.outcome a = None) -> m = m)).
  { exists []. rewrite app_nil_r. split; [reflexivity |].
    split; [intros (a & Hin & _); inversion Hin | reflexivity]. }
  unfold monitor.checkCertificate.
  destruct (certmanagerv1.Status_NotAfter cert) as [expirationTime |];
    [| exact Hnil].
  destruct (monitor.isCertificateExpired m cert now).
  - destruct (monitor.shouldNotifyExpired m (monitor.certKeyOf cert) now);
      [| exact Hnil].
    simpl. unfold webhook.SendExpiredNotification, webhook.bind.
    rewrite timeNow_run.
    match goal with
    | |- context [webhook.sendNotification ?n ?p ?s0] =>
        destruct (sendNotification_outcome n p s0) as (l & Ha & Hiff);
        destruct (webhook.sendNotification n p s0) as [o s1]
    end.
    exists l. simpl in *. destruct o as [err |]; simpl.
    + split; [exact Ha |]. split; [| reflexivity].
      intros Hex. apply Hiff in Hex. discriminate Hex.
    + split; [exact Ha |]. split; [reflexivity |].
      intros Hno. exfalso. apply Hno, Hiff. reflexivity.
  - destruct (monitor.isCertificateExpiring m cert now); [| exact Hnil].
    destruct (monitor.shouldNotifyExpiring m (monitor.certKeyOf cert) now);
      [| exact Hnil].
    simpl. unfold webhook.SendExpiringNotification, webhook.bind.
    rewrite !timeUntil_run, timeNow_run.
    match goal with
    | |- context [webhook.sendNotification ?n ?p ?s0] =>
        destruct (sendNotification_outcome n p s0) as (l & Ha & Hiff);
        destruct (webhook.sendNotification n p s0) as [o s1]
    end.
    exists l. simpl in *. destruct o as [err |]; simpl.
    + split; [exact Ha |]. split; [| reflexivity].
      intros Hex. apply Hiff in Hex. discriminate Hex.
    + split; [exact Ha |]. split; [reflexivity |].
      intros Hno. exfalso. apply Hno, Hiff. reflexivity.
Qed.

End Recording.
